(** * Affective Analytics: the Monte Carlo engines, embedded and verified

    The repository holds two simulation engines:

    - the HTTP route ([clamp], [randn], [mulberry32], [POST]): seeded or
      unseeded weighted-sum simulation returning a success probability and a
      LOW / MEDIUM / HIGH label;
    - the MCP serverless function ([runSimulation], [sensitivity],
      [handler]): percentile statistics of a hiring model and a one-at-a-time
      sensitivity ranking.

    JavaScript numbers are IEEE 754 binary64 values: they are modelled by
    Rocq's primitive [float], whose operations are specified by [SpecFloat].
    [Math.log] and [Math.cos] are implementation-approximated in ECMAScript,
    so they are parameters of the development; [Math.random] is a stream of
    uniform draws that the unseeded code consumes in order. *)

From Stdlib Require Import ZArith Lia List Bool String Floats.
From Stdlib Require Import Permutation Sorted.
Import ListNotations.

Set Warnings "-inexact-float,-abstract-large-number".

Local Open Scope Z_scope.

(** ** JavaScript numbers *)

Module Js.

(** A non-negative integer below [2^63] as a number. *)
Definition of_N (z : Z) : float := of_uint63 (Uint63.of_Z z).

(** Truncation toward zero of a finite number; [0] for NaN and the
    infinities, as in ECMAScript's ToInt32 and ToUint32. *)
Definition SFtrunc (x : spec_float) : Z :=
  match x with
  | S754_finite s m e =>
      let v := if 0 <=? e then Z.pos m * 2 ^ e else Z.pos m / 2 ^ (- e) in
      if s then - v else v
  | _ => 0
  end.

Definition trunc (x : float) : Z := SFtrunc (Prim2SF x).

Definition wrap_uint32 (z : Z) : Z := z mod 4294967296.
Definition wrap_int32 (z : Z) : Z := (z + 2147483648) mod 4294967296 - 2147483648.

Definition ToUint32 (x : float) : Z := wrap_uint32 (trunc x).
Definition ToInt32 (x : float) : Z := wrap_int32 (trunc x).

(** [a >>> k] on an int32 operand. *)
Definition shru (a k : Z) : Z := Z.shiftr (wrap_uint32 a) k.
(** [a ^ b] and [a | b] on int32 operands. *)
Definition xor32 (a b : Z) : Z := wrap_int32 (Z.lxor a b).
Definition or32 (a b : Z) : Z := wrap_int32 (Z.lor a b).
(** [Math.imul]. *)
Definition imul (a b : Z) : Z := wrap_int32 (a * b).

(** [Math.floor]: NaN, zeros and infinities are returned as they are; a
    finite number with a non-negative exponent is already an integer. *)
Definition Math_floor (x : float) : float :=
  match Prim2SF x with
  | S754_finite s m e =>
      if 0 <=? e then x
      else if s then (- of_N ((Z.pos m + 2 ^ (- e) - 1) / 2 ^ (- e)))%float
           else of_N (Z.pos m / 2 ^ (- e))
  | _ => x
  end.

(** [Math.max] and [Math.min] of two arguments: NaN if either is NaN, and
    [+0] counts as larger than [-0]. *)
Definition Math_max (a b : float) : float :=
  if is_nan a || is_nan b then nan
  else if (a <? b)%float then b
  else if (b <? a)%float then a
  else if is_zero a && get_sign a then b else a.

Definition Math_min (a b : float) : float :=
  if is_nan a || is_nan b then nan
  else if (a <? b)%float then a
  else if (b <? a)%float then b
  else if is_zero a && get_sign a then a else b.

Definition Math_abs (x : float) : float := abs x.

(** [Math.PI]. *)
Definition Math_PI : float := 0x1.921fb54442d18p+1%float.

(** [x ?? d] for a field that is either absent (null or undefined) or
    holds a number. *)
Definition nullish (x : option float) (d : float) : float :=
  match x with Some v => v | None => d end.

End Js.

(** ** The HTTP simulation route *)

Record Assumption := {
  a_id : string;
  a_name : string;
  a_mean : option float;
  a_std : option float;
  a_weight : option float;
  a_direction : string;
  a_enabled : bool
}.

Record SimRequest := {
  r_assumptions : list Assumption;
  r_iterations : option float;
  r_threshold : option float;
  r_seed : option float
}.

Inductive Label := LOW | MEDIUM | HIGH.

(** The object handed to [NextResponse.json]; the JSON text of a number
    prints a negative zero as [0]. *)
Record SimResponse := {
  iterations : float;
  probabilitySuccess : float;
  label : Label;
  summary_threshold : float;
  summary_enabledCount : nat
}.

Definition clamp (n min max : float) : float :=
  if is_nan n then min else Js.Math_max min (Js.Math_min max n).

(** Mulberry32.  The closure's captured variable [t] is a number: it starts
    as [seed >>> 0] and grows by [0x6D2B79F5] at each call, without being
    wrapped.  The bitwise operators read it through ToInt32 / ToUint32. *)
Definition mulberry32 (seed : float) : float := Js.of_N (Js.ToUint32 seed).

Definition mulberry32_next (t : float) : float * float :=
  let t := (t + 1831565813)%float in
  let ti := Js.ToInt32 t in
  let x := Js.imul (Js.xor32 ti (Js.shru ti 15)) (Js.or32 1 ti) in
  let x := Js.xor32 x
             (Js.wrap_int32 (x + Js.imul (Js.xor32 x (Js.shru x 7)) (Js.or32 61 x))) in
  ((Js.of_N (Js.wrap_uint32 (Js.xor32 x (Js.shru x 14))) / 4294967296)%float, t).

(** [Math.random]: the engine's sequence of draws and the number of draws
    already made. *)
Record Stream := { draws : N -> float; position : N }.

Definition Math_random_next (s : Stream) : float * Stream :=
  (draws s (position s), {| draws := draws s; position := N.succ (position s) |}).

(** The uniform source chosen by [POST]: the seeded generator or
    [Math.random]. *)
Inductive Rng :=
| Seeded (t : float)
| SystemRandom (s : Stream).

Definition rng (g : Rng) : float * Rng :=
  match g with
  | Seeded t => let (u, t') := mulberry32_next t in (u, Seeded t')
  | SystemRandom s => let (u, s') := Math_random_next s in (u, SystemRandom s')
  end.

(** [u = 0; while (u === 0) u = rng();]: the loop has no bound in the
    source; [fuel] bounds the number of draws and [None] is "still looping". *)
Fixpoint draw_nonzero (fuel : nat) (g : Rng) : option (float * Rng) :=
  match fuel with
  | O => None
  | S fuel' =>
      let (u, g') := rng g in
      if (u =? 0)%float then draw_nonzero fuel' g' else Some (u, g')
  end.

(** ** Data and effects of the MCP serverless function *)

(** Exceptions thrown inside the handler's [try] block. *)
Inductive JsError :=
| ReduceOfEmptyArray
| DestructureUndefined
| ReadPropertyOfUndefined (property : string).

Inductive Outcome (A : Type) :=
| Ok (a : A)
| Throw (e : JsError).
Arguments Ok {A} a.
Arguments Throw {A} e.

(** Code that draws from [Math.random] and may throw: the state of
    [Math.random] is threaded through. *)
Definition M (A : Type) := Stream -> Outcome (A * Stream).

Definition ret {A} (a : A) : M A := fun s => Ok (a, s).
Definition bind {A B} (m : M A) (k : A -> M B) : M B :=
  fun s => match m s with
           | Ok (a, s') => k a s'
           | Throw e => Throw e
           end.
Definition throw {A} (e : JsError) : M A := fun _ => Throw e.

Notation "x <- m ;; k" := (bind m (fun x => k))
  (at level 61, m at next level, right associativity).

Definition Math_random : M float :=
  fun s => Ok (Math_random_next s).

Fixpoint mapM {A B} (f : A -> M B) (l : list A) : M (list B) :=
  match l with
  | [] => ret []
  | x :: l' => y <- f x ;; ys <- mapM f l' ;; ret (y :: ys)
  end.

(** [for (let i = 0; i < n; i++) outcomes.push(...)]. *)
Fixpoint repeatM {A} (n : nat) (m : M A) : M (list A) :=
  match n with
  | O => ret []
  | S n' => y <- m ;; ys <- repeatM n' m ;; ret (y :: ys)
  end.

(** [Array.prototype.sort] with a comparator.  The sort is stable, and an
    element moves behind another only when the comparator is positive on
    them (a NaN result counts as [0]); for a consistent comparator every
    conforming sort returns this list.  When the comparator is not
    consistent (a NaN among numbers) ECMAScript leaves the order to the
    implementation: the result is then only known to be a rearrangement of
    the input, and the theorems that cover such inputs use no more. *)
Fixpoint sort_insert {A} (cmp : A -> A -> float) (x : A) (l : list A) : list A :=
  match l with
  | [] => [x]
  | y :: l' => if (0 <? cmp x y)%float then y :: sort_insert cmp x l' else x :: l
  end.

Definition js_sort {A} (cmp : A -> A -> float) (l : list A) : list A :=
  fold_right (sort_insert cmp) [] l.

(** One entry of the [variables] object.  A field that is absent reads as
    [undefined], which every use below converts to NaN. *)
Record VarConfig := { v_base : float; v_min : float; v_max : float }.

(** [Object.entries(variables)]: the keys are distinct. *)
Definition Variables := list (string * VarConfig).

(** [samples[name]]: the last value stored under [name], NaN in arithmetic
    when nothing was. *)
Fixpoint sample_get (samples : list (string * float)) (name : string) : float :=
  match samples with
  | [] => nan
  | (k, v) :: rest => if String.eqb k name then v else sample_get rest name
  end.

Record Results := {
  mean : float;
  median : float;
  p10 : float;
  p90 : float;
  prob_positive : float
}.

(** The array index denoted by a number that [Math.floor] returned. *)
Definition index_of (i : float) : nat := Z.to_nat (Js.trunc i).

(** [outcomes[i]] for an index computed by [Math.floor]. *)
Definition at_index (outcomes : list float) (i : float) : float :=
  nth (index_of i) outcomes nan.

(** [outcomes.reduce((a, b) => a + b)], without an initial value. *)
Definition reduce_add (outcomes : list float) : M float :=
  match outcomes with
  | [] => throw ReduceOfEmptyArray
  | x :: rest => ret (fold_left PrimFloat.add rest x)
  end.

Definition summarize (outcomes : list float) (n : float) : M Results :=
  total <- reduce_add outcomes ;;
  ret {| mean := (total / n)%float;
         median := at_index outcomes (Js.Math_floor (n / 2));
         p10 := at_index outcomes (Js.Math_floor (n * 0.1));
         p90 := at_index outcomes (Js.Math_floor (n * 0.9));
         prob_positive :=
           (Js.of_N (Z.of_nat (List.length
               (filter (fun x => (0 <? x)%float) outcomes))) / n)%float |}.

Record SensitivityRow := {
  variable : string;
  row_base : float;
  row_min : float;
  row_max : float;
  outcome_at_low : float;
  outcome_at_high : float;
  impact_percent : float
}.

(** [{ ...variables, [name]: config' }]. *)
Definition override (variables : Variables) (name : string) (config' : VarConfig)
  : Variables :=
  map (fun kv => if String.eqb (fst kv) name then (fst kv, config') else kv) variables.

Definition with_base (config : VarConfig) (b : float) : VarConfig :=
  {| v_base := b; v_min := v_min config; v_max := v_max config |}.

Definition by_impact_desc (a b : SensitivityRow) : float :=
  (impact_percent b - impact_percent a)%float.

(** The protocol handler's requests and responses. *)

Record Arguments := { decision_name : string; variables : Variables }.
Record Params := { p_name : string; p_arguments : option Arguments }.
Record McpRequest := {
  req_method : string;
  body_method : string;
  body_params : option Params
}.

(** The values interpolated into the tool's text.  The rendering itself
    ([Math.round], [toLocaleString], [toFixed]) throws on no number and is
    not modelled. *)
Record Summary := {
  s_decision : string;
  s_pessimistic : float;
  s_expected : float;
  s_optimistic : float;
  s_prob_positive : float;
  s_most_sensitive : string;
  s_impact : float
}.

Inductive Body :=
| NoBody
| Healthy
| ToolList
| Content (text : Summary) (isError : bool)
| ErrorOnly (error : string)
| ErrorFlagged (error : JsError) (isError : bool).

Record Response := { status : Z; body : Body }.

(** ** The engines *)

Section Engine.

(** [Math.log] and [Math.cos] of the JavaScript engine. *)
Variable Math_log : float -> float.
Variable Math_cos : float -> float.

(** The Box-Muller expression shared by both engines. *)
Definition box_muller (u v : float) : float :=
  (sqrt (-2 * Math_log u) * Math_cos (2 * Js.Math_PI * v))%float.

Definition randn (fuel : nat) (g : Rng) : option (float * Rng) :=
  match draw_nonzero fuel g with
  | None => None
  | Some (u, g1) =>
      match draw_nonzero fuel g1 with
      | None => None
      | Some (v, g2) => Some (box_muller u v, g2)
      end
  end.

Definition a_sign (a : Assumption) : float :=
  if String.eqb (a_direction a) "negative" then (-1)%float else 1%float.

Definition mean_of (a : Assumption) : float :=
  clamp (Js.nullish (a_mean a) 0) (-1000000) 1000000.
Definition std_of (a : Assumption) : float :=
  clamp (Js.nullish (a_std a) 0) 0 1000000.
Definition weight_of (a : Assumption) : float :=
  clamp (Js.nullish (a_weight a) 1) 0 1000000.

(** The inner loop: [for (const a of enabled) { ... score += ... }]. *)
Fixpoint trial_score (fuel : nat) (enabled : list Assumption) (score : float)
    (g : Rng) : option (float * Rng) :=
  match enabled with
  | [] => Some (score, g)
  | a :: rest =>
      match randn fuel g with
      | None => None
      | Some (z, g') =>
          let sample := (mean_of a + std_of a * z)%float in
          trial_score fuel rest (score + a_sign a * weight_of a * sample)%float g'
      end
  end.

(** The outer loop: [for (let i = 0; i < iterations; i++)].  The counters
    [i] and [success] hold non-negative integers below [2^53], which numbers
    represent exactly; they are kept in [Z].  [dfuel] is the bound handed to
    the sampler's loops, [fuel] bounds the number of passes. *)
Fixpoint sim_loop (dfuel fuel : nat) (iters threshold : float)
    (enabled : list Assumption) (i success : Z) (g : Rng) : option (Z * Rng) :=
  match fuel with
  | O => None
  | S fuel' =>
      if (Js.of_N i <? iters)%float then
        match trial_score dfuel enabled 0%float g with
        | None => None
        | Some (score, g') =>
            sim_loop dfuel fuel' iters threshold enabled (i + 1)
              (if (threshold <? score)%float then success + 1 else success) g'
        end
      else Some (success, g)
  end.

Definition label_of (p : float) : Label :=
  if (p <? 0.33)%float then LOW
  else if (p <? 0.66)%float then MEDIUM else HIGH.

Definition request_iterations (body : SimRequest) : float :=
  clamp (Js.Math_floor (Js.nullish (r_iterations body) 20000)) 1000 300000.
Definition request_threshold (body : SimRequest) : float :=
  clamp (Js.nullish (r_threshold body) 0) (-1000) 1000.
Definition request_enabled (body : SimRequest) : list Assumption :=
  filter a_enabled (r_assumptions body).

(** [random] is the state of [Math.random] when the request arrives. *)
Definition request_rng (body : SimRequest) (random : Stream) : Rng :=
  match r_seed body with
  | Some seed => Seeded (mulberry32 seed)
  | None => SystemRandom random
  end.

Definition POST (fuel : nat) (body : SimRequest) (random : Stream)
  : option SimResponse :=
  let iters := request_iterations body in
  let threshold := request_threshold body in
  let enabled := request_enabled body in
  match sim_loop fuel fuel iters threshold enabled 0 0 (request_rng body random) with
  | None => None
  | Some (success, _) =>
      let p := (Js.of_N success / iters)%float in
      Some {| iterations := iters;
              probabilitySuccess := p;
              label := label_of p;
              summary_threshold := threshold;
              summary_enabledCount := List.length enabled |}
  end.

(** *** The MCP simulation and sensitivity analysis *)

Definition sample_variable (config : VarConfig) : M float :=
  u1 <- Math_random ;;
  u2 <- Math_random ;;
  let z := box_muller u1 u2 in
  let std := ((v_max config - v_min config) / 4)%float in
  ret (Js.Math_max (v_min config)
         (Js.Math_min (v_max config) (v_base config + z * std)%float)).

Fixpoint draw_samples (variables : Variables) (samples : list (string * float))
  : M (list (string * float)) :=
  match variables with
  | [] => ret samples
  | (name, config) :: rest =>
      v <- sample_variable config ;;
      draw_samples rest ((name, v) :: samples)
  end.

(** The hiring decision model. *)
Definition hiring_outcome (samples : list (string * float)) : float :=
  let cost := (sample_get samples "salary"
               * sample_get samples "benefits_multiplier")%float in
  let projects := (20 * sample_get samples "utilization_rate")%float in
  let effective := (projects * 0.75
                    + projects * 0.25 * sample_get samples "ramp_up_discount")%float in
  let revenue := (effective * sample_get samples "project_win_rate"
                  * sample_get samples "avg_project_value")%float in
  (revenue - cost)%float.

Definition trial (variables : Variables) : M float :=
  samples <- draw_samples variables [] ;;
  ret (hiring_outcome samples).

Definition runSimulation (variables : Variables) (n : nat) : M Results :=
  outcomes <- repeatM n (trial variables) ;;
  summarize (js_sort PrimFloat.sub outcomes) (Js.of_N (Z.of_nat n)).

Definition sensitivity_row (variables : Variables) (baseResults : Results)
    (entry : string * VarConfig) : M SensitivityRow :=
  let (name, config) := entry in
  let low := override variables name (with_base config (v_min config)) in
  let high := override variables name (with_base config (v_max config)) in
  resLow <- runSimulation low 5000 ;;
  resHigh <- runSimulation high 5000 ;;
  let impact :=
    Js.Math_abs ((mean resHigh - mean resLow) / mean baseResults * 100)%float in
  ret {| variable := name;
         row_base := v_base config;
         row_min := v_min config;
         row_max := v_max config;
         outcome_at_low := mean resLow;
         outcome_at_high := mean resHigh;
         impact_percent := impact |}.

Definition sensitivity (variables : Variables) (baseResults : Results)
  : M (list SensitivityRow) :=
  rows <- mapM (sensitivity_row variables baseResults) variables ;;
  ret (js_sort by_impact_desc rows).

Definition analyze_decision (args : Arguments) : M Response :=
  results <- runSimulation (variables args) 10000 ;;
  sens <- sensitivity (variables args) results ;;
  match sens with
  | [] => throw (ReadPropertyOfUndefined "variable")
  | top :: _ =>
      ret {| status := 200;
             body := Content
               {| s_decision := decision_name args;
                  s_pessimistic := p10 results;
                  s_expected := median results;
                  s_optimistic := p90 results;
                  s_prob_positive := (prob_positive results * 100)%float;
                  s_most_sensitive := variable top;
                  s_impact := impact_percent top |} false |}
  end.

(** The body of the [try] block. *)
Definition try_block (req : McpRequest) : M Response :=
  if String.eqb (body_method req) "tools/list" then
    ret {| status := 200; body := ToolList |}
  else if String.eqb (body_method req) "tools/call" then
    match body_params req with
    | None => throw DestructureUndefined
    | Some params =>
        if String.eqb (p_name params) "analyze_decision" then
          match p_arguments params with
          | None => throw DestructureUndefined
          | Some args => analyze_decision args
          end
        else ret {| status := 404; body := ErrorOnly "Unknown method" |}
    end
  else ret {| status := 404; body := ErrorOnly "Unknown method" |}.

Definition handler (req : McpRequest) (random : Stream) : Response :=
  if String.eqb (req_method req) "OPTIONS" then {| status := 200; body := NoBody |}
  else if String.eqb (req_method req) "GET" then {| status := 200; body := Healthy |}
  else if String.eqb (req_method req) "POST" then
    match try_block req random with
    | Ok (response, _) => response
    | Throw error => {| status := 500; body := ErrorFlagged error true |}
    end
  else {| status := 405; body := ErrorOnly "Method not allowed" |}.

End Engine.

(** ** Reading numbers through their specification *)

(** The order of the numbers that are not NaN, as an order on integers:
    a finite number is an integer multiple of [2^-1074], and the infinities
    lie beyond every finite number.  Both zeros have key [0]. *)
Definition SFkey (x : spec_float) : Z :=
  match x with
  | S754_zero _ => 0
  | S754_nan => 0
  | S754_infinity s => if s then - 2 ^ 2100 else 2 ^ 2100
  | S754_finite s m e => let v := Z.pos m * 2 ^ (e + 1074) in if s then - v else v
  end.

Definition key (x : float) : Z := SFkey (Prim2SF x).

Definition SFis_nan (x : spec_float) : bool :=
  match x with S754_nan => true | _ => false end.

(** The sign of a number: [None] for NaN. *)
Definition SFsgn (r : spec_float) : option comparison :=
  match r with
  | S754_zero _ => Some Eq
  | S754_nan => None
  | S754_infinity s => Some (if s then Lt else Gt)
  | S754_finite s _ _ => Some (if s then Lt else Gt)
  end.

(** A number that is neither zero nor NaN and has sign [s]. *)
Definition SFsigned (s : bool) (r : spec_float) : Prop :=
  match r with
  | S754_finite s' _ _ => s' = s
  | S754_infinity s' => s' = s
  | _ => False
  end.

(** The number of low bits that rounding to binary64 drops from the
    mantissa [m] at exponent [e]. *)
Definition shr_amount (m e : Z) : Z :=
  Z.max 0 (Z.max (Zdigits2 m + e - 53) (-1074) - e).

(** The result of [binary_round_aux] once the mantissa [m2] has been rounded
    at exponent [e1]: a carry may cost one more bit. *)
Definition rounded (sx : bool) (m2 e1 : Z) : spec_float :=
  match m2 / 2 ^ shr_amount m2 e1 with
  | Z0 => S754_zero sx
  | Zpos m =>
      if e1 + shr_amount m2 e1 <=? 971
      then S754_finite sx m (e1 + shr_amount m2 e1) else S754_infinity sx
  | Zneg _ => S754_nan
  end.

Definition not_nan (x : float) : Prop := is_nan x = false.

(** ** The specification's words *)

Section Specification.

Variable Math_log : float -> float.
Variable Math_cos : float -> float.

(** "contribution = (direction == negative ? -1 : 1) * weight * sample",
    with "sample = mean + std * normal()"; mean, std and weight are the
    request's fields after clamping. *)
Definition contribution (a : Assumption) (z : float) : float :=
  (a_sign a * weight_of a * (mean_of a + std_of a * z))%float.

(** "trial score = sum of contributions", in the order of the list. *)
Fixpoint weighted_sum (enabled : list Assumption) (zs : list float) (acc : float) : float :=
  match enabled, zs with
  | a :: enabled', z :: zs' => weighted_sum enabled' zs' (acc + contribution a z)%float
  | _, _ => acc
  end.

(** [k] fresh standard-normal draws. *)
Fixpoint normals (fuel : nat) (k : nat) (g : Rng) : option (list float * Rng) :=
  match k with
  | O => Some ([], g)
  | S k' =>
      match randn Math_log Math_cos fuel g with
      | None => None
      | Some (z, g') =>
          match normals fuel k' g' with
          | None => None
          | Some (zs, g'') => Some (z :: zs, g'')
          end
      end
  end.

(** The scores of [n] successive trials: each trial draws one fresh normal
    per enabled assumption and sums the contributions from [0]. *)
Fixpoint trial_scores (fuel : nat) (n : nat) (enabled : list Assumption) (g : Rng)
  : option (list float * Rng) :=
  match n with
  | O => Some ([], g)
  | S n' =>
      match normals fuel (List.length enabled) g with
      | None => None
      | Some (zs, g') =>
          match trial_scores fuel n' enabled g' with
          | None => None
          | Some (scores, g'') => Some (weighted_sum enabled zs 0 :: scores, g'')
          end
      end
  end.

(** "count trials where outcome > threshold". *)
Definition successes (threshold : float) (scores : list float) : Z :=
  Z.of_nat (List.length (filter (fun score => (threshold <? score)%float) scores)).

(** The outcomes of the [n] trials of a percentile-mode run, in the order
    they are pushed. *)
Definition trial_outcomes (variables : Variables) (n : nat) (s : Stream) : list float :=
  match repeatM n (trial Math_log Math_cos variables) s with
  | Ok (outcomes, _) => outcomes
  | Throw _ => []
  end.

(** The rows of the sensitivity analysis before they are sorted. *)
Definition unsorted_rows (variables : Variables) (baseResults : Results) (s : Stream)
  : list SensitivityRow :=
  match mapM (sensitivity_row Math_log Math_cos variables baseResults) variables s with
  | Ok (rows, _) => rows
  | Throw _ => []
  end.

End Specification.

(** "p<0.33 -> LOW, p<0.66 -> MEDIUM, else HIGH". *)
Definition label_spec (p : float) (l : Label) : Prop :=
  ((p <? 0.33)%float = true -> l = LOW) /\
  ((0.33 <=? p)%float = true -> (p <? 0.66)%float = true -> l = MEDIUM) /\
  ((0.66 <=? p)%float = true -> l = HIGH).

(** "clamped into [[lo, hi]], with NaN mapped to the range's minimum":
    the value [r] of a field whose raw number is [x]. *)
Definition clamped_into (lo hi x r : float) : Prop :=
  (is_nan x = true -> r = lo) /\
  ((x <? lo)%float = true -> r = lo) /\
  ((hi <? x)%float = true -> r = hi) /\
  ((lo <=? x)%float = true -> (x <=? hi)%float = true -> (r =? x)%float = true).

(** A state of [Math.random] none of whose draws is zero. *)
Definition zero_free (s : Stream) : Prop :=
  forall k, (draws s k =? 0)%float = false.

(** A uniform source whose draws are constant: [Math.random] returning [c]
    forever. *)
Definition constant_stream (c : float) : Stream :=
  {| draws := fun _ => c; position := 0 |}.

(** The three percentile indices of a run of [n] trials are in order and
    inside the array. *)
Definition percentile_indices_ok (n : nat) : bool :=
  let f := Js.of_N (Z.of_nat n) in
  let i10 := index_of (Js.Math_floor (f * 0.1)%float) in
  let i50 := index_of (Js.Math_floor (f / 2)%float) in
  let i90 := index_of (Js.Math_floor (f * 0.9)%float) in
  (i10 <=? i50)%nat && (i50 <=? i90)%nat && (i90 <? n)%nat.

(** Ascending order of numbers, descending order of impact. *)
Definition ascending (l : list float) : Prop :=
  StronglySorted (fun a b => (a <=? b)%float = true) l.

Definition descending_impact (rows : list SensitivityRow) : Prop :=
  StronglySorted
    (fun a b => (impact_percent b <=? impact_percent a)%float = true) rows.

(** Rows of equal impact keep the order they had in [original]. *)
Definition ties_keep_order (original sorted : list SensitivityRow) : Prop :=
  forall r,
    filter (fun a => (impact_percent a =? impact_percent r)%float) sorted
    = filter (fun a => (impact_percent a =? impact_percent r)%float) original.

(** A list sorted by an integer key. *)
Definition key_sorted {A} (K : A -> Z) (l : list A) : Prop :=
  StronglySorted (fun a b => K a <= K b) l.

(** What every row computed for an entry satisfies. *)
Definition row_for (baseResults : Results) (entry : string * VarConfig)
    (row : SensitivityRow) : Prop :=
  variable row = fst entry /\
  row_min row = v_min (snd entry) /\ row_max row = v_max (snd entry) /\
  impact_percent row
  = Js.Math_abs ((outcome_at_high row - outcome_at_low row)
                 / mean baseResults * 100)%float.

(** A state of [Math.random] whose next draw is [0]. *)
Definition zero_first : Stream :=
  {| draws := fun k => if N.eqb k 0 then 0%float else 0.5%float; position := 0 |}.

(** ** Runs on constant draws *)

(** [len] draws further in the sequence. *)
Definition skip (s : Stream) (len : N) : Stream :=
  {| draws := draws s; position := (position s + len)%N |}.

(** The next [len] draws are all [c]. *)
Definition constant_on (s : Stream) (c : float) (len : N) : Prop :=
  forall k, (position s <= k < position s + len)%N -> draws s k = c.

(** The sample of a variable, the samples of a trial and its outcome when
    every normal draw is [z]. *)
Definition sample_with (z : float) (config : VarConfig) : float :=
  Js.Math_max (v_min config)
    (Js.Math_min (v_max config)
       (v_base config + z * ((v_max config - v_min config) / 4))%float).

Fixpoint samples_with (z : float) (variables : Variables)
    (samples : list (string * float)) : list (string * float) :=
  match variables with
  | [] => samples
  | (name, config) :: rest => samples_with z rest ((name, sample_with z config) :: samples)
  end.

Definition outcome_with (z : float) (variables : Variables) : float :=
  hiring_outcome (samples_with z variables []).

(** The statistics of a sorted array of outcomes. *)
Definition summary_of (outcomes : list float) (n : float) : Results :=
  {| mean := (fold_left PrimFloat.add (tl outcomes) (hd nan outcomes) / n)%float;
     median := at_index outcomes (Js.Math_floor (n / 2));
     p10 := at_index outcomes (Js.Math_floor (n * 0.1));
     p90 := at_index outcomes (Js.Math_floor (n * 0.9));
     prob_positive :=
       (Js.of_N (Z.of_nat (List.length
           (filter (fun x => (0 <? x)%float) outcomes))) / n)%float |}.

(** The result of a run of [n] trials whose normal draws are all [z]. *)
Definition run_with (z : float) (variables : Variables) (n : nat) : Results :=
  summary_of (repeat (outcome_with z variables) n) (Js.of_N (Z.of_nat n)).

(** The number of draws a run of [n] trials makes. *)
Definition run_draws (variables : Variables) (n : nat) : N :=
  (N.of_nat n * (2 * N.of_nat (List.length variables)))%N.

(** The sensitivity row of an entry when the low run draws [z1] and the
    high run draws [z2]. *)
Definition row_with (z1 z2 : float) (variables : Variables) (baseResults : Results)
    (entry : string * VarConfig) : SensitivityRow :=
  let (name, config) := entry in
  let resLow :=
    run_with z1 (override variables name (with_base config (v_min config))) 5000 in
  let resHigh :=
    run_with z2 (override variables name (with_base config (v_max config))) 5000 in
  {| variable := name;
     row_base := v_base config;
     row_min := v_min config;
     row_max := v_max config;
     outcome_at_low := mean resLow;
     outcome_at_high := mean resHigh;
     impact_percent :=
       Js.Math_abs ((mean resHigh - mean resLow) / mean baseResults * 100)%float |}.

(** ** Inputs of the examples *)

(** A concrete engine: [ln] by the series of [atanh] on the mantissa, and
    [cos] on [[0, 2 pi]] by its Taylor polynomial after reduction to
    [[0, pi / 2]]; both are accurate to about [1e-9].  The theorems hold for
    every [Math.log] and [Math.cos]; only the examples compute with these. *)
Definition engine_log (u : float) : float :=
  if is_nan u then nan
  else if (u <? 0)%float then nan
  else if (u =? 0)%float then neg_infinity
  else if is_infinity u then infinity
  else
    let (m, e) := frshiftexp u in
    let k := (of_uint63 e - 2101)%float in
    let y := ((m - 1) / (m + 1))%float in
    let y2 := (y * y)%float in
    (k * 0x1.62e42fefa39efp-1
     + 2 * y * (1 + y2 * (1 / 3 + y2 * (1 / 5 + y2 * (1 / 7 + y2 * (1 / 9
         + y2 * (1 / 11 + y2 * (1 / 13 + y2 * (1 / 15)))))))))%float.

Definition engine_cos (x : float) : float :=
  let pi := Js.Math_PI in
  let t := if (x <? pi)%float then x else (2 * pi - x)%float in
  let flip := (pi / 2 <? t)%float in
  let t := if flip then (pi - t)%float else t in
  let t2 := (t * t)%float in
  let c := (1 - t2 / 2 * (1 - t2 / 12 * (1 - t2 / 30 * (1 - t2 / 56 * (1 - t2 / 90
              * (1 - t2 / 132 * (1 - t2 / 182 * (1 - t2 / 240))))))))%float in
  if flip then (- c)%float else c.

Definition assumption (name : string) (mean std weight : float) (direction : string)
    (enabled : bool) : Assumption :=
  {| a_id := name; a_name := name; a_mean := Some mean; a_std := Some std;
     a_weight := Some weight; a_direction := direction; a_enabled := enabled |}.

(** The assumptions the page starts with, the third one switched off. *)
Definition page_assumptions : list Assumption :=
  [ assumption "Customer adoption" 0.8 0.6 1.0 "positive" true;
    assumption "Engineering risk" 0.5 0.7 0.9 "negative" true;
    assumption "Pricing power" 0.4 0.5 0.6 "positive" false ].

Definition seeded_request : SimRequest :=
  {| r_assumptions := page_assumptions;
     r_iterations := Some 1000%float;
     r_threshold := Some 0%float;
     r_seed := Some 42%float |}.

Definition seeded_response : SimResponse :=
  {| iterations := 1000;
     probabilitySuccess := 0.666;
     label := HIGH;
     summary_threshold := 0;
     summary_enabledCount := 2 |}.

(** A request whose numeric fields are all NaN. *)
Definition nan_request : SimRequest :=
  {| r_assumptions :=
       [ {| a_id := "a"; a_name := "a"; a_mean := Some nan; a_std := Some nan;
            a_weight := Some nan; a_direction := "positive"; a_enabled := true |} ];
     r_iterations := Some nan;
     r_threshold := Some nan;
     r_seed := None |}.

Definition config (base min max : float) : VarConfig :=
  {| v_base := base; v_min := min; v_max := max |}.

(** A hiring decision; the benefits multiplier has no spread. *)
Definition hiring : Variables :=
  [ ("benefits_multiplier", config 1.3 1.3 1.3);
    ("salary", config 100000 90000 110000);
    ("utilization_rate", config 0.8 0.7 0.9);
    ("ramp_up_discount", config 0.5 0.4 0.6);
    ("project_win_rate", config 0.5 0.4 0.6);
    ("avg_project_value", config 50000 40000 60000) ]%string.

(** A decision whose variables are not those of the hiring model. *)
Definition pricing : Variables :=
  [ ("price", config 10 5 15); ("demand", config 100 50 150) ]%string.

(** The hiring variables, all pinned at zero. *)
Definition all_zero : Variables :=
  [ ("salary", config 0 0 0);
    ("benefits_multiplier", config 0 0 0);
    ("utilization_rate", config 0 0 0);
    ("ramp_up_discount", config 0 0 0);
    ("project_win_rate", config 0 0 0);
    ("avg_project_value", config 0 0 0) ]%string.

(** A state of [Math.random] whose draws differ: draw [k] is
    [((7919 k + 13) mod 10007 + 1) / 10008], never zero. *)
Definition wandering : Stream :=
  {| draws := fun k => (Js.of_N (Z.of_N ((k * 7919 + 13) mod 10007) + 1) / 10008)%float;
     position := 0 |}.

(** [Math.random] returning [0.5] during the base run of the hiring
    decision (120000 draws), [0.3] during the next run of 5000 trials
    (60000 draws) and [0.6] afterwards. *)
Definition three_phases : Stream :=
  {| draws := fun k => if (k <? 120000)%N then 0.5%float
                       else if (k <? 180000)%N then 0.3%float else 0.6%float;
     position := 0 |}.

(** ** The page that calls the route *)

(** [clampNumber], the page's copy of [clamp]. *)
Definition clampNumber (n min max : float) : float :=
  if is_nan n then min else Js.Math_max min (Js.Math_min max n).

(** [Partial<Assumption>]: the fields a patch carries. *)
Record Patch := {
  patch_id : option string;
  patch_name : option string;
  patch_mean : option float;
  patch_std : option float;
  patch_weight : option float;
  patch_direction : option string;
  patch_enabled : option bool
}.

(** [{ ...a, ...patch }]. *)
Definition spread (a : Assumption) (patch : Patch) : Assumption :=
  {| a_id := match patch_id patch with Some v => v | None => a_id a end;
     a_name := match patch_name patch with Some v => v | None => a_name a end;
     a_mean := match patch_mean patch with Some v => Some v | None => a_mean a end;
     a_std := match patch_std patch with Some v => Some v | None => a_std a end;
     a_weight := match patch_weight patch with Some v => Some v | None => a_weight a end;
     a_direction :=
       match patch_direction patch with Some v => v | None => a_direction a end;
     a_enabled := match patch_enabled patch with Some v => v | None => a_enabled a end |}.

(** The state updaters of the page, as functions of the previous list. *)
Definition update (id : string) (patch : Patch) (prev : list Assumption)
  : list Assumption :=
  map (fun a => if String.eqb (a_id a) id then spread a patch else a) prev.

Definition remove (id : string) (prev : list Assumption) : list Assumption :=
  filter (fun a => negb (String.eqb (a_id a) id)) prev.

(** [addRow]; [uid] is the identifier that [uid()] returned. *)
Definition addRow (uid : string) (prev : list Assumption) : list Assumption :=
  prev ++ [ {| a_id := uid; a_name := "New assumption"; a_mean := Some 0.2%float;
               a_std := Some 0.4%float; a_weight := Some 0.5%float;
               a_direction := "positive"; a_enabled := true |} ].

(** The count the page shows as "Enabled". *)
Definition enabledCount (assumptions : list Assumption) : nat :=
  List.length (filter a_enabled assumptions).

(** The patch of the "On" checkbox. *)
Definition enabled_patch (checked : bool) : Patch :=
  {| patch_id := None; patch_name := None; patch_mean := None; patch_std := None;
     patch_weight := None; patch_direction := None; patch_enabled := Some checked |}.

(** The request that [runSim({ assumptions, iterations, threshold })] posts.
    The page holds finite numbers, which the JSON body carries as they are
    (a negative zero as zero). *)
Definition page_request (assumptions : list Assumption) (iterations threshold : float)
  : SimRequest :=
  {| r_assumptions := assumptions;
     r_iterations := Some iterations;
     r_threshold := Some threshold;
     r_seed := None |}.

(** ** Further data of the MCP function *)

(** The six properties of [samples] that the hiring model reads. *)
Definition hiring_keys : list string :=
  [ "salary"; "benefits_multiplier"; "utilization_rate"; "ramp_up_discount";
    "project_win_rate"; "avg_project_value" ]%string.

(** [variables] has an entry for every property the model reads. *)
Definition has_hiring_keys (variables : Variables) : bool :=
  forallb (fun k => existsb (String.eqb k) (map fst variables)) hiring_keys.

(** The entry of [variables] that a row reports: its key with its [base],
    [min] and [max]. *)
Definition row_entry (row : SensitivityRow) : string * VarConfig :=
  (variable row,
   {| v_base := row_base row; v_min := row_min row; v_max := row_max row |}).

(** A request whose only assumption is switched off, with threshold [-1]. *)
Definition idle_request : SimRequest :=
  {| r_assumptions := [ assumption "Pricing power" 0.4 0.5 0.6 "positive" false ];
     r_iterations := None; r_threshold := Some (-1)%float; r_seed := None |}.

(** A computation that returns, after exactly [d] draws, a value that
    satisfies [P]. *)
Definition draws_exactly {A} (m : M A) (d : N) (P : A -> Prop) : Prop :=
  forall s, exists a, m s = Ok (a, skip s d) /\ P a.

(** * Facts about binary64 arithmetic *)

(** ** Digits and shifts *)

Lemma digits2_pos_bounds (p : positive) :
  2 ^ (Z.pos (digits2_pos p) - 1) <= Z.pos p < 2 ^ Z.pos (digits2_pos p).
Proof.
  induction p as [p IH | p IH |]; simpl digits2_pos.
  - rewrite Pos2Z.inj_succ.
    replace (Z.succ (Z.pos (digits2_pos p)) - 1) with (Z.succ (Z.pos (digits2_pos p) - 1)) by lia.
    rewrite !Z.pow_succ_r by lia. lia.
  - rewrite Pos2Z.inj_succ.
    replace (Z.succ (Z.pos (digits2_pos p)) - 1) with (Z.succ (Z.pos (digits2_pos p) - 1)) by lia.
    rewrite !Z.pow_succ_r by lia. lia.
  - simpl. lia.
Qed.

Lemma Zdigits2_bounds (m : Z) :
  0 < m -> 2 ^ (Zdigits2 m - 1) <= m < 2 ^ Zdigits2 m.
Proof.
  destruct m as [|p|p]; try lia. intros _. apply digits2_pos_bounds.
Qed.

Lemma Zdigits2_nonneg (m : Z) : 0 <= Zdigits2 m.
Proof. destruct m; simpl; lia. Qed.

Lemma Zdigits2_pos (m : Z) : 0 < m -> 0 < Zdigits2 m.
Proof. destruct m; simpl; lia. Qed.

(** digits are monotone *)
Lemma Zdigits2_le_pow (m k : Z) : 0 <= k -> 0 <= m < 2 ^ k -> Zdigits2 m <= k.
Proof.
  intros Hk [Hm Hlt].
  destruct (Z.eq_dec m 0) as [->|Hne]; [simpl; lia|].
  assert (Hp : 0 < m) by lia.
  pose proof (Zdigits2_bounds m Hp) as [Hlo _].
  destruct (Z_le_gt_dec (Zdigits2 m) k) as [|Hgt]; [assumption|exfalso].
  assert (2 ^ k <= 2 ^ (Zdigits2 m - 1)) by (apply Z.pow_le_mono_r; lia).
  lia.
Qed.

Lemma Zdigits2_ge_pow (m k : Z) : 0 <= k -> 2 ^ k <= m -> k < Zdigits2 m.
Proof.
  intros Hk Hle.
  assert (Hp : 0 < m) by (pose proof (Z.pow_pos_nonneg 2 k); lia).
  pose proof (Zdigits2_bounds m Hp) as [_ Hhi].
  destruct (Z_lt_ge_dec k (Zdigits2 m)) as [|Hge]; [assumption|exfalso].
  assert (2 ^ Zdigits2 m <= 2 ^ k) by (apply Z.pow_le_mono_r; lia).
  lia.
Qed.

Lemma iter_xO_spec (p k : positive) : Z.pos (Pos.iter xO p k) = Z.pos p * 2 ^ Z.pos k.
Proof.
  revert p. induction k using Pos.peano_ind; intros p.
  - simpl. lia.
  - rewrite Pos.iter_succ, Pos2Z.inj_succ, Z.pow_succ_r by lia.
    rewrite Pos2Z.inj_xO, IHk. lia.
Qed.

Lemma iter_pos_nat {A} (f : A -> A) (p : positive) (x : A) :
  iter_pos f p x = Nat.iter (Pos.to_nat p) f x.
Proof.
  revert x. induction p as [p IH | p IH |]; intros x; simpl iter_pos.
  - rewrite Pos2Nat.inj_xI. simpl Nat.iter. rewrite !IH.
    replace (Pos.to_nat p + (Pos.to_nat p + 0))%nat with (Pos.to_nat p + Pos.to_nat p)%nat by lia.
    rewrite Nat.iter_add. now rewrite !Nat.iter_swap.
  - rewrite Pos2Nat.inj_xO. simpl Nat.mul. rewrite !IH.
    replace (Pos.to_nat p + (Pos.to_nat p + 0))%nat with (Pos.to_nat p + Pos.to_nat p)%nat by lia.
    now rewrite Nat.iter_add.
  - reflexivity.
Qed.

Lemma shr_1_m (mrs : shr_record) :
  0 <= shr_m mrs -> shr_m (shr_1 mrs) = shr_m mrs / 2.
Proof.
  destruct mrs as [m r s]. cbn [shr_m]. intros Hm.
  destruct m as [|[p|p|]|p]; cbn [shr_1 shr_m]; try lia; try reflexivity.
  - apply Z.div_unique with 1; lia.
  - apply Z.div_unique with 0; lia.
Qed.

Lemma shr_iter_m (n : nat) (mrs : shr_record) :
  0 <= shr_m mrs ->
  shr_m (Nat.iter n shr_1 mrs) = shr_m mrs / 2 ^ Z.of_nat n.
Proof.
  intros Hm. induction n as [|n IH].
  - simpl. now rewrite Z.div_1_r.
  - rewrite Nat2Z.inj_succ, Z.pow_succ_r by lia. simpl Nat.iter.
    rewrite shr_1_m.
    + rewrite IH. rewrite Z.div_div by (try lia; apply Z.pow_pos_nonneg; lia).
      f_equal. lia.
    + rewrite IH. apply Z.div_pos; [lia | apply Z.pow_pos_nonneg; lia].
Qed.

(** The mantissa after [shr] by [n]. *)
Lemma shr_m_spec (mrs : shr_record) (e n : Z) :
  0 <= shr_m mrs ->
  shr_m (fst (shr mrs e n)) = shr_m mrs / 2 ^ Z.max 0 n /\
  snd (shr mrs e n) = e + Z.max 0 n.
Proof.
  intros Hm. destruct n as [|p|p]; simpl.
  - rewrite Z.div_1_r. split; [reflexivity | lia].
  - rewrite iter_pos_nat, shr_iter_m by assumption.
    rewrite positive_nat_Z. split; reflexivity.
  - rewrite Z.div_1_r. split; [reflexivity | lia].
Qed.

Lemma bounded_inv (m : positive) (e : Z) :
  bounded prec emax m e = true ->
  Z.max (Z.pos (digits2_pos m) + e - 53) (-1074) = e /\ e <= 971.
Proof.
  unfold bounded, canonical_mantissa, fexp, SpecFloat.emin, prec, emax.
  rewrite andb_true_iff, Z.eqb_eq, Z.leb_le. intros [H1 H2]. split; [exact H1 | exact H2].
Qed.

Lemma bounded_mantissa (m : positive) (e : Z) :
  bounded prec emax m e = true ->
  -1074 <= e <= 971 /\ Z.pos m < 2 ^ 53 /\ (-1074 < e -> 2 ^ 52 <= Z.pos m).
Proof.
  intros H. apply bounded_inv in H. destruct H as [H1 H2].
  pose proof (digits2_pos_bounds m) as [Hlo Hhi].
  assert (Hd : Z.pos (digits2_pos m) <= 53) by lia.
  split; [lia|]. split.
  - eapply Z.lt_le_trans; [exact Hhi|]. apply Z.pow_le_mono_r; lia.
  - intros He. assert (Z.pos (digits2_pos m) = 53) as Hd53 by lia.
    rewrite Hd53 in Hlo. exact Hlo.
Qed.

Lemma pow2_split (a b : Z) : 0 <= a <= b -> 2 ^ b = 2 ^ a * 2 ^ (b - a).
Proof. intros H. rewrite <- Z.pow_add_r by lia. f_equal. lia. Qed.

Lemma canonical_exp_lt (m1 m2 : positive) (e1 e2 : Z) :
  bounded prec emax m1 e1 = true -> bounded prec emax m2 e2 = true ->
  e1 < e2 ->
  Z.pos m1 * 2 ^ (e1 + 1074) < Z.pos m2 * 2 ^ (e2 + 1074).
Proof.
  intros H1 H2 Hlt.
  apply bounded_mantissa in H1. apply bounded_mantissa in H2.
  destruct H1 as (He1 & Hm1 & _). destruct H2 as (He2 & _ & Hm2).
  specialize (Hm2 ltac:(lia)).
  rewrite (pow2_split (e1 + 1074) (e2 + 1074)) by lia.
  assert (HP : 0 < 2 ^ (e1 + 1074)) by (apply Z.pow_pos_nonneg; lia).
  assert (HQ : 2 ^ 1 <= 2 ^ (e2 + 1074 - (e1 + 1074))) by (apply Z.pow_le_mono_r; lia).
  change (2 ^ 1) with 2 in HQ. change (2 ^ 53) with (2 * 2 ^ 52) in Hm1.
  set (P := 2 ^ (e1 + 1074)) in *. set (Q := 2 ^ (e2 + 1074 - (e1 + 1074))) in *.
  set (c := 2 ^ 52) in *. assert (0 < c) by (subst c; reflexivity).
  apply Z.lt_le_trans with (2 * c * P).
  - apply Z.mul_lt_mono_pos_r; assumption.
  - replace (Z.pos m2 * (P * Q)) with (Z.pos m2 * Q * P) by ring.
    apply Z.mul_le_mono_nonneg_r; [lia|].
    apply Z.le_trans with (c * Q); [lia|].
    apply Z.mul_le_mono_nonneg_r; lia.
Qed.

Lemma finite_key_bounds (s : bool) (m : positive) (e : Z) :
  bounded prec emax m e = true ->
  0 < Z.pos m * 2 ^ (e + 1074) < 2 ^ 2100.
Proof.
  intros H. apply bounded_mantissa in H. destruct H as (He & Hm & _).
  assert (HP : 0 < 2 ^ (e + 1074)) by (apply Z.pow_pos_nonneg; lia).
  split; [lia|].
  assert (2 ^ (e + 1074) <= 2 ^ 2045) by (apply Z.pow_le_mono_r; lia).
  apply Z.lt_le_trans with (2 ^ 53 * 2 ^ 2045).
  - apply Z.le_lt_trans with (Z.pos m * 2 ^ 2045).
    + apply Z.mul_le_mono_nonneg_l; lia.
    + apply Z.mul_lt_mono_pos_r; [apply Z.pow_pos_nonneg; lia | exact Hm].
  - rewrite <- Z.pow_add_r by lia. apply Z.pow_le_mono_r; lia.
Qed.

Lemma pow2100_pos : 0 < 2 ^ 2100.
Proof. apply Z.pow_pos_nonneg; lia. Qed.

Ltac solve_compare :=
  symmetry;
  first [ apply Z.compare_eq_iff; lia
        | apply Z.compare_lt_iff; lia
        | apply Z.compare_gt_iff; lia ].

Lemma SFcompare_finite (sx sy : bool) (mx my : positive) (ex ey : Z) :
  bounded prec emax mx ex = true -> bounded prec emax my ey = true ->
  SFcompare (S754_finite sx mx ex) (S754_finite sy my ey)
  = Some (SFkey (S754_finite sx mx ex) ?= SFkey (S754_finite sy my ey)).
Proof.
  intros Vx Vy. cbn [SFcompare SFkey]. f_equal.
  pose proof (finite_key_bounds sx mx ex Vx) as Bx.
  pose proof (finite_key_bounds sy my ey Vy) as By.
  assert (Hsame : match ex ?= ey with
                  | Eq => Pos.compare_cont Eq mx my
                  | Lt => Lt
                  | Gt => Gt
                  end = (Z.pos mx * 2 ^ (ex + 1074) ?= Z.pos my * 2 ^ (ey + 1074))).
  { destruct (Z.compare_spec ex ey) as [Heq | Hlt | Hgt].
    - subst ey. rewrite Pos.compare_cont_spec. cbn [Pos.switch_Eq].
      change (Pos.compare mx my) with (Z.compare (Z.pos mx) (Z.pos my)).
      assert (HP : 0 < 2 ^ (ex + 1074)) by lia.
      destruct (Z.compare_spec (Z.pos mx) (Z.pos my)) as [E|L|G]; symmetry.
      + apply Z.compare_eq_iff. rewrite E. reflexivity.
      + apply Z.compare_lt_iff. apply Z.mul_lt_mono_pos_r; assumption.
      + apply Z.compare_gt_iff. apply Z.mul_lt_mono_pos_r; assumption.
    - pose proof (canonical_exp_lt mx my ex ey Vx Vy Hlt). solve_compare.
    - pose proof (canonical_exp_lt my mx ey ex Vy Vx Hgt). solve_compare. }
  destruct sx, sy.
  - rewrite Z.compare_opp.
    rewrite (Z.compare_antisym (Z.pos mx * 2 ^ (ex + 1074))), <- Hsame.
    destruct (ex ?= ey); reflexivity.
  - solve_compare.
  - solve_compare.
  - exact Hsame.
Qed.

Lemma SFcompare_key (x y : spec_float) :
  valid_binary x = true -> valid_binary y = true ->
  SFis_nan x = false -> SFis_nan y = false ->
  SFcompare x y = Some (SFkey x ?= SFkey y).
Proof.
  pose proof pow2100_pos as HI.
  destruct x as [sx|sx| |sx mx ex]; destruct y as [sy|sy| |sy my ey];
    cbn [valid_binary SFis_nan]; intros Vx Vy Nx Ny; try discriminate;
    try (apply SFcompare_finite; assumption);
    try pose proof (finite_key_bounds sx mx ex Vx);
    try pose proof (finite_key_bounds sy my ey Vy);
    cbn [SFcompare SFkey]; f_equal;
    try destruct sx; try destruct sy; solve_compare.
Qed.

Lemma shr_record_of_loc_m (m : Z) (l : location) : shr_m (shr_record_of_loc m l) = m.
Proof. destruct l as [|[]]; reflexivity. Qed.

Lemma loc_of_shr_record_of_loc (m : Z) (l : location) :
  loc_of_shr_record (shr_record_of_loc m l) = l.
Proof. destruct l as [|[]]; reflexivity. Qed.

Lemma shr_iter_exact (n : nat) (m : Z) :
  0 <= m -> m mod 2 ^ Z.of_nat n = 0 ->
  Nat.iter n shr_1 (Build_shr_record m false false)
  = Build_shr_record (m / 2 ^ Z.of_nat n) false false.
Proof.
  intros Hm. induction n as [|n IH]; intros Hmod.
  - simpl. now rewrite Z.div_1_r.
  - rewrite Nat2Z.inj_succ, Z.pow_succ_r in * by lia.
    assert (Hpow : 0 < 2 ^ Z.of_nat n) by (apply Z.pow_pos_nonneg; lia).
    apply Z.mod_divide in Hmod; [|lia]. destruct Hmod as [c Hc].
    assert (Hdiv : m / 2 ^ Z.of_nat n = 2 * c).
    { subst m. replace (c * (2 * 2 ^ Z.of_nat n)) with (2 * c * 2 ^ Z.of_nat n) by ring.
      apply Z.div_mul. lia. }
    simpl Nat.iter. rewrite IH.
    + rewrite Hdiv.
      replace (m / (2 * 2 ^ Z.of_nat n)) with c.
      * assert (0 <= c) by nia.
        destruct c as [|c|c]; [reflexivity | reflexivity | lia].
      * subst m. symmetry. apply Z.div_mul. lia.
    + apply Z.mod_divide; [lia|]. exists (2 * c). lia.
Qed.

Lemma shr_exact (m e n : Z) :
  0 <= m -> m mod 2 ^ Z.max 0 n = 0 ->
  fst (shr (Build_shr_record m false false) e n)
  = Build_shr_record (m / 2 ^ Z.max 0 n) false false.
Proof.
  intros Hm Hmod. destruct n as [|p|p]; cbn [shr fst].
  - cbn [Z.max Z.compare]. now rewrite Z.div_1_r.
  - rewrite iter_pos_nat.
    replace (Z.max 0 (Z.pos p)) with (Z.of_nat (Pos.to_nat p)) in * by lia.
    now apply shr_iter_exact.
  - replace (Z.max 0 (Z.neg p)) with 0 by lia. now rewrite Z.div_1_r.
Qed.

Lemma shr_fexp_spec (m e : Z) (l : location) :
  0 <= m ->
  shr_m (fst (shr_fexp prec emax m e l)) = m / 2 ^ shr_amount m e /\
  snd (shr_fexp prec emax m e l) = e + shr_amount m e.
Proof.
  intros Hm. unfold shr_fexp, shr_amount, fexp, SpecFloat.emin, prec, emax.
  pose proof (shr_m_spec (shr_record_of_loc m l) e
               (Z.max (Zdigits2 m + e - 53) (3 - 1024 - 53) - e)) as H.
  rewrite shr_record_of_loc_m in H. specialize (H Hm).
  exact H.
Qed.

Lemma shr_fexp_exact (m e : Z) :
  0 <= m -> m mod 2 ^ shr_amount m e = 0 ->
  loc_of_shr_record (fst (shr_fexp prec emax m e loc_Exact)) = loc_Exact.
Proof.
  intros Hm Hmod. unfold shr_fexp, shr_amount, fexp, SpecFloat.emin, prec, emax in *.
  cbn [shr_record_of_loc]. rewrite shr_exact by assumption. reflexivity.
Qed.

Lemma shr_fexp_no_shift (m e : Z) (l : location) :
  shr_amount m e = 0 ->
  shr_fexp prec emax m e l = (shr_record_of_loc m l, e).
Proof.
  unfold shr_fexp, shr_amount, fexp, SpecFloat.emin, prec, emax.
  intros H.
  destruct (Z.max (Zdigits2 m + e - 53) (3 - 1024 - 53) - e) as [|p|p] eqn:E;
    cbn [shr]; try reflexivity.
  change (3 - 1024 - 53) with (-1074) in E. lia.
Qed.

Lemma round_nearest_even_bounds (m : Z) (l : location) :
  m <= round_nearest_even m l <= m + 1.
Proof.
  destruct l as [|[]]; cbn [round_nearest_even]; try lia.
  destruct (Z.even m); lia.
Qed.

Lemma binary_round_aux_spec (sx : bool) (mx ex : Z) (lx : location) :
  0 <= mx ->
  exists m2,
    mx / 2 ^ shr_amount mx ex <= m2 <= mx / 2 ^ shr_amount mx ex + 1 /\
    (lx = loc_Exact -> mx mod 2 ^ shr_amount mx ex = 0 ->
     m2 = mx / 2 ^ shr_amount mx ex) /\
    binary_round_aux prec emax sx mx ex lx = rounded sx m2 (ex + shr_amount mx ex).
Proof.
  intros Hm. unfold binary_round_aux.
  pose proof (shr_fexp_spec mx ex lx Hm) as [Hm1 He1].
  destruct (shr_fexp prec emax mx ex lx) as [mrs1 e1] eqn:E1.
  cbn [fst snd] in Hm1, He1.
  set (m2 := round_nearest_even (shr_m mrs1) (loc_of_shr_record mrs1)).
  assert (Hb : shr_m mrs1 <= m2 <= shr_m mrs1 + 1) by apply round_nearest_even_bounds.
  assert (Hm1pos : 0 <= shr_m mrs1).
  { rewrite Hm1. apply Z.div_pos; [lia | apply Z.pow_pos_nonneg; unfold shr_amount; lia]. }
  assert (Hm2 : 0 <= m2) by lia.
  pose proof (shr_fexp_spec m2 e1 loc_Exact Hm2) as [Hm3 He3].
  destruct (shr_fexp prec emax m2 e1 loc_Exact) as [mrs2 e2] eqn:E2.
  cbn [fst snd] in Hm3, He3.
  exists m2. rewrite <- Hm1. split; [exact Hb|]. split.
  - intros -> Hmod. subst m2.
    pose proof (shr_fexp_exact mx ex Hm Hmod) as Hloc.
    rewrite E1 in Hloc. cbn [fst] in Hloc. rewrite Hloc. reflexivity.
  - unfold rounded. rewrite <- He1, <- Hm3, <- He3.
    change (Z.sub emax prec) with 971. reflexivity.
Qed.

Lemma div_pow2_ge_1 (m n : Z) : 0 < m -> 0 <= n < Zdigits2 m -> 1 <= m / 2 ^ n.
Proof.
  intros Hm [Hn Hlt].
  pose proof (Zdigits2_bounds m Hm) as [Hlo _].
  assert (2 ^ n <= 2 ^ (Zdigits2 m - 1)) by (apply Z.pow_le_mono_r; lia).
  apply Z.div_le_lower_bound; [apply Z.pow_pos_nonneg; lia | lia].
Qed.

Lemma shr_amount_lt_digits (m e : Z) :
  0 < m -> -1074 <= e -> 0 <= shr_amount m e < Zdigits2 m.
Proof.
  intros Hm He. pose proof (Zdigits2_pos m Hm). unfold shr_amount. lia.
Qed.

Lemma rounded_signed (sx : bool) (m2 e1 : Z) :
  0 < m2 -> -1074 <= e1 -> SFsigned sx (rounded sx m2 e1).
Proof.
  intros Hm He. unfold rounded.
  pose proof (shr_amount_lt_digits m2 e1 Hm He) as Hn.
  pose proof (div_pow2_ge_1 m2 _ Hm Hn) as H1.
  destruct (m2 / 2 ^ shr_amount m2 e1) as [|p|p]; try lia.
  destruct (e1 + shr_amount m2 e1 <=? 971); reflexivity.
Qed.

Lemma binary_round_aux_signed (sx : bool) (mx ex : Z) (lx : location) :
  0 < mx -> -1074 <= ex -> SFsigned sx (binary_round_aux prec emax sx mx ex lx).
Proof.
  intros Hm He.
  destruct (binary_round_aux_spec sx mx ex lx ltac:(lia)) as (m2 & Hb & _ & ->).
  pose proof (shr_amount_lt_digits mx ex Hm He) as Hn.
  pose proof (div_pow2_ge_1 mx _ Hm Hn) as H1.
  apply rounded_signed; lia.
Qed.

Lemma shl_align_value (mx : positive) (ex ez : Z) :
  ez <= ex ->
  Z.pos (fst (shl_align mx ex ez)) = Z.pos mx * 2 ^ (ex - ez) /\
  snd (shl_align mx ex ez) = ez.
Proof.
  intros H. unfold shl_align.
  destruct (ez - ex) as [|d|d] eqn:E; cbn [fst snd].
  - replace (ex - ez) with 0 by lia. split; lia.
  - lia.
  - rewrite iter_xO_spec. replace (ex - ez) with (Z.pos d) by lia. split; [reflexivity | lia].
Qed.

Lemma shl_align_exp (mx : positive) (ex ez : Z) :
  snd (shl_align mx ex ez) = Z.min ex ez.
Proof.
  unfold shl_align. destruct (ez - ex) as [|d|d] eqn:E; cbn [snd]; lia.
Qed.

Lemma binary_round_signed (sx : bool) (mx : positive) (ex : Z) :
  -1074 <= ex -> SFsigned sx (binary_round prec emax sx mx ex).
Proof.
  intros He. unfold binary_round.
  pose proof (shl_align_exp mx ex (fexp prec emax (Z.pos (digits2_pos mx) + ex))) as Hs.
  destruct (shl_align mx ex (fexp prec emax (Z.pos (digits2_pos mx) + ex))) as [mz ez].
  cbn [snd] in Hs.
  apply binary_round_aux_signed; [lia|].
  unfold fexp, SpecFloat.emin, prec, emax in Hs. lia.
Qed.

Lemma SFsigned_sgn (s : bool) (r : spec_float) :
  SFsigned s r -> SFsgn r = Some (if s then Lt else Gt).
Proof. destruct r; cbn; intros H; try contradiction; subst; reflexivity. Qed.

Lemma aligned_key (s : bool) (m : positive) (e ez : Z) :
  -1074 <= ez <= e ->
  cond_Zopp s (Z.pos (fst (shl_align m e ez))) * 2 ^ (ez + 1074)
  = SFkey (S754_finite s m e).
Proof.
  intros H. destruct (shl_align_value m e ez ltac:(lia)) as [-> _].
  cbn [SFkey]. rewrite (pow2_split (ez + 1074) (e + 1074)) by lia.
  replace (e + 1074 - (ez + 1074)) with (e - ez) by lia.
  destruct s; cbn [cond_Zopp]; ring.
Qed.

Lemma binary_normalize_sgn (m e : Z) :
  -1074 <= e ->
  SFsgn (binary_normalize prec emax m e false) = Some (m ?= 0).
Proof.
  intros He. destruct m as [|p|p]; cbn [binary_normalize].
  - reflexivity.
  - apply (SFsigned_sgn false), binary_round_signed, He.
  - apply (SFsigned_sgn true), binary_round_signed, He.
Qed.

Lemma SFsub_finite_sgn (sx sy : bool) (mx my : positive) (ex ey : Z) :
  bounded prec emax mx ex = true -> bounded prec emax my ey = true ->
  SFsgn (SFsub prec emax (S754_finite sx mx ex) (S754_finite sy my ey))
  = Some (SFkey (S754_finite sx mx ex) ?= SFkey (S754_finite sy my ey)).
Proof.
  intros Vx Vy. cbn [SFsub].
  pose proof (bounded_mantissa mx ex Vx) as (Hex & _).
  pose proof (bounded_mantissa my ey Vy) as (Hey & _).
  rewrite binary_normalize_sgn by lia. f_equal.
  rewrite <- (aligned_key sx mx ex (Z.min ex ey)) by lia.
  rewrite <- (aligned_key sy my ey (Z.min ex ey)) by lia.
  set (a := cond_Zopp sx _). set (b := cond_Zopp sy _).
  assert (HP : 0 < 2 ^ (Z.min ex ey + 1074)) by (apply Z.pow_pos_nonneg; lia).
  set (P := 2 ^ (Z.min ex ey + 1074)) in *.
  destruct (Z.compare_spec (a - b) 0) as [E|L|G]; symmetry.
  - apply Z.compare_eq_iff. f_equal. lia.
  - apply Z.compare_lt_iff. apply Z.mul_lt_mono_pos_r; lia.
  - apply Z.compare_gt_iff. apply Z.mul_lt_mono_pos_r; lia.
Qed.

Lemma SFsub_sgn (x y : spec_float) :
  valid_binary x = true -> valid_binary y = true ->
  SFis_nan x = false -> SFis_nan y = false ->
  (SFsub prec emax x y = S754_nan /\ SFkey x = SFkey y) \/
  SFsgn (SFsub prec emax x y) = Some (SFkey x ?= SFkey y).
Proof.
  pose proof pow2100_pos as HI.
  destruct x as [sx|sx| |sx mx ex]; destruct y as [sy|sy| |sy my ey];
    cbn [valid_binary SFis_nan]; intros Vx Vy Nx Ny; try discriminate;
    try (right; apply SFsub_finite_sgn; assumption);
    try pose proof (finite_key_bounds sx mx ex Vx);
    try pose proof (finite_key_bounds sy my ey Vy).
  - right. destruct sx, sy; reflexivity.
  - right. cbn [SFsub SFsgn SFkey]. f_equal. destruct sy; cbn [negb]; solve_compare.
  - right. cbn [SFsub SFsgn SFkey]. f_equal. destruct sy; cbn [negb]; solve_compare.
  - right. cbn [SFsub SFsgn SFkey]. f_equal. destruct sx; solve_compare.
  - destruct sx, sy; cbn [SFsub SFsgn SFkey];
      try (left; split; reflexivity); right; f_equal; solve_compare.
  - right. cbn [SFsub SFsgn SFkey]. f_equal. destruct sx, sy; solve_compare.
  - right. cbn [SFsub SFsgn SFkey]. f_equal. destruct sx; solve_compare.
  - right. cbn [SFsub SFsgn SFkey]. f_equal. destruct sx, sy; cbn [negb]; solve_compare.
Qed.

(** ** Primitive floats through their specification *)

Lemma SFcompare_refl (x : spec_float) :
  SFis_nan x = false -> SFcompare x x = Some Eq.
Proof.
  destruct x as [s|s| |s m e]; cbn; intros H; try discriminate; try reflexivity.
  - destruct s; reflexivity.
  - rewrite Z.compare_refl, Pos.compare_cont_refl. destruct s; reflexivity.
Qed.

Lemma is_nan_spec (x : float) : is_nan x = SFis_nan (Prim2SF x).
Proof.
  unfold is_nan. rewrite eqb_spec. unfold SFeqb.
  destruct (SFis_nan (Prim2SF x)) eqn:E.
  - destruct (Prim2SF x); try discriminate. reflexivity.
  - rewrite SFcompare_refl by assumption. reflexivity.
Qed.

Lemma compare_key (x y : float) :
  is_nan x = false -> is_nan y = false ->
  SFcompare (Prim2SF x) (Prim2SF y) = Some (key x ?= key y).
Proof.
  rewrite !is_nan_spec. intros Hx Hy.
  apply SFcompare_key; auto using Prim2SF_valid.
Qed.

Lemma ltb_key (x y : float) :
  is_nan x = false -> is_nan y = false -> (x <? y)%float = (key x <? key y).
Proof.
  intros Hx Hy. rewrite ltb_spec. unfold SFltb. rewrite compare_key by assumption.
  unfold Z.ltb. destruct (key x ?= key y); reflexivity.
Qed.

Lemma leb_key (x y : float) :
  is_nan x = false -> is_nan y = false -> (x <=? y)%float = (key x <=? key y).
Proof.
  intros Hx Hy. rewrite leb_spec. unfold SFleb. rewrite compare_key by assumption.
  unfold Z.leb. destruct (key x ?= key y); reflexivity.
Qed.

Lemma eqb_key (x y : float) :
  is_nan x = false -> is_nan y = false -> (x =? y)%float = (key x =? key y).
Proof.
  intros Hx Hy. rewrite eqb_spec. unfold SFeqb. rewrite compare_key by assumption.
  rewrite Z.eqb_compare. destruct (key x ?= key y); reflexivity.
Qed.

Lemma ltb_nan_l (x y : float) : is_nan x = true -> (x <? y)%float = false.
Proof.
  rewrite is_nan_spec, ltb_spec. destruct (Prim2SF x); try discriminate. reflexivity.
Qed.

Lemma ltb_nan_r (x y : float) : is_nan y = true -> (x <? y)%float = false.
Proof.
  rewrite is_nan_spec, ltb_spec. destruct (Prim2SF y); try discriminate.
  intros _. destruct (Prim2SF x); reflexivity.
Qed.

Lemma leb_nan_l (x y : float) : is_nan x = true -> (x <=? y)%float = false.
Proof.
  rewrite is_nan_spec, leb_spec. destruct (Prim2SF x); try discriminate. reflexivity.
Qed.

Lemma leb_nan_r (x y : float) : is_nan y = true -> (x <=? y)%float = false.
Proof.
  rewrite is_nan_spec, leb_spec. destruct (Prim2SF y); try discriminate.
  intros _. destruct (Prim2SF x); reflexivity.
Qed.

(** The comparator [(a, b) => a - b]: positive exactly when [b < a]. *)
Lemma sub_pos (a b : float) :
  is_nan a = false -> is_nan b = false ->
  (0 <? a - b)%float = (b <? a)%float.
Proof.
  intros Ha Hb. rewrite (ltb_key b a) by assumption.
  rewrite ltb_spec, sub_spec. unfold SFltb.
  rewrite is_nan_spec in Ha, Hb.
  destruct (SFsub_sgn (Prim2SF a) (Prim2SF b)
              (Prim2SF_valid a) (Prim2SF_valid b) Ha Hb) as [[E K] | S].
  - unfold SF64sub. rewrite E. unfold key. rewrite K.
    rewrite Z.ltb_irrefl. reflexivity.
  - unfold SF64sub, key. unfold Z.ltb. rewrite (Z.compare_antisym (SFkey (Prim2SF a))).
    destruct (SFsub prec emax (Prim2SF a) (Prim2SF b)) as [s|s| |s m e];
      cbn [SFsgn] in S; try discriminate; injection S as S; rewrite <- S.
    + reflexivity.
    + destruct s; reflexivity.
    + destruct s; reflexivity.
Qed.

Lemma Zdigits2_eq (m k : Z) : 0 < k -> 2 ^ (k - 1) <= m < 2 ^ k -> Zdigits2 m = k.
Proof.
  intros Hk [Hlo Hhi].
  pose proof (Zdigits2_le_pow m k ltac:(lia)) as H1.
  pose proof (Zdigits2_ge_pow m (k - 1) ltac:(lia) Hlo) as H2.
  assert (0 < 2 ^ (k - 1)) by (apply Z.pow_pos_nonneg; lia).
  lia.
Qed.

Lemma rounded_normal (sx : bool) (m : positive) (e : Z) :
  2 ^ 52 <= Z.pos m < 2 ^ 53 -> -1074 <= e <= 971 ->
  rounded sx (Z.pos m) e = S754_finite sx m e.
Proof.
  intros Hm He. unfold rounded, shr_amount.
  rewrite (Zdigits2_eq (Z.pos m) 53) by (try lia; exact Hm).
  replace (Z.max 0 (Z.max (53 + e - 53) (-1074) - e)) with 0 by lia.
  rewrite Z.div_1_r, Z.add_0_r.
  destruct (Z.leb_spec e 971); [reflexivity | lia].
Qed.

Lemma binary_round_aux_normal (sx : bool) (m : positive) (e : Z) :
  2 ^ 52 <= Z.pos m < 2 ^ 53 -> -1074 <= e <= 971 ->
  binary_round_aux prec emax sx (Z.pos m) e loc_Exact = S754_finite sx m e.
Proof.
  intros Hm He.
  destruct (binary_round_aux_spec sx (Z.pos m) e loc_Exact ltac:(lia)) as (m2 & _ & Hex & ->).
  assert (Hs : shr_amount (Z.pos m) e = 0).
  { unfold shr_amount. rewrite (Zdigits2_eq (Z.pos m) 53) by (try lia; exact Hm). lia. }
  rewrite Hs in *. rewrite Z.div_1_r in Hex. rewrite Z.add_0_r.
  rewrite Hex; [| reflexivity | apply Z.mod_1_r].
  apply rounded_normal; assumption.
Qed.

(** An integer below [2^53] converts exactly. *)
Lemma binary_round_int (p : positive) :
  Z.pos p < 2 ^ 53 ->
  exists m e, binary_round prec emax false p 0 = S754_finite false m e /\
              -1074 <= e /\ Z.pos m * 2 ^ (e + 1074) = Z.pos p * 2 ^ 1074.
Proof.
  intros Hp. unfold binary_round.
  pose proof (digits2_pos_bounds p) as [Hlo Hhi].
  set (d := Z.pos (digits2_pos p)) in *.
  assert (Hd : 1 <= d <= 53).
  { split; [subst d; lia|].
    destruct (Z_le_gt_dec d 53) as [|Hgt]; [assumption|exfalso].
    assert (2 ^ 53 <= 2 ^ (d - 1)) by (apply Z.pow_le_mono_r; lia). lia. }
  assert (Hf : fexp prec emax (d + 0) = d - 53).
  { unfold fexp, SpecFloat.emin, prec, emax. lia. }
  rewrite Hf.
  destruct (shl_align_value p 0 (d - 53) ltac:(lia)) as [Hv He].
  destruct (shl_align p 0 (d - 53)) as [mz ez]. cbn [fst snd] in Hv, He. subst ez.
  replace (0 - (d - 53)) with (53 - d) in Hv by lia.
  assert (Hmz : 2 ^ 52 <= Z.pos mz < 2 ^ 53).
  { rewrite Hv. split.
    - rewrite (pow2_split (d - 1) 52) by lia.
      replace (52 - (d - 1)) with (53 - d) by lia.
      apply Z.mul_le_mono_nonneg_r; [apply Z.pow_nonneg; lia | exact Hlo].
    - rewrite (pow2_split d 53) by lia.
      apply Z.mul_lt_mono_pos_r; [apply Z.pow_pos_nonneg; lia | exact Hhi]. }
  rewrite binary_round_aux_normal by (try assumption; lia).
  exists mz, (d - 53). split; [reflexivity|]. split; [lia|].
  rewrite Hv. rewrite (pow2_split (53 - d) 1074) by lia.
  replace (1074 - (53 - d)) with (d - 53 + 1074) by lia. ring.
Qed.

Lemma of_N_zero : Prim2SF (Js.of_N 0) = S754_zero false.
Proof. reflexivity. Qed.

Lemma of_N_spec (z : Z) :
  0 < z < 2 ^ 53 ->
  exists m e, Prim2SF (Js.of_N z) = S754_finite false m e /\
              -1074 <= e /\ Z.pos m * 2 ^ (e + 1074) = z * 2 ^ 1074.
Proof.
  intros Hz. unfold Js.of_N. rewrite of_uint63_spec.
  change Uint63Axioms.to_Z with Uint63.to_Z.
  rewrite Uint63.of_Z_spec.
  rewrite Z.mod_small by (split; [lia|]; apply Z.lt_trans with (2 ^ 53); [lia | reflexivity]).
  destruct z as [|p|p]; try lia.
  cbn [binary_normalize]. apply binary_round_int. lia.
Qed.

Lemma of_N_key (z : Z) : 0 <= z < 2 ^ 53 -> key (Js.of_N z) = z * 2 ^ 1074.
Proof.
  intros Hz. destruct (Z.eq_dec z 0) as [->|Hne].
  - reflexivity.
  - destruct (of_N_spec z ltac:(lia)) as (m & e & E & _ & K).
    unfold key. rewrite E. exact K.
Qed.

Lemma of_N_not_nan (z : Z) : 0 <= z < 2 ^ 53 -> is_nan (Js.of_N z) = false.
Proof.
  intros Hz. rewrite is_nan_spec. destruct (Z.eq_dec z 0) as [->|Hne].
  - reflexivity.
  - destruct (of_N_spec z ltac:(lia)) as (m & e & E & _). rewrite E. reflexivity.
Qed.

Lemma new_location_exact (n : Z) : new_location n 0 = loc_Exact.
Proof.
  unfold new_location, new_location_even, new_location_odd.
  destruct (Z.even n); reflexivity.
Qed.

(** The quotient computed by the division core, for [x <= y]. *)
Lemma SFdiv_core_le (mx my : positive) (ex ey : Z) :
  bounded prec emax mx ex = true -> bounded prec emax my ey = true ->
  Z.pos mx * 2 ^ (ex + 1074) <= Z.pos my * 2 ^ (ey + 1074) ->
  exists q k l,
    SFdiv_core_binary prec emax (Z.pos mx) ex (Z.pos my) ey = (q, - k, l) /\
    53 <= k /\ 0 <= q <= 2 ^ k /\ (q = 2 ^ k -> l = loc_Exact).
Proof.
  intros Vx Vy Hle.
  pose proof (bounded_mantissa mx ex Vx) as (Hex & _).
  pose proof (bounded_mantissa my ey Vy) as (Hey & _).
  unfold SFdiv_core_binary. cbn [Zdigits2].
  pose proof (digits2_pos_bounds mx) as [Hlox _].
  pose proof (digits2_pos_bounds my) as [_ Hhiy].
  set (d1 := Z.pos (digits2_pos mx)) in *. set (d2 := Z.pos (digits2_pos my)) in *.
  assert (Hd1 : 1 <= d1) by (subst d1; lia).
  assert (Hd2 : 1 <= d2) by (subst d2; lia).
  (* the magnitude of x is at most that of y *)
  assert (Hmag : d1 + ex - (d2 + ey) <= 0).
  { destruct (Z_le_gt_dec (d1 + ex) (d2 + ey)) as [|Hgt]; [lia|exfalso].
    assert (H1 : 2 ^ (d1 - 1 + (ex + 1074)) <= Z.pos mx * 2 ^ (ex + 1074)).
    { rewrite (Z.pow_add_r 2 (d1 - 1) (ex + 1074)) by lia. apply Z.mul_le_mono_nonneg_r; [apply Z.pow_nonneg; lia | exact Hlox]. }
    assert (H2 : Z.pos my * 2 ^ (ey + 1074) < 2 ^ (d2 + (ey + 1074))).
    { rewrite (Z.pow_add_r 2 d2 (ey + 1074)) by lia. apply Z.mul_lt_mono_pos_r; [apply Z.pow_pos_nonneg; lia | exact Hhiy]. }
    assert (2 ^ (d2 + (ey + 1074)) <= 2 ^ (d1 - 1 + (ex + 1074))) by (apply Z.pow_le_mono_r; lia).
    lia. }
  set (e' := Z.min (fexp prec emax (d1 + ex - (d2 + ey))) (ex - ey)).
  assert (He' : e' <= -53 /\ e' <= ex - ey).
  { subst e'. unfold fexp, SpecFloat.emin, prec, emax. lia. }
  set (k := - e').
  assert (Hs : 0 <= ex - ey - e') by lia.
  set (m' := match ex - ey - e' with
             | 0 => Z.pos mx
             | Z.pos _ => Z.shiftl (Z.pos mx) (ex - ey - e')
             | Z.neg _ => 0
             end).
  assert (Hm' : m' = Z.pos mx * 2 ^ (ex - ey - e')).
  { subst m'. destruct (ex - ey - e') as [|p|p] eqn:E.
    - simpl. lia.
    - rewrite Z.shiftl_mul_pow2 by lia. reflexivity.
    - lia. }
  (* m' <= my * 2^k *)
  assert (Hbound : m' <= Z.pos my * 2 ^ k).
  { rewrite Hm'. subst k.
    assert (HP : 0 < 2 ^ (ey + 1074)) by (apply Z.pow_pos_nonneg; lia).
    apply Z.mul_le_mono_pos_r with (2 ^ (ey + 1074)); [exact HP|].
    assert (E1 : 2 ^ (ex - ey - e') * 2 ^ (ey + 1074) = 2 ^ (ex + 1074) * 2 ^ (- e')).
    { rewrite <- !Z.pow_add_r by lia. f_equal. lia. }
    replace (Z.pos mx * 2 ^ (ex - ey - e') * 2 ^ (ey + 1074))
      with (Z.pos mx * 2 ^ (ex + 1074) * 2 ^ (- e'))
      by (rewrite <- !Z.mul_assoc, E1; reflexivity).
    replace (Z.pos my * 2 ^ (- e') * 2 ^ (ey + 1074))
      with (Z.pos my * 2 ^ (ey + 1074) * 2 ^ (- e')) by ring.
    apply Z.mul_le_mono_nonneg_r; [apply Z.pow_nonneg; lia | exact Hle]. }
  assert (Hm'0 : 0 <= m').
  { rewrite Hm'. apply Z.mul_nonneg_nonneg; [lia | apply Z.pow_nonneg; lia]. }
  pose proof (Z_div_mod m' (Z.pos my) ltac:(lia)) as Hdm.
  destruct (Z.div_eucl m' (Z.pos my)) as [q r] eqn:Edm.
  destruct Hdm as [Hq Hr].
  exists q, k, (new_location (Z.pos my) r).
  replace (- k) with e' by (subst k; lia).
  split; [reflexivity|]. split; [subst k; lia|].
  assert (HK : 0 < 2 ^ k) by (apply Z.pow_pos_nonneg; subst k; lia).
  assert (Hq0 : 0 <= q) by nia.
  assert (Hqk : q <= 2 ^ k) by nia.
  split; [lia|].
  intros Hqe. assert (r = 0) by nia. subst r. apply new_location_exact.
Qed.

(** Rounding a quotient that is at most [2^k] at exponent [-k]. *)
Lemma rounded_le_one (sx : bool) (q k : Z) (l : location) :
  53 <= k -> 0 <= q <= 2 ^ k -> (q = 2 ^ k -> l = loc_Exact) ->
  match binary_round_aux prec emax sx q (- k) l with
  | S754_zero _ => True
  | S754_finite _ m e => Z.pos m * 2 ^ (e + 1074) <= 2 ^ 1074 /\ -1074 <= e
  | _ => False
  end.
Proof.
  intros Hk [Hq0 Hqk] Hex.
  destruct (binary_round_aux_spec sx q (- k) l Hq0) as (m2 & Hb & Hexact & ->).
  set (n1 := shr_amount q (- k)) in *.
  assert (Hdq : Zdigits2 q <= k + 1).
  { apply Zdigits2_le_pow; [lia|]. split; [lia|].
    rewrite Z.pow_add_r by lia. change (2 ^ 1) with 2.
    assert (0 < 2 ^ k) by (apply Z.pow_pos_nonneg; lia). lia. }
  pose proof (Zdigits2_nonneg q) as Hdq0.
  assert (Hn1 : 0 <= n1 <= k /\ k - 1074 <= n1) by (subst n1; unfold shr_amount; lia).
  assert (HP1 : 0 < 2 ^ n1) by (apply Z.pow_pos_nonneg; lia).
  assert (Hsplit : 2 ^ k = 2 ^ n1 * 2 ^ (k - n1)) by (apply pow2_split; lia).
  assert (HPk : 0 < 2 ^ (k - n1)) by (apply Z.pow_pos_nonneg; lia).
  (* the rounded mantissa is at most 2^(k - n1) *)
  assert (Hm2 : 0 <= m2 <= 2 ^ (k - n1)).
  { assert (0 <= q / 2 ^ n1) by (apply Z.div_pos; lia).
    split; [lia|].
    destruct (Z.eq_dec q (2 ^ k)) as [Heq | Hne].
    - rewrite Hexact.
      + rewrite Heq, Hsplit, Z.mul_comm, Z.div_mul by lia. lia.
      + auto.
      + rewrite Heq, Hsplit, Z.mul_comm. apply Z.mod_mul. lia.
    - assert (q / 2 ^ n1 < 2 ^ (k - n1)).
      { apply Z.div_lt_upper_bound; [lia|]. rewrite <- Hsplit. lia. }
      lia. }
  unfold rounded.
  set (e1 := - k + n1) in *.
  set (n2 := shr_amount m2 e1).
  assert (Hn2 : 0 <= n2) by (subst n2; unfold shr_amount; lia).
  assert (He3 : -1074 <= e1 + n2).
  { subst n2. unfold shr_amount. lia. }
  assert (HP2 : 0 < 2 ^ n2) by (apply Z.pow_pos_nonneg; lia).
  pose proof (Z.mul_div_le m2 (2 ^ n2) HP2) as Hfl.
  destruct (m2 / 2 ^ n2) as [|m3|m3] eqn:E3.
  - exact I.
  - assert (Hv : Z.pos m3 * 2 ^ (e1 + n2 + 1074) <= 2 ^ 1074).
    { replace (e1 + n2 + 1074) with (n2 + (n1 - k + 1074)) by (subst e1; lia).
      rewrite Z.pow_add_r by lia.
      rewrite (pow2_split (n1 - k + 1074) 1074) by lia.
      replace (1074 - (n1 - k + 1074)) with (k - n1) by lia.
      assert (0 < 2 ^ (n1 - k + 1074)) by (apply Z.pow_pos_nonneg; lia).
      rewrite Z.mul_assoc, (Z.mul_comm (2 ^ (n1 - k + 1074))).
      apply Z.mul_le_mono_nonneg_r; [lia|]. lia. }
    assert (He : e1 + n2 <= 0).
    { destruct (Z_le_gt_dec (e1 + n2) 0) as [|Hgt]; [assumption|exfalso].
      assert (2 ^ 1074 < 2 ^ (e1 + n2 + 1074)) by (apply Z.pow_lt_mono_r; lia).
      assert (0 < 2 ^ (e1 + n2 + 1074)) by (apply Z.pow_pos_nonneg; lia).
      nia. }
    destruct (Z.leb_spec (e1 + n2) 971); [|lia].
    split; assumption.
  - assert (0 <= m2 / 2 ^ n2) by (apply Z.div_pos; lia). lia.
Qed.

Lemma one_spec : Prim2SF 1 = S754_finite false 4503599627370496 (-52).
Proof. reflexivity. Qed.

Lemma key_one : key 1 = 2 ^ 1074.
Proof.
  unfold key. rewrite one_spec. cbn [SFkey].
  change 4503599627370496 with (2 ^ 52). rewrite <- Z.pow_add_r by lia. reflexivity.
Qed.

Lemma key_zero : key 0 = 0.
Proof. reflexivity. Qed.

(** A quotient of positive finite numbers [a <= b] lies in [[0, 1]]. *)
Lemma div_le_one (a b : float) (ma mb : positive) (ea eb : Z) :
  Prim2SF a = S754_finite false ma ea ->
  Prim2SF b = S754_finite false mb eb ->
  key a <= key b ->
  is_nan (a / b) = false /\ 0 <= key (a / b) <= 2 ^ 1074.
Proof.
  intros Ea Eb Hle.
  pose proof (Prim2SF_valid a) as Va. pose proof (Prim2SF_valid b) as Vb.
  rewrite Ea in Va. rewrite Eb in Vb. cbn [valid_binary] in Va, Vb.
  unfold key in Hle. rewrite Ea, Eb in Hle. cbn [SFkey] in Hle.
  destruct (SFdiv_core_le ma mb ea eb Va Vb Hle) as (q & k & l & Ecore & Hk & Hq & Hex).
  pose proof (rounded_le_one false q k l Hk Hq Hex) as Hr.
  rewrite is_nan_spec. unfold key. rewrite div_spec, Ea, Eb.
  unfold SF64div. cbn [SFdiv xorb]. rewrite Ecore.
  destruct (binary_round_aux prec emax false q (- k) l) as [s|s| |s m e] eqn:E;
    try contradiction.
  - cbn [SFis_nan SFkey]. split; [reflexivity | split; [lia | apply Z.pow_nonneg; lia]].
  - destruct Hr as [Hv He].
    destruct (binary_round_aux_spec false q (- k) l ltac:(lia)) as (m2 & _ & _ & E').
    rewrite E in E'. unfold rounded in E'.
    assert (s = false) as ->.
    { destruct (m2 / 2 ^ shr_amount m2 (- k + shr_amount q (- k))); try discriminate.
      destruct (_ <=? 971); congruence. }
    cbn [SFis_nan SFkey]. split; [reflexivity|]. split; [|exact Hv].
    apply Z.mul_nonneg_nonneg; [lia | apply Z.pow_nonneg; lia].
Qed.

(** ** Order, [Math.max], [Math.min] and [clamp] *)

Lemma leb_true_not_nan (x y : float) :
  (x <=? y)%float = true -> not_nan x /\ not_nan y /\ key x <= key y.
Proof.
  intros H. unfold not_nan.
  destruct (is_nan x) eqn:Hx; [rewrite leb_nan_l in H by assumption; discriminate|].
  destruct (is_nan y) eqn:Hy; [rewrite leb_nan_r in H by assumption; discriminate|].
  rewrite leb_key in H by assumption. apply Z.leb_le in H. auto.
Qed.

Lemma ltb_true_not_nan (x y : float) :
  (x <? y)%float = true -> not_nan x /\ not_nan y /\ key x < key y.
Proof.
  intros H. unfold not_nan.
  destruct (is_nan x) eqn:Hx; [rewrite ltb_nan_l in H by assumption; discriminate|].
  destruct (is_nan y) eqn:Hy; [rewrite ltb_nan_r in H by assumption; discriminate|].
  rewrite ltb_key in H by assumption. apply Z.ltb_lt in H. auto.
Qed.

Lemma leb_of_keys (x y : float) :
  not_nan x -> not_nan y -> key x <= key y -> (x <=? y)%float = true.
Proof. intros Hx Hy H. rewrite leb_key by assumption. now apply Z.leb_le. Qed.

Lemma ltb_of_keys (x y : float) :
  not_nan x -> not_nan y -> key x < key y -> (x <? y)%float = true.
Proof. intros Hx Hy H. rewrite ltb_key by assumption. now apply Z.ltb_lt. Qed.

Lemma Math_max_spec (a b : float) :
  not_nan a -> not_nan b ->
  (Js.Math_max a b = a \/ Js.Math_max a b = b) /\
  key (Js.Math_max a b) = Z.max (key a) (key b).
Proof.
  unfold not_nan, Js.Math_max. intros Ha Hb. rewrite Ha, Hb. cbn [orb].
  rewrite (ltb_key a b), (ltb_key b a) by assumption.
  destruct (Z.ltb_spec (key a) (key b)); [split; [auto | lia]|].
  destruct (Z.ltb_spec (key b) (key a)); [split; [auto | lia]|].
  destruct (is_zero a && get_sign a); split; auto; lia.
Qed.

Lemma Math_min_spec (a b : float) :
  not_nan a -> not_nan b ->
  (Js.Math_min a b = a \/ Js.Math_min a b = b) /\
  key (Js.Math_min a b) = Z.min (key a) (key b).
Proof.
  unfold not_nan, Js.Math_min. intros Ha Hb. rewrite Ha, Hb. cbn [orb].
  rewrite (ltb_key a b), (ltb_key b a) by assumption.
  destruct (Z.ltb_spec (key a) (key b)); [split; [auto | lia]|].
  destruct (Z.ltb_spec (key b) (key a)); [split; [auto | lia]|].
  destruct (is_zero a && get_sign a); split; auto; lia.
Qed.

Lemma clamp_nan (n lo hi : float) : is_nan n = true -> clamp n lo hi = lo.
Proof. unfold clamp. now intros ->. Qed.

(** [clamp] returns one of its three arguments, inside the range. *)
Lemma clamp_spec (n lo hi : float) :
  (lo <=? hi)%float = true ->
  not_nan (clamp n lo hi) /\
  key lo <= key (clamp n lo hi) <= key hi /\
  (clamp n lo hi = lo \/ clamp n lo hi = hi \/ (clamp n lo hi = n /\ not_nan n)).
Proof.
  intros H. apply leb_true_not_nan in H. destruct H as (Hlo & Hhi & Hle).
  unfold clamp. destruct (is_nan n) eqn:Hn.
  - split; [exact Hlo|]. split; [lia | auto].
  - destruct (Math_min_spec hi n Hhi Hn) as [Hm Km].
    assert (Nm : not_nan (Js.Math_min hi n)) by (destruct Hm as [-> | ->]; assumption).
    destruct (Math_max_spec lo (Js.Math_min hi n) Hlo Nm) as [Hx Kx].
    split; [destruct Hx as [-> | ->]; assumption|].
    split; [rewrite Kx, Km; lia|].
    destruct Hx as [-> | ->]; [auto|].
    destruct Hm as [-> | ->]; auto.
Qed.

Lemma clamp_range (n lo hi : float) :
  (lo <=? hi)%float = true ->
  (lo <=? clamp n lo hi)%float = true /\ (clamp n lo hi <=? hi)%float = true.
Proof.
  intros H. destruct (clamp_spec n lo hi H) as (Hc & Hk & _).
  apply leb_true_not_nan in H. destruct H as (Hlo & Hhi & _).
  split; apply leb_of_keys; auto; lia.
Qed.

(** A number inside the range is returned as it is, up to the sign of a
    zero. *)
Lemma clamp_in_range (n lo hi : float) :
  (lo <=? n)%float = true -> (n <=? hi)%float = true ->
  (clamp n lo hi =? n)%float = true.
Proof.
  intros H1 H2.
  apply leb_true_not_nan in H1. destruct H1 as (Hlo & Hn & K1).
  apply leb_true_not_nan in H2. destruct H2 as (_ & Hhi & K2).
  unfold clamp. rewrite Hn.
  destruct (Math_min_spec hi n Hhi Hn) as [Hm Km].
  assert (Nm : not_nan (Js.Math_min hi n)) by (destruct Hm as [-> | ->]; assumption).
  destruct (Math_max_spec lo (Js.Math_min hi n) Hlo Nm) as [Hx Kx].
  assert (Nx : not_nan (Js.Math_max lo (Js.Math_min hi n)))
    by (destruct Hx as [-> | ->]; assumption).
  rewrite eqb_key by assumption. apply Z.eqb_eq. rewrite Kx, Km. lia.
Qed.

(** [clamp] is the clamping of the specification: NaN and the numbers below
    the range give the minimum, the numbers above it the maximum, and a
    number inside the range is kept, up to the sign of a zero. *)
Lemma clamp_clamped_into (x lo hi : float) :
  (lo <? hi)%float = true -> clamped_into lo hi x (clamp x lo hi).
Proof.
  intros H. apply ltb_true_not_nan in H. destruct H as (Hlo & Hhi & Hlt).
  unfold not_nan in Hlo, Hhi.
  split; [apply clamp_nan|]. split; [|split].
  - intros Hx. apply ltb_true_not_nan in Hx. destruct Hx as (Nx & _ & Kx).
    unfold not_nan in Nx. unfold clamp. rewrite Nx.
    unfold Js.Math_min. rewrite Hhi, Nx. cbn [orb].
    rewrite (ltb_key hi x), (ltb_key x hi) by assumption.
    destruct (Z.ltb_spec (key hi) (key x)); [lia|].
    destruct (Z.ltb_spec (key x) (key hi)); [|lia].
    unfold Js.Math_max. rewrite Hlo, Nx. cbn [orb].
    rewrite (ltb_key lo x), (ltb_key x lo) by assumption.
    destruct (Z.ltb_spec (key lo) (key x)); [lia|].
    destruct (Z.ltb_spec (key x) (key lo)); [reflexivity | lia].
  - intros Hx. apply ltb_true_not_nan in Hx. destruct Hx as (_ & Nx & Kx).
    unfold not_nan in Nx. unfold clamp. rewrite Nx.
    unfold Js.Math_min. rewrite Hhi, Nx. cbn [orb].
    rewrite (ltb_key hi x) by assumption.
    destruct (Z.ltb_spec (key hi) (key x)); [|lia].
    unfold Js.Math_max. rewrite Hlo, Hhi. cbn [orb].
    rewrite (ltb_key lo hi) by assumption.
    destruct (Z.ltb_spec (key lo) (key hi)); [reflexivity | lia].
  - apply clamp_in_range.
Qed.

(** ** Integers as numbers *)

Lemma pow1074_pos : 0 < 2 ^ 1074.
Proof. apply Z.pow_pos_nonneg; lia. Qed.

Lemma of_N_ltb (i n : Z) :
  0 <= i < 2 ^ 53 -> 0 <= n < 2 ^ 53 ->
  (Js.of_N i <? Js.of_N n)%float = (i <? n).
Proof.
  intros Hi Hn. rewrite ltb_key by (apply of_N_not_nan; assumption).
  rewrite !of_N_key by assumption. pose proof pow1074_pos.
  destruct (Z.ltb_spec i n); [apply Z.ltb_lt | apply Z.ltb_ge]; nia.
Qed.

Lemma opp_key (x : float) : key (- x) = - key x /\ is_nan (- x) = is_nan x.
Proof.
  rewrite !is_nan_spec. unfold key. rewrite opp_spec.
  destruct (Prim2SF x) as [s|s| |s m e]; cbn [SFopp SFkey SFis_nan];
    try destruct s; cbn [negb]; split; try reflexivity; lia.
Qed.

Lemma abs_key (x : float) : key (abs x) = Z.abs (key x) /\ is_nan (abs x) = is_nan x.
Proof.
  rewrite !is_nan_spec. unfold key. rewrite abs_spec.
  pose proof pow2100_pos.
  destruct (Prim2SF x) as [s|s| |s m e]; cbn [SFabs SFkey SFis_nan];
    try (assert (0 <= Z.pos m * 2 ^ (e + 1074))
           by (apply Z.mul_nonneg_nonneg; [lia | apply Z.pow_nonneg; lia]));
    try destruct s; split; try reflexivity; lia.
Qed.

(** A count divided by a count that is at least as large lies in [[0, 1]]. *)
Lemma of_N_div_unit (s n : Z) :
  0 <= s <= n -> 0 < n < 2 ^ 53 ->
  (0 <=? Js.of_N s / Js.of_N n)%float = true /\
  (Js.of_N s / Js.of_N n <=? 1)%float = true.
Proof.
  intros Hs Hn.
  destruct (of_N_spec n Hn) as (mn & en & En & _ & Kn).
  assert (Hres : is_nan (Js.of_N s / Js.of_N n) = false /\
                 0 <= key (Js.of_N s / Js.of_N n) <= 2 ^ 1074).
  { destruct (Z.eq_dec s 0) as [-> | Hne].
    - rewrite is_nan_spec. unfold key. rewrite div_spec, of_N_zero, En.
      cbn [SF64div SFdiv xorb SFis_nan SFkey]. pose proof pow1074_pos.
      split; [reflexivity | lia].
    - destruct (of_N_spec s ltac:(lia)) as (ms & es & Es & _ & Ks).
      apply (div_le_one _ _ ms mn es en Es En).
      unfold key. rewrite Es, En. cbn [SFkey]. rewrite Ks, Kn.
      pose proof pow1074_pos. nia. }
  destruct Hres as [Hnan Hk].
  split; apply leb_of_keys; try assumption; try reflexivity.
  - rewrite key_zero. lia.
  - rewrite key_one. lia.
Qed.

(** ** Products and halves of trial counts *)

(** A positive integer below [2^53] is a normal number. *)
Lemma of_N_normal (z : Z) :
  1 <= z < 2 ^ 53 ->
  exists m e, Prim2SF (Js.of_N z) = S754_finite false m e /\
              2 ^ 52 <= Z.pos m < 2 ^ 53 /\ -52 <= e <= 0 /\
              Z.pos m * 2 ^ (e + 1074) = z * 2 ^ 1074.
Proof.
  intros Hz. destruct (of_N_spec z ltac:(lia)) as (m & e & E & He & K).
  pose proof (Prim2SF_valid (Js.of_N z)) as V. rewrite E in V. cbn [valid_binary] in V.
  pose proof (bounded_mantissa m e V) as (_ & Hm & Hn).
  pose proof pow1074_pos as HP.
  assert (He0 : e <= 0).
  { destruct (Z_le_gt_dec e 0) as [|Hgt]; [assumption|exfalso].
    specialize (Hn ltac:(lia)).
    assert (2 * 2 ^ 1074 <= 2 ^ (e + 1074)).
    { replace (e + 1074) with (1 + (e - 1 + 1074)) by lia.
      rewrite Z.pow_add_r by lia. change (2 ^ 1) with 2.
      assert (2 ^ 1074 <= 2 ^ (e - 1 + 1074)) by (apply Z.pow_le_mono_r; lia). lia. }
    assert (2 ^ 52 * (2 * 2 ^ 1074) <= Z.pos m * 2 ^ (e + 1074)) by (apply Z.mul_le_mono_nonneg; lia).
    change (2 ^ 53) with (2 ^ 52 * 2) in Hz. nia. }
  assert (He52 : -52 <= e).
  { destruct (Z_le_gt_dec (-52) e) as [|Hgt]; [assumption|exfalso].
    assert (2 ^ (e + 1074) * 2 ^ 53 <= 2 ^ 1074).
    { rewrite <- Z.pow_add_r by lia. apply Z.pow_le_mono_r; lia. }
    assert (0 < 2 ^ (e + 1074)) by (apply Z.pow_pos_nonneg; lia).
    nia. }
  exists m, e. split; [exact E|]. split; [split; [apply Hn; lia | exact Hm]|].
  split; [lia | exact K].
Qed.

Lemma rounded_carry (sx : bool) (e : Z) :
  -1074 <= e -> e + 1 <= 971 ->
  rounded sx (2 ^ 53) e = S754_finite sx 4503599627370496 (e + 1).
Proof.
  intros He1 He2. unfold rounded, shr_amount.
  change (Zdigits2 (2 ^ 53)) with 54.
  replace (Z.max 0 (Z.max (54 + e - 53) (-1074) - e)) with 1 by lia.
  change (2 ^ 53 / 2 ^ 1) with (Z.pos 4503599627370496).
  destruct (Z.leb_spec (e + 1) 971); [reflexivity | lia].
Qed.

(** The key of a rounded mantissa in [[2^52, 2^53]]. *)
Lemma rounded_key (m2 e : Z) :
  2 ^ 52 <= m2 <= 2 ^ 53 -> -1074 <= e -> e + 1 <= 971 ->
  exists m e', rounded false m2 e = S754_finite false m e' /\
               SFkey (rounded false m2 e) = m2 * 2 ^ (e + 1074).
Proof.
  intros Hm He1 He2. destruct (Z.eq_dec m2 (2 ^ 53)) as [-> | Hne].
  - rewrite rounded_carry by assumption. eexists _, _. split; [reflexivity|].
    cbn [SFkey]. replace (e + 1 + 1074) with (1 + (e + 1074)) by lia.
    rewrite Z.pow_add_r by lia. change (2 ^ 53) with (4503599627370496 * 2 ^ 1). ring.
  - destruct m2 as [|p|p]; try lia.
    rewrite rounded_normal by lia. eexists _, _. split; reflexivity.
Qed.

Lemma mul_normal (a b : float) (ma mb : positive) (ea eb : Z) :
  Prim2SF a = S754_finite false ma ea ->
  Prim2SF b = S754_finite false mb eb ->
  2 ^ 52 <= Z.pos ma < 2 ^ 53 -> 2 ^ 52 <= Z.pos mb < 2 ^ 53 ->
  -1074 <= ea + eb -> ea + eb + 54 <= 971 ->
  exists m e,
    Prim2SF (a * b) = S754_finite false m e /\
    (key (a * b) - Z.pos ma * Z.pos mb * 2 ^ (ea + eb + 1074)) * 2 ^ 52
    <= Z.pos ma * Z.pos mb * 2 ^ (ea + eb + 1074) /\
    (Z.pos ma * Z.pos mb * 2 ^ (ea + eb + 1074) - key (a * b)) * 2 ^ 52
    <= Z.pos ma * Z.pos mb * 2 ^ (ea + eb + 1074).
Proof.
  intros Ea Eb Hma Hmb Hlo Hhi.
  unfold key. rewrite mul_spec, Ea, Eb. unfold SF64mul. cbn [SFmul xorb].
  rewrite Pos2Z.inj_mul.
  set (P := Z.pos ma * Z.pos mb). set (ex := ea + eb) in *.
  assert (HP : 2 ^ 104 <= P < 2 ^ 106).
  { subst P. change (2 ^ 104) with (2 ^ 52 * 2 ^ 52). change (2 ^ 106) with (2 ^ 53 * 2 ^ 53).
    split; [apply Z.mul_le_mono_nonneg; lia | apply Z.mul_lt_mono_nonneg; lia]. }
  assert (HP0 : 0 < P) by lia.
  pose proof (Zdigits2_bounds P HP0) as [Hdlo Hdhi].
  set (d := Zdigits2 P) in *.
  assert (Hd : 105 <= d <= 106).
  { split.
    - pose proof (Zdigits2_ge_pow P 104 ltac:(lia) ltac:(lia)). subst d. lia.
    - apply Zdigits2_le_pow; lia. }
  destruct (binary_round_aux_spec false P ex loc_Exact ltac:(lia)) as (m2 & Hb & _ & ->).
  assert (Hn1 : shr_amount P ex = d - 53) by (unfold shr_amount; fold d; lia).
  rewrite Hn1 in *.
  set (n1 := d - 53) in *.
  assert (H2n : 0 < 2 ^ n1) by (apply Z.pow_pos_nonneg; lia).
  assert (Hm1 : 2 ^ 52 <= P / 2 ^ n1 < 2 ^ 53).
  { split.
    - apply Z.div_le_lower_bound; [lia|].
      rewrite <- Z.pow_add_r by lia. replace (n1 + 52) with (d - 1) by lia. exact Hdlo.
    - apply Z.div_lt_upper_bound; [lia|].
      rewrite <- Z.pow_add_r by lia. replace (n1 + 53) with d by lia. exact Hdhi. }
  destruct (rounded_key m2 (ex + n1) ltac:(lia) ltac:(lia) ltac:(lia)) as (m & e & Er & Kr).
  exists m, e. split; [exact Er|]. rewrite Kr.
  pose proof (Z.div_mod P (2 ^ n1) ltac:(lia)) as Hdm.
  pose proof (Z.mod_pos_bound P (2 ^ n1) H2n) as Hr.
  set (m1 := P / 2 ^ n1) in *. set (r := P mod 2 ^ n1) in *.
  replace (ex + n1 + 1074) with (n1 + (ex + 1074)) by lia.
  rewrite Z.pow_add_r by lia.
  assert (HX : 0 < 2 ^ (ex + 1074)) by (apply Z.pow_pos_nonneg; lia).
  set (X := 2 ^ (ex + 1074)) in *. set (T := 2 ^ n1) in *.
  change (2 ^ 52) with 4503599627370496 in *.
  rewrite Hdm.
  assert (HE : 0 < T * X) by (apply Z.mul_pos_pos; lia).
  assert (H1 : m1 * (T * X) <= m2 * (T * X)) by (apply Z.mul_le_mono_nonneg_r; lia).
  assert (H2 : m2 * (T * X) <= (m1 + 1) * (T * X)) by (apply Z.mul_le_mono_nonneg_r; lia).
  assert (H3 : 0 <= r * X) by (apply Z.mul_nonneg_nonneg; lia).
  assert (H4 : r * X < T * X) by (apply Z.mul_lt_mono_pos_r; lia).
  assert (H5 : 4503599627370496 * (T * X) <= m1 * (T * X))
    by (apply Z.mul_le_mono_nonneg_r; lia).
  split; lia.
Qed.

Lemma two_spec : Prim2SF 2 = S754_finite false 4503599627370496 (-51).
Proof. reflexivity. Qed.

(** Halving a normal number well above the subnormal range. *)
Lemma half_normal (a : float) (ma : positive) (ea : Z) :
  Prim2SF a = S754_finite false ma ea ->
  2 ^ 52 <= Z.pos ma < 2 ^ 53 -> -1072 <= ea <= 971 ->
  Prim2SF (a / 2) = S754_finite false ma (ea - 1).
Proof.
  intros Ea Hma Hea.
  rewrite div_spec, Ea, two_spec. unfold SF64div. cbn [SFdiv xorb].
  unfold SFdiv_core_binary.
  rewrite (Zdigits2_eq (Z.pos ma) 53) by (try lia; exact Hma).
  change (Zdigits2 (Z.pos 4503599627370496)) with 53.
  replace (Z.min (fexp prec emax (53 + ea - (53 + -51))) (ea - -51)) with (ea - 2)
    by (unfold fexp, SpecFloat.emin, prec, emax; lia).
  replace (ea - -51 - (ea - 2)) with 53 by lia.
  rewrite Z.shiftl_mul_pow2 by lia.
  pose proof (Z_div_mod (Z.pos ma * 2 ^ 53) (Z.pos 4503599627370496) ltac:(lia)) as Hdm.
  destruct (Z.div_eucl (Z.pos ma * 2 ^ 53) (Z.pos 4503599627370496)) as [q r].
  destruct Hdm as [Hq Hr].
  change (2 ^ 53) with (Z.pos 4503599627370496 * 2) in Hq.
  assert (r = 0 /\ q = Z.pos ma * 2) as [-> ->] by lia.
  rewrite new_location_exact.
  destruct (binary_round_aux_spec false (Z.pos ma * 2) (ea - 2) loc_Exact ltac:(lia))
    as (m2 & _ & Hexact & ->).
  assert (Hn1 : shr_amount (Z.pos ma * 2) (ea - 2) = 1).
  { unfold shr_amount. rewrite (Zdigits2_eq (Z.pos ma * 2) 54); [lia | lia |].
    change (2 ^ (54 - 1)) with (2 ^ 52 * 2). change (2 ^ 54) with (2 ^ 53 * 2). lia. }
  rewrite Hn1 in *. change (2 ^ 1) with 2 in Hexact.
  rewrite Z.mod_mul, Z.div_mul in Hexact by lia.
  rewrite (Hexact eq_refl eq_refl).
  replace (ea - 2 + 1) with (ea - 1) by lia.
  apply rounded_normal; [exact Hma | lia].
Qed.

(** Truncating the number made from an integer gives the integer back. *)
Lemma trunc_of_N (z : Z) : 0 <= z < 2 ^ 53 -> Js.trunc (Js.of_N z) = z.
Proof.
  intros Hz. destruct (Z.eq_dec z 0) as [-> | Hne]; [reflexivity|].
  destruct (of_N_normal z ltac:(lia)) as (m & e & E & Hm & He & K).
  unfold Js.trunc. rewrite E. cbn [Js.SFtrunc].
  rewrite (pow2_split (e + 1074) 1074) in K by lia.
  replace (1074 - (e + 1074)) with (- e) in K by lia.
  assert (HP : 0 < 2 ^ (e + 1074)) by (apply Z.pow_pos_nonneg; lia).
  assert (K' : Z.pos m = z * 2 ^ (- e)).
  { apply Z.mul_cancel_r with (2 ^ (e + 1074)); [lia|]. rewrite K. ring. }
  destruct (Z.leb_spec 0 e).
  - replace e with 0 in * by lia. change (2 ^ (- 0)) with 1 in K'.
    change (2 ^ 0) with 1. lia.
  - rewrite K'. apply Z.div_mul. apply Z.pow_nonzero; lia.
Qed.

(** The array index read from [Math.floor x], for a non-negative finite
    [x] below [2^53]: the integer part of [x]. *)
Lemma index_of_floor (x : float) (m : positive) (e : Z) :
  Prim2SF x = S754_finite false m e ->
  key x < 2 ^ 53 * 2 ^ 1074 ->
  index_of (Js.Math_floor x) = Z.to_nat (key x / 2 ^ 1074).
Proof.
  intros E Hlt.
  pose proof (Prim2SF_valid x) as V. rewrite E in V. cbn [valid_binary] in V.
  pose proof (bounded_mantissa m e V) as (He & Hm & _).
  unfold index_of, Js.Math_floor, key. rewrite E. cbn [SFkey].
  destruct (Z.leb_spec 0 e).
  - unfold Js.trunc. rewrite E. cbn [Js.SFtrunc].
    destruct (Z.leb_spec 0 e); [|lia].
    rewrite Z.pow_add_r by lia. rewrite Z.mul_assoc, Z.div_mul; [reflexivity|].
    apply Z.pow_nonzero; lia.
  - assert (HP : 0 < 2 ^ (- e)) by (apply Z.pow_pos_nonneg; lia).
    rewrite trunc_of_N.
    + rewrite (pow2_split (e + 1074) 1074) by lia.
      replace (1074 - (e + 1074)) with (- e) by lia.
      rewrite (Z.mul_comm (Z.pos m)).
      rewrite Z.div_mul_cancel_l; [reflexivity | lia |].
      apply Z.pow_nonzero; lia.
    + split; [apply Z.div_pos; lia|].
      apply Z.le_lt_trans with (Z.pos m); [|lia].
      apply Z.div_le_upper_bound; [lia|]. 
      replace (Z.pos m) with (1 * Z.pos m) at 1 by lia.
      apply Z.mul_le_mono_nonneg_r; lia.
Qed.

Lemma tenth_spec : Prim2SF 0.1 = S754_finite false 7205759403792794 (-56).
Proof. reflexivity. Qed.

Lemma nine_tenths_spec : Prim2SF 0.9 = S754_finite false 8106479329266893 (-53).
Proof. reflexivity. Qed.

(** The keys of [n * 0.1], [n / 2] and [n * 0.9] for a trial count [n]:
    in order, and below the key of [n]. *)
Lemma percentile_keys (z : Z) :
  1 <= z < 2 ^ 53 ->
  let f := Js.of_N z in
  0 <= key (f * 0.1) <= key (f / 2) /\
  key (f / 2) <= key (f * 0.9) /\
  key (f * 0.9) < z * 2 ^ 1074 /\
  (exists m e, Prim2SF (f * 0.1) = S754_finite false m e) /\
  (exists m e, Prim2SF (f / 2) = S754_finite false m e) /\
  (exists m e, Prim2SF (f * 0.9) = S754_finite false m e).
Proof.
  intros Hz f.
  destruct (of_N_normal z Hz) as (mf & ef & Ef & Hmf & Hef & K). fold f in Ef.
  destruct (mul_normal f 0.1 mf 7205759403792794 ef (-56) Ef tenth_spec Hmf
              ltac:(split; [apply Z.leb_le | apply Z.ltb_lt]; reflexivity)
              ltac:(lia) ltac:(lia)) as (m10 & e10 & E10 & Hlo10 & Hhi10).
  destruct (mul_normal f 0.9 mf 8106479329266893 ef (-53) Ef nine_tenths_spec Hmf
              ltac:(split; [apply Z.leb_le | apply Z.ltb_lt]; reflexivity)
              ltac:(lia) ltac:(lia)) as (m90 & e90 & E90 & Hlo90 & Hhi90).
  pose proof (half_normal f mf ef Ef Hmf ltac:(lia)) as E50.
  assert (K50 : key (f / 2) = Z.pos mf * 2 ^ (ef - 1 + 1074))
    by (unfold key; rewrite E50; reflexivity).
  assert (HU : 0 < 2 ^ (ef + 1018)) by (apply Z.pow_pos_nonneg; lia).
  replace (ef + -56 + 1074) with (ef + 1018) in * by lia.
  replace (ef + -53 + 1074) with (3 + (ef + 1018)) in * by lia.
  replace (ef - 1 + 1074) with (55 + (ef + 1018)) in K50 by lia.
  replace (ef + 1074) with (56 + (ef + 1018)) in K by lia.
  rewrite Z.pow_add_r in Hlo90, Hhi90, K50, K by lia.
  rewrite <- K. rewrite K50.
  assert (HW : 0 < Z.pos mf * 2 ^ (ef + 1018)) by (apply Z.mul_pos_pos; lia).
  set (W := Z.pos mf * 2 ^ (ef + 1018)) in *.
  replace (Z.pos mf * 7205759403792794 * 2 ^ (ef + 1018))
    with (7205759403792794 * W) in * by (subst W; ring).
  replace (Z.pos mf * 8106479329266893 * (2 ^ 3 * 2 ^ (ef + 1018)))
    with (8106479329266893 * 2 ^ 3 * W) in * by (subst W; ring).
  replace (Z.pos mf * (2 ^ 55 * 2 ^ (ef + 1018))) with (2 ^ 55 * W) by (subst W; ring).
  replace (Z.pos mf * (2 ^ 56 * 2 ^ (ef + 1018))) with (2 ^ 56 * W) by (subst W; ring).
  change (2 ^ 3) with 8 in *. change (2 ^ 52) with 4503599627370496 in *.
  change (2 ^ 55) with 36028797018963968. change (2 ^ 56) with 72057594037927936.
  assert (H10 : 0 <= key (f * 0.1)).
  { unfold key. rewrite E10. cbn [SFkey].
    apply Z.mul_nonneg_nonneg; [lia | apply Z.pow_nonneg; lia]. }
  repeat split; try lia; eauto.
Qed.

(** * The HTTP simulation route *)

(** ** The result does not depend on the bound given to the loops *)

Lemma draw_nonzero_det (f1 f2 : nat) (g : Rng) (a b : float * Rng) :
  draw_nonzero f1 g = Some a -> draw_nonzero f2 g = Some b -> a = b.
Proof.
  revert f2 g. induction f1 as [|f1 IH]; intros [|f2] g; cbn [draw_nonzero];
    try discriminate.
  destruct (rng g) as [u g']. destruct (u =? 0)%float.
  - apply IH.
  - congruence.
Qed.

Lemma draw_nonzero_nonzero (fuel : nat) (g g' : Rng) (u : float) :
  draw_nonzero fuel g = Some (u, g') -> (u =? 0)%float = false.
Proof.
  revert g. induction fuel as [|fuel IH]; intros g; cbn [draw_nonzero]; [discriminate|].
  destruct (rng g) as [u0 g0]. destruct (u0 =? 0)%float eqn:E.
  - apply IH.
  - intros H. injection H as <- _. exact E.
Qed.

Section HttpRoute.

Variable Math_log : float -> float.
Variable Math_cos : float -> float.


Lemma randn_det (f1 f2 : nat) (g : Rng) (a b : float * Rng) :
  randn Math_log Math_cos f1 g = Some a -> randn Math_log Math_cos f2 g = Some b -> a = b.
Proof.
  unfold randn.
  destruct (draw_nonzero f1 g) as [[u1 g1]|] eqn:E1; [|discriminate].
  destruct (draw_nonzero f2 g) as [[u2 g2]|] eqn:E2; [|discriminate].
  pose proof (draw_nonzero_det _ _ _ _ _ E1 E2) as H. injection H as -> ->.
  destruct (draw_nonzero f1 g2) as [[v1 h1]|] eqn:E3; [|discriminate].
  destruct (draw_nonzero f2 g2) as [[v2 h2]|] eqn:E4; [|discriminate].
  pose proof (draw_nonzero_det _ _ _ _ _ E3 E4) as H. injection H as -> ->.
  congruence.
Qed.

Lemma trial_score_det (f1 f2 : nat) (enabled : list Assumption) (acc : float)
    (g : Rng) (a b : float * Rng) :
  trial_score Math_log Math_cos f1 enabled acc g = Some a ->
  trial_score Math_log Math_cos f2 enabled acc g = Some b -> a = b.
Proof.
  revert acc g. induction enabled as [|x rest IH]; intros acc g; cbn [trial_score].
  - congruence.
  - destruct (randn Math_log Math_cos f1 g) as [[z1 g1]|] eqn:E1; [|discriminate].
    destruct (randn Math_log Math_cos f2 g) as [[z2 g2]|] eqn:E2; [|discriminate].
    pose proof (randn_det _ _ _ _ _ E1 E2) as H. injection H as -> ->.
    apply IH.
Qed.

Lemma sim_loop_det (d1 d2 f1 f2 : nat) (iters threshold : float)
    (enabled : list Assumption) (i success : Z) (g : Rng) (a b : Z * Rng) :
  sim_loop Math_log Math_cos d1 f1 iters threshold enabled i success g = Some a ->
  sim_loop Math_log Math_cos d2 f2 iters threshold enabled i success g = Some b -> a = b.
Proof.
  revert f2 i success g. induction f1 as [|f1 IH]; intros [|f2] i success g;
    cbn [sim_loop]; try discriminate.
  destruct (Js.of_N i <? iters)%float; [|congruence].
  destruct (trial_score Math_log Math_cos d1 enabled 0 g) as [[s1 g1]|] eqn:E1; [|discriminate].
  destruct (trial_score Math_log Math_cos d2 enabled 0 g) as [[s2 g2]|] eqn:E2; [|discriminate].
  pose proof (trial_score_det _ _ _ _ _ _ _ E1 E2) as H. injection H as -> ->.
  apply IH.
Qed.

(** ** A run that has returned returns the same under larger bounds *)

Lemma draw_nonzero_mono (f1 f2 : nat) (g : Rng) (r : float * Rng) :
  (f1 <= f2)%nat -> draw_nonzero f1 g = Some r -> draw_nonzero f2 g = Some r.
Proof.
  revert f2 g. induction f1 as [|f1 IH]; intros f2 g Hle; cbn [draw_nonzero];
    [discriminate|].
  destruct f2 as [|f2]; [lia|]. cbn [draw_nonzero].
  destruct (rng g) as [u g']. destruct (u =? 0)%float; [|trivial].
  apply IH. lia.
Qed.

Lemma randn_mono (f1 f2 : nat) (g : Rng) (r : float * Rng) :
  (f1 <= f2)%nat ->
  randn Math_log Math_cos f1 g = Some r -> randn Math_log Math_cos f2 g = Some r.
Proof.
  intros Hle. unfold randn.
  destruct (draw_nonzero f1 g) as [[u g1]|] eqn:E1; [|discriminate].
  rewrite (draw_nonzero_mono _ _ _ _ Hle E1).
  destruct (draw_nonzero f1 g1) as [[v g2]|] eqn:E2; [|discriminate].
  rewrite (draw_nonzero_mono _ _ _ _ Hle E2). trivial.
Qed.

Lemma trial_score_mono (f1 f2 : nat) (enabled : list Assumption) (acc : float)
    (g : Rng) (r : float * Rng) :
  (f1 <= f2)%nat ->
  trial_score Math_log Math_cos f1 enabled acc g = Some r ->
  trial_score Math_log Math_cos f2 enabled acc g = Some r.
Proof.
  intros Hle. revert acc g.
  induction enabled as [|x rest IH]; intros acc g; cbn [trial_score]; [trivial|].
  destruct (randn Math_log Math_cos f1 g) as [[z g1]|] eqn:E1; [|discriminate].
  rewrite (randn_mono _ _ _ _ Hle E1). apply IH.
Qed.

Lemma sim_loop_mono (d1 d2 f1 f2 : nat) (iters threshold : float)
    (enabled : list Assumption) (i success : Z) (g : Rng) (r : Z * Rng) :
  (d1 <= d2)%nat -> (f1 <= f2)%nat ->
  sim_loop Math_log Math_cos d1 f1 iters threshold enabled i success g = Some r ->
  sim_loop Math_log Math_cos d2 f2 iters threshold enabled i success g = Some r.
Proof.
  intros Hd. revert f2 i success g.
  induction f1 as [|f1 IH]; intros f2 i success g Hle; cbn [sim_loop]; [discriminate|].
  destruct f2 as [|f2]; [lia|]. cbn [sim_loop].
  destruct (Js.of_N i <? iters)%float; [|trivial].
  destruct (trial_score Math_log Math_cos d1 enabled 0 g) as [[score g1]|] eqn:E1;
    [|discriminate].
  rewrite (trial_score_mono _ _ _ _ _ _ Hd E1). apply IH. lia.
Qed.

(** ** The sampler *)

Lemma randn_box_muller (fuel : nat) (g g' : Rng) (z : float) :
  randn Math_log Math_cos fuel g = Some (z, g') ->
  exists u v, (u =? 0)%float = false /\ (v =? 0)%float = false /\
              z = box_muller Math_log Math_cos u v.
Proof.
  unfold randn.
  destruct (draw_nonzero fuel g) as [[u g1]|] eqn:E1; [|discriminate].
  destruct (draw_nonzero fuel g1) as [[v g2]|] eqn:E2; [|discriminate].
  intros H. injection H as <- _. exists u, v.
  eauto using draw_nonzero_nonzero.
Qed.

(** The seeded generator returns numbers in [[0, 1]], so the uniforms that
    the sampler keeps from it are strictly positive. *)
Lemma uint32_unit (w : Z) :
  (0 <=? Js.of_N (Js.wrap_uint32 w) / 4294967296)%float = true /\
  (Js.of_N (Js.wrap_uint32 w) / 4294967296 <=? 1)%float = true.
Proof.
  change 4294967296%float with (Js.of_N 4294967296).
  unfold Js.wrap_uint32.
  pose proof (Z.mod_pos_bound w 4294967296 eq_refl).
  apply of_N_div_unit; [lia | split; reflexivity].
Qed.

Lemma mulberry32_next_unit (t : float) :
  (0 <=? fst (mulberry32_next t))%float = true /\
  (fst (mulberry32_next t) <=? 1)%float = true.
Proof. unfold mulberry32_next. cbn [fst]. apply uint32_unit. Qed.

Lemma draw_nonzero_seeded (fuel : nat) (t : float) (u : float) (g' : Rng) :
  draw_nonzero fuel (Seeded t) = Some (u, g') ->
  (0 <? u)%float = true /\ exists t', g' = Seeded t'.
Proof.
  revert t. induction fuel as [|fuel IH]; intros t; cbn [draw_nonzero rng]; [discriminate|].
  pose proof (mulberry32_next_unit t) as [H0 _].
  destruct (mulberry32_next t) as [u0 t0]. cbn [fst] in H0.
  destruct (u0 =? 0)%float eqn:E; [apply IH|].
  intros H. injection H as <- <-. split; [|eauto].
  apply leb_true_not_nan in H0. destruct H0 as (N0 & Nu & K).
  rewrite eqb_key in E by assumption. apply Z.eqb_neq in E.
  apply ltb_of_keys; try assumption. lia.
Qed.

Lemma randn_seeded_positive (fuel : nat) (t : float) (z : float) (g' : Rng) :
  randn Math_log Math_cos fuel (Seeded t) = Some (z, g') ->
  exists u v, (0 <? u)%float = true /\ (0 <? v)%float = true /\
              z = box_muller Math_log Math_cos u v.
Proof.
  unfold randn.
  destruct (draw_nonzero fuel (Seeded t)) as [[u g1]|] eqn:E1; [|discriminate].
  destruct (draw_nonzero_seeded _ _ _ _ E1) as (Hu & t1 & ->).
  destruct (draw_nonzero fuel (Seeded t1)) as [[v g2]|] eqn:E2; [|discriminate].
  destruct (draw_nonzero_seeded _ _ _ _ E2) as (Hv & _).
  intros H. injection H as <- _. eauto.
Qed.

(** ** One trial *)

Lemma trial_score_weighted_sum (fuel : nat) (enabled : list Assumption)
    (acc : float) (g : Rng) :
  trial_score Math_log Math_cos fuel enabled acc g
  = match normals Math_log Math_cos fuel (List.length enabled) g with
    | Some (zs, g') => Some (weighted_sum enabled zs acc, g')
    | None => None
    end.
Proof.
  revert acc g. induction enabled as [|a rest IH]; intros acc g;
    cbn [trial_score normals List.length weighted_sum].
  - reflexivity.
  - destruct (randn Math_log Math_cos fuel g) as [[z g1]|]; [|reflexivity].
    rewrite IH. destruct (normals Math_log Math_cos fuel (List.length rest) g1) as [[zs g2]|]; reflexivity.
Qed.


(** ** The iteration count *)

Lemma float_1000 : 1000%float = Js.of_N 1000.
Proof. reflexivity. Qed.

Lemma float_300000 : 300000%float = Js.of_N 300000.
Proof. reflexivity. Qed.

Lemma Math_floor_in_range (x : float) :
  not_nan (Js.Math_floor x) ->
  1000 * 2 ^ 1074 <= key (Js.Math_floor x) <= 300000 * 2 ^ 1074 ->
  exists n, 1000 <= n <= 300000 /\ Js.Math_floor x = Js.of_N n.
Proof.
  pose proof pow1074_pos as HP. pose proof pow2100_pos as HI.
  assert (Hbig : 300000 * 2 ^ 1074 < 2 ^ 52 * 2 ^ 1074).
  { apply Z.mul_lt_mono_pos_r; [exact HP | reflexivity]. }
  assert (Hinf : 2 ^ 52 * 2 ^ 1074 < 2 ^ 2100).
  { rewrite <- Z.pow_add_r by lia. apply Z.pow_lt_mono_r; lia. }
  unfold not_nan, Js.Math_floor. pose proof (Prim2SF_valid x) as V.
  destruct (Prim2SF x) as [s|s| |s m e] eqn:E.
  - intros _ H. unfold key in H. rewrite E in H. cbn [SFkey] in H. lia.
  - intros _ H. unfold key in H. rewrite E in H. cbn [SFkey] in H. destruct s; lia.
  - intros H. rewrite is_nan_spec, E in H. discriminate.
  - cbn [valid_binary] in V. pose proof (bounded_mantissa m e V) as (He & Hm & Hn).
    destruct (Z.leb_spec 0 e) as [He0 | He0].
    + intros _ H. unfold key in H. rewrite E in H. cbn [SFkey] in H.
      specialize (Hn ltac:(lia)).
      assert (2 ^ 1074 <= 2 ^ (e + 1074)) by (apply Z.pow_le_mono_r; lia).
      assert (2 ^ 52 * 2 ^ 1074 <= Z.pos m * 2 ^ (e + 1074)).
      { apply Z.mul_le_mono_nonneg; lia. }
      destruct s; lia.
    + assert (Hk : 0 < 2 ^ (- e)) by (apply Z.pow_pos_nonneg; lia).
      assert (H2k : 2 <= 2 ^ (- e)).
      { change 2 with (2 ^ 1) at 1. apply Z.pow_le_mono_r; lia. }
      destruct s.
      * intros _ H. exfalso.
        set (z := (Z.pos m + 2 ^ (- e) - 1) / 2 ^ (- e)) in *.
        assert (Hz : 0 <= z < 2 ^ 53).
        { split; [apply Z.div_pos; lia|].
          apply Z.div_lt_upper_bound; [lia|]. nia. }
        destruct (opp_key (Js.of_N z)) as [K _].
        rewrite K, of_N_key in H by exact Hz. nia.
      * intros _ H.
        assert (Hz : 0 <= Z.pos m / 2 ^ (- e) < 2 ^ 53).
        { split; [apply Z.div_pos; lia|].
          apply Z.div_lt_upper_bound; [lia|]. nia. }
        rewrite of_N_key in H by exact Hz.
        exists (Z.pos m / 2 ^ (- e)). split; [nia | reflexivity].
Qed.

(** The clamped iteration count is an integer between 1000 and 300000. *)
Lemma request_iterations_int (body : SimRequest) :
  exists n, 1000 <= n <= 300000 /\ request_iterations body = Js.of_N n.
Proof.
  unfold request_iterations.
  set (f := Js.Math_floor (Js.nullish (r_iterations body) 20000)).
  destruct (clamp_spec f 1000 300000 eq_refl) as (_ & Hk & [E | [E | [E Hf]]]).
  - exists 1000. split; [lia | exact E].
  - exists 300000. split; [lia | exact E].
  - rewrite E in *. apply Math_floor_in_range; [exact Hf|].
    rewrite float_1000, float_300000 in Hk.
    rewrite !of_N_key in Hk by (split; [lia | reflexivity]). exact Hk.
Qed.

(** ** The run *)

Lemma successes_bounds (threshold : float) (scores : list float) :
  0 <= successes threshold scores <= Z.of_nat (List.length scores).
Proof.
  unfold successes. pose proof (filter_length_le (fun score => (threshold <? score)%float) scores).
  lia.
Qed.

Lemma trial_scores_length (fuel n : nat) (enabled : list Assumption) (g g' : Rng)
    (scores : list float) :
  trial_scores Math_log Math_cos fuel n enabled g = Some (scores, g') -> List.length scores = n.
Proof.
  revert g g' scores. induction n as [|n IH]; intros g g' scores; cbn [trial_scores].
  - intros H. injection H as <- _. reflexivity.
  - destruct (normals Math_log Math_cos fuel (List.length enabled) g) as [[zs g1]|];
      [|discriminate].
    destruct (trial_scores Math_log Math_cos fuel n enabled g1) as [[rest g2]|] eqn:E;
      [|discriminate].
    intros H. injection H as <- _. cbn [List.length]. f_equal. eapply IH, E.
Qed.

Lemma sim_loop_spec (dfuel fuel : nat) (n : Z) (threshold : float)
    (enabled : list Assumption) (i success : Z) (g g' : Rng) (total : Z) :
  0 <= i <= n -> n < 2 ^ 53 ->
  sim_loop Math_log Math_cos dfuel fuel (Js.of_N n) threshold enabled i success g = Some (total, g') ->
  exists scores,
    trial_scores Math_log Math_cos dfuel (Z.to_nat (n - i)) enabled g = Some (scores, g') /\
    total = success + successes threshold scores.
Proof.
  intros Hi Hn. revert i success g Hi.
  induction fuel as [|fuel IH]; intros i success g Hi; cbn [sim_loop];
    [discriminate|].
  rewrite of_N_ltb by lia.
  destruct (Z.ltb_spec i n) as [Hlt | Hge].
  - rewrite trial_score_weighted_sum.
    destruct (normals Math_log Math_cos dfuel (List.length enabled) g) as [[zs g1]|] eqn:E;
      [|discriminate].
    intros H. apply IH in H; [|lia]. destruct H as (scores & Hs & ->).
    exists (weighted_sum enabled zs 0 :: scores). split.
    + replace (Z.to_nat (n - i)) with (S (Z.to_nat (n - (i + 1)))) by lia.
      cbn [trial_scores]. rewrite E, Hs. reflexivity.
    + unfold successes. cbn [filter].
      destruct (threshold <? weighted_sum enabled zs 0)%float; cbn [List.length]; lia.
  - intros H. injection H as <- <-. replace (n - i) with 0 by lia.
    exists []. split; [reflexivity | unfold successes; cbn; lia].
Qed.

Lemma label_of_spec (p : float) : label_spec p (label_of p).
Proof.
  unfold label_spec, label_of.
  assert (H36 : key 0.33 < key 0.66).
  { assert (H : (0.33 <? 0.66)%float = true) by reflexivity.
    apply ltb_true_not_nan in H. tauto. }
  split; [|split].
  - intros ->. reflexivity.
  - intros H1 H2. rewrite H2.
    apply leb_true_not_nan in H1. destruct H1 as (N1 & N2 & K).
    rewrite ltb_key by assumption.
    destruct (Z.ltb_spec (key p) (key 0.33)); [lia | reflexivity].
  - intros H1. apply leb_true_not_nan in H1. destruct H1 as (N1 & N2 & K).
    rewrite !ltb_key by (assumption || reflexivity).
    destruct (Z.ltb_spec (key p) (key 0.33)); [lia|].
    destruct (Z.ltb_spec (key p) (key 0.66)); [lia | reflexivity].
Qed.

(** ** Unseeded requests are answered *)

Lemma draw_nonzero_zero_free (fuel : nat) (s : Stream) :
  zero_free s ->
  exists u s', draw_nonzero (S fuel) (SystemRandom s) = Some (u, SystemRandom s') /\
               zero_free s'.
Proof.
  intros Hz. cbn [draw_nonzero rng Math_random_next].
  rewrite (Hz (position s)). eexists _, _. split; [reflexivity|].
  intros k. apply Hz.
Qed.

Lemma randn_zero_free (fuel : nat) (s : Stream) :
  zero_free s ->
  exists z s', randn Math_log Math_cos (S fuel) (SystemRandom s) = Some (z, SystemRandom s') /\
               zero_free s'.
Proof.
  intros Hz. unfold randn.
  destruct (draw_nonzero_zero_free fuel s Hz) as (u & s1 & -> & Hz1).
  destruct (draw_nonzero_zero_free fuel s1 Hz1) as (v & s2 & -> & Hz2).
  eauto.
Qed.

Lemma trial_score_zero_free (fuel : nat) (enabled : list Assumption) (acc : float)
    (s : Stream) :
  zero_free s ->
  exists score s',
    trial_score Math_log Math_cos (S fuel) enabled acc (SystemRandom s)
    = Some (score, SystemRandom s') /\ zero_free s'.
Proof.
  revert acc s. induction enabled as [|a rest IH]; intros acc s Hz; cbn [trial_score].
  - eauto.
  - destruct (randn_zero_free fuel s Hz) as (z & s1 & -> & Hz1).
    apply IH, Hz1.
Qed.

Lemma sim_loop_zero_free (dfuel fuel : nat) (n : Z) (threshold : float)
    (enabled : list Assumption) (i success : Z) (s : Stream) :
  zero_free s -> 0 <= i <= n -> n < 2 ^ 53 -> (Z.to_nat (n - i) < fuel)%nat ->
  exists total g',
    sim_loop Math_log Math_cos (S dfuel) fuel (Js.of_N n) threshold enabled i success
      (SystemRandom s) = Some (total, g').
Proof.
  intros Hz Hi Hn. revert i success s Hz Hi.
  induction fuel as [|fuel IH]; intros i success s Hz Hi Hf; [lia|].
  cbn [sim_loop]. rewrite of_N_ltb by lia.
  destruct (Z.ltb_spec i n) as [Hlt | Hge].
  - destruct (trial_score_zero_free dfuel enabled 0 s Hz) as (score & s1 & -> & Hz1).
    apply IH; [exact Hz1 | lia | lia].
  - eauto.
Qed.

Lemma POST_unseeded_returns (body : SimRequest) (random : Stream) :
  r_seed body = None -> zero_free random ->
  exists resp, POST Math_log Math_cos (Z.to_nat 300001) body random = Some resp.
Proof.
  intros Hseed Hz. unfold POST, request_rng. rewrite Hseed.
  destruct (request_iterations_int body) as (n & Hn & ->).
  replace (Z.to_nat 300001) with (S (Z.to_nat 300000)) by lia.
  destruct (sim_loop_zero_free (Z.to_nat 300000) (S (Z.to_nat 300000)) n
              (request_threshold body) (request_enabled body) 0 0 random Hz)
    as (total & g' & ->).
  - lia.
  - apply Z.le_lt_trans with 300000; [lia | reflexivity].
  - lia.
  - eauto.
Qed.

(** ** The claims about the HTTP route *)


(** C2.  The response's probability is the number of trials whose score
    exceeds the threshold divided by the iteration count; it lies in
    [[0, 1]], and the label is the function of it given by the cut points
    [0.33] and [0.66] (exactly [0.33] is MEDIUM, exactly [0.66] is HIGH). *)
Theorem C2_probability_and_label
    (fuel : nat) (body : SimRequest) (random : Stream) (resp : SimResponse) :
  POST Math_log Math_cos fuel body random = Some resp ->
  exists (n : nat) (scores : list float) (g' : Rng),
    1000 <= Z.of_nat n <= 300000 /\
    iterations resp = Js.of_N (Z.of_nat n) /\
    trial_scores Math_log Math_cos fuel n (request_enabled body)
      (request_rng body random) = Some (scores, g') /\
    List.length scores = n /\
    probabilitySuccess resp
    = (Js.of_N (successes (summary_threshold resp) scores) / iterations resp)%float /\
    (0 <=? probabilitySuccess resp)%float = true /\
    (probabilitySuccess resp <=? 1)%float = true /\
    label resp = label_of (probabilitySuccess resp) /\
    label_spec (probabilitySuccess resp) (label resp) /\
    label_of 0.33 = MEDIUM /\ label_of 0.66 = HIGH.
Proof.
  unfold POST. destruct (request_iterations_int body) as (n & Hn & En).
  rewrite En.
  destruct (sim_loop _ _ _ _ _ _ _ _ _ _) as [[total g']|] eqn:E; [|discriminate].
  intros H. injection H as <-.
  cbn [iterations probabilitySuccess label summary_threshold].
  assert (Hn53 : n < 2 ^ 53) by (apply Z.le_lt_trans with 300000; [lia | reflexivity]).
  apply sim_loop_spec in E; [|lia|exact Hn53].
  destruct E as (scores & Hs & ->). rewrite Z.sub_0_r in Hs.
  pose proof (trial_scores_length _ _ _ _ _ _ Hs) as Hlen.
  pose proof (successes_bounds (request_threshold body) scores) as Hb.
  exists (Z.to_nat n), scores, g'.
  rewrite Z2Nat.id by lia. cbn [Z.add].
  destruct (of_N_div_unit (successes (request_threshold body) scores) n) as [H0 H1];
    [lia | lia |].
  split; [lia|]. split; [reflexivity|]. split; [exact Hs|]. split; [exact Hlen|].
  split; [reflexivity|]. split; [exact H0|]. split; [exact H1|].
  split; [reflexivity|]. split; [apply label_of_spec|]. split; reflexivity.
Qed.

(** C3.  Two runs of a request with the same seed, assumptions, iteration
    count and threshold return the same response, whatever the state of
    [Math.random] and the bounds given to the loops: the probability is
    bit-identical.  Once one run has returned, every run whose loops are
    given at least the same bounds returns too, with that response. *)
Theorem C3_seeded_runs_agree
    (fuel1 fuel2 : nat) (random1 random2 : Stream)
    (assumptions : list Assumption) (iters threshold : option float) (seed : float)
    (resp1 : SimResponse) :
  let body := {| r_assumptions := assumptions;
                 r_iterations := iters;
                 r_threshold := threshold;
                 r_seed := Some seed |} in
  POST Math_log Math_cos fuel1 body random1 = Some resp1 ->
  (forall resp2,
     POST Math_log Math_cos fuel2 body random2 = Some resp2 ->
     probabilitySuccess resp1 = probabilitySuccess resp2 /\ resp1 = resp2) /\
  ((fuel1 <= fuel2)%nat -> POST Math_log Math_cos fuel2 body random2 = Some resp1).
Proof.
  intros body. unfold POST, request_rng. cbn [r_seed body].
  destruct (sim_loop _ _ fuel1 fuel1 _ _ _ _ _ _) as [[t1 g1]|] eqn:E1; [|discriminate].
  intros H1. injection H1 as <-. split.
  - intros resp2.
    destruct (sim_loop _ _ fuel2 fuel2 _ _ _ _ _ _) as [[t2 g2]|] eqn:E2; [|discriminate].
    pose proof (sim_loop_det _ _ _ _ _ _ _ _ _ _ _ _ E1 E2) as H.
    injection H as -> ->. intros H2. injection H2 as <-. split; reflexivity.
  - intros Hle. rewrite (sim_loop_mono _ _ _ _ _ _ _ _ _ _ _ Hle Hle E1). reflexivity.
Qed.

(** Once the sampler's loops have ended in every trial, the outer loop
    returns the number of scores above the threshold. *)
Lemma sim_loop_of_trial_scores (dfuel fuel : nat) (n : Z) (threshold : float)
    (enabled : list Assumption) (i success : Z) (g g' : Rng) (scores : list float) :
  0 <= i <= n -> n < 2 ^ 53 -> (Z.to_nat (n - i) < fuel)%nat ->
  trial_scores Math_log Math_cos dfuel (Z.to_nat (n - i)) enabled g = Some (scores, g') ->
  sim_loop Math_log Math_cos dfuel fuel (Js.of_N n) threshold enabled i success g
  = Some (success + successes threshold scores, g').
Proof.
  intros Hi Hn. revert i success g scores Hi.
  induction fuel as [|fuel IH]; intros i success g scores Hi Hf; [lia|].
  cbn [sim_loop]. rewrite of_N_ltb by lia.
  destruct (Z.ltb_spec i n) as [Hlt | Hge].
  - replace (Z.to_nat (n - i)) with (S (Z.to_nat (n - (i + 1)))) by lia.
    cbn [trial_scores]. rewrite trial_score_weighted_sum.
    destruct (normals Math_log Math_cos dfuel (List.length enabled) g) as [[zs g1]|];
      [|discriminate].
    destruct (trial_scores Math_log Math_cos dfuel (Z.to_nat (n - (i + 1))) enabled g1)
      as [[rest g2]|] eqn:E; [|discriminate].
    intros H. injection H as <- <-.
    rewrite (IH (i + 1) _ g1 rest) by (try exact E; lia).
    do 2 f_equal. unfold successes. cbn [filter].
    destruct (threshold <? weighted_sum enabled zs 0)%float; cbn [List.length]; lia.
  - replace (n - i) with 0 by lia. cbn [trial_scores].
    intros H. injection H as <- <-. do 2 f_equal. unfold successes. cbn. lia.
Qed.

(** [POST] has no branch that refuses a request: with room for the trials,
    the only way to be left without a response is a sampler loop that is
    still drawing zeros. *)
Lemma POST_unanswered (body : SimRequest) :
  exists n,
    1000 <= n <= 300000 /\ request_iterations body = Js.of_N n /\
    forall fuel random,
      (Z.to_nat n < fuel)%nat ->
      (POST Math_log Math_cos fuel body random = None <->
       trial_scores Math_log Math_cos fuel (Z.to_nat n) (request_enabled body)
         (request_rng body random) = None).
Proof.
  destruct (request_iterations_int body) as (n & Hn & En).
  exists n. split; [exact Hn|]. split; [exact En|].
  intros fuel random Hf. unfold POST. rewrite En.
  assert (Hn53 : n < 2 ^ 53) by (apply Z.le_lt_trans with 300000; [lia | reflexivity]).
  split.
  - destruct (trial_scores Math_log Math_cos fuel (Z.to_nat n) (request_enabled body)
                (request_rng body random)) as [[scores g']|] eqn:E; [|reflexivity].
    rewrite (sim_loop_of_trial_scores fuel fuel n (request_threshold body)
               (request_enabled body) 0 0 (request_rng body random) g' scores);
      [discriminate | lia | exact Hn53 | rewrite Z.sub_0_r; exact Hf
      | rewrite Z.sub_0_r; exact E].
  - destruct (sim_loop Math_log Math_cos fuel fuel (Js.of_N n) (request_threshold body)
                (request_enabled body) 0 0 (request_rng body random))
      as [[total g']|] eqn:E; [|reflexivity].
    apply sim_loop_spec in E; [|lia|exact Hn53].
    destruct E as (scores & Hs & _). rewrite Z.sub_0_r in Hs. rewrite Hs. discriminate.
Qed.

End HttpRoute.

(** * Sorting with a comparator *)

Section Sorting.

Context {A : Type}.
Variable cmp : A -> A -> float.

Lemma sort_insert_perm (x : A) (l : list A) :
  Permutation (x :: l) (sort_insert cmp x l).
Proof.
  induction l as [|y l IH]; cbn [sort_insert]; [reflexivity|].
  destruct (0 <? cmp x y)%float; [|reflexivity].
  rewrite perm_swap. now constructor.
Qed.

Lemma js_sort_perm (l : list A) : Permutation l (js_sort cmp l).
Proof.
  unfold js_sort. induction l as [|x l IH]; cbn [fold_right]; [reflexivity|].
  rewrite <- sort_insert_perm. now constructor.
Qed.

Lemma js_sort_length (l : list A) : List.length (js_sort cmp l) = List.length l.
Proof. symmetry. apply Permutation_length, js_sort_perm. Qed.

(** When the comparator agrees with an integer key on the elements that
    satisfy [ok], the sort orders them by key and keeps equal keys in their
    original order. *)
Variable K : A -> Z.
Variable ok : A -> Prop.
Hypothesis cmp_key :
  forall x y, ok x -> ok y -> (0 <? cmp x y)%float = (K y <? K x).

Lemma sort_insert_sorted (x : A) (l : list A) :
  ok x -> Forall ok l -> key_sorted K l -> key_sorted K (sort_insert cmp x l).
Proof.
  intros Hx Hl Hs. induction Hs as [|y l Hs IH Hy]; cbn [sort_insert].
  - repeat constructor.
  - apply Forall_cons_iff in Hl. destruct Hl as [Hoky Hl].
    rewrite cmp_key by assumption.
    destruct (Z.ltb_spec (K y) (K x)) as [Hlt | Hge].
    + constructor; [apply IH, Hl|].
      apply (Permutation_Forall (sort_insert_perm x l)).
      constructor; [lia | exact Hy].
    + constructor; [constructor; assumption|].
      constructor; [exact Hge|].
      eapply Forall_impl; [|exact Hy]. cbn. intros; lia.
Qed.

Lemma js_sort_ok (l : list A) : Forall ok l -> Forall ok (js_sort cmp l).
Proof. apply Permutation_Forall, js_sort_perm. Qed.

Lemma js_sort_sorted (l : list A) : Forall ok l -> key_sorted K (js_sort cmp l).
Proof.
  induction l as [|x l IH]; intros H.
  - constructor.
  - apply Forall_cons_iff in H. destruct H as [Hx Hl].
    change (js_sort cmp (x :: l)) with (sort_insert cmp x (js_sort cmp l)).
    apply sort_insert_sorted; auto using js_sort_ok.
Qed.

Lemma sort_insert_stable (k : Z) (x : A) (l : list A) :
  ok x -> Forall ok l ->
  filter (fun a => K a =? k) (sort_insert cmp x l)
  = filter (fun a => K a =? k) (x :: l).
Proof.
  intros Hx Hl. induction l as [|y l IH]; cbn [sort_insert]; [reflexivity|].
  apply Forall_cons_iff in Hl. destruct Hl as [Hy Hl].
  rewrite cmp_key by assumption.
  destruct (Z.ltb_spec (K y) (K x)) as [Hlt | Hge]; [|reflexivity].
  cbn [filter] in *. rewrite (IH Hl).
  destruct (Z.eqb_spec (K y) k), (Z.eqb_spec (K x) k); try reflexivity. lia.
Qed.

Lemma js_sort_stable (k : Z) (l : list A) :
  Forall ok l ->
  filter (fun a => K a =? k) (js_sort cmp l) = filter (fun a => K a =? k) l.
Proof.
  induction l as [|x l IH]; intros H; [reflexivity|].
  apply Forall_cons_iff in H. destruct H as [Hx Hl].
  change (js_sort cmp (x :: l)) with (sort_insert cmp x (js_sort cmp l)).
  rewrite sort_insert_stable by auto using js_sort_ok.
  cbn [filter]. now rewrite IH.
Qed.

End Sorting.

Lemma key_sorted_nth {A} (K : A -> Z) (l : list A) (d : A) (i j : nat) :
  key_sorted K l -> (i <= j < List.length l)%nat -> K (nth i l d) <= K (nth j l d).
Proof.
  intros Hs. revert i j. induction Hs as [|x l Hs IH Hx]; intros i j Hij.
  - cbn in Hij. lia.
  - destruct i as [|i], j as [|j]; cbn [nth List.length] in *; try lia.
    + rewrite Forall_forall in Hx. apply Hx, nth_In. lia.
    + apply IH. lia.
Qed.

(** * The MCP serverless function *)

(** ** Division by a zero mean *)

Lemma eqb_zero_spec (x : float) :
  (x =? 0)%float = match Prim2SF x with S754_zero _ => true | _ => false end.
Proof.
  rewrite eqb_spec. change (Prim2SF 0) with (S754_zero false).
  destruct (Prim2SF x) as [s|s| |s m e]; cbn; try reflexivity; destruct s; reflexivity.
Qed.

(** [|d / z * 100|] for a zero [z]: NaN when [d] is zero or NaN, and
    [+Infinity] otherwise. *)
Lemma abs_div_zero_times_100 (d z : float) :
  (z =? 0)%float = true ->
  Js.Math_abs (d / z * 100)%float
  = if is_nan d || (d =? 0)%float then nan else infinity.
Proof.
  intros Hz. rewrite eqb_zero_spec in Hz.
  rewrite is_nan_spec, eqb_zero_spec.
  apply Prim2SF_inj. unfold Js.Math_abs.
  rewrite abs_spec, mul_spec, div_spec.
  change (Prim2SF 100) with (S754_finite false 7036874417766400 (-46)).
  destruct (Prim2SF z) as [sz| | |]; try discriminate.
  destruct (Prim2SF d) as [sd|sd| |sd md ed]; reflexivity.
Qed.

(** ** The simulation never throws on a positive trial count *)

Section Mcp.

Variable Math_log : float -> float.
Variable Math_cos : float -> float.

Lemma sample_variable_ok (config : VarConfig) (s : Stream) :
  exists v s', sample_variable Math_log Math_cos config s = Ok (v, s').
Proof. unfold sample_variable, bind, Math_random, ret. cbn. eauto. Qed.

Lemma draw_samples_ok (variables : Variables) (samples : list (string * float))
    (s : Stream) :
  exists r s', draw_samples Math_log Math_cos variables samples s = Ok (r, s').
Proof.
  revert samples s. induction variables as [|[name config] rest IH]; intros samples s.
  - cbn. unfold ret. eauto.
  - cbn [draw_samples]. unfold bind at 1.
    destruct (sample_variable_ok config s) as (v & s1 & ->). apply IH.
Qed.

Lemma trial_ok (variables : Variables) (s : Stream) :
  exists v s', trial Math_log Math_cos variables s = Ok (v, s').
Proof.
  unfold trial, bind. destruct (draw_samples_ok variables [] s) as (r & s1 & ->).
  unfold ret. eauto.
Qed.

Lemma repeatM_ok {A} (m : M A) (n : nat) (s : Stream) :
  (forall s0, exists a s1, m s0 = Ok (a, s1)) ->
  exists l s', repeatM n m s = Ok (l, s') /\ List.length l = n.
Proof.
  intros Hm. revert s. induction n as [|n IH]; intros s; cbn [repeatM].
  - unfold ret. eauto.
  - unfold bind at 1. destruct (Hm s) as (a & s1 & ->).
    unfold bind at 1. destruct (IH s1) as (l & s2 & -> & Hl).
    unfold ret. eexists _, _. split; [reflexivity|]. cbn [List.length]. now rewrite Hl.
Qed.

Lemma trial_outcomes_spec (variables : Variables) (n : nat) (s : Stream) :
  exists s',
    repeatM n (trial Math_log Math_cos variables) s
    = Ok (trial_outcomes Math_log Math_cos variables n s, s') /\
    List.length (trial_outcomes Math_log Math_cos variables n s) = n.
Proof.
  unfold trial_outcomes.
  destruct (repeatM_ok (trial Math_log Math_cos variables) n s (trial_ok variables))
    as (l & s' & E & Hl).
  rewrite E. eauto.
Qed.

Lemma summarize_ok (outcomes : list float) (n : float) (s : Stream) :
  outcomes <> [] ->
  summarize outcomes n s
  = Ok ({| mean := (fold_left PrimFloat.add (tl outcomes) (hd nan outcomes) / n)%float;
           median := at_index outcomes (Js.Math_floor (n / 2));
           p10 := at_index outcomes (Js.Math_floor (n * 0.1));
           p90 := at_index outcomes (Js.Math_floor (n * 0.9));
           prob_positive :=
             (Js.of_N (Z.of_nat (List.length
                 (filter (fun x => (0 <? x)%float) outcomes))) / n)%float |}, s).
Proof.
  destruct outcomes as [|x rest]; [congruence|]. intros _. reflexivity.
Qed.

(** The result of a run, in terms of its trial outcomes. *)
Lemma runSimulation_spec (variables : Variables) (n : nat) (s : Stream) :
  (1 <= n)%nat ->
  exists s',
    runSimulation Math_log Math_cos variables n s
    = summarize (js_sort PrimFloat.sub (trial_outcomes Math_log Math_cos variables n s))
        (Js.of_N (Z.of_nat n)) s' /\
    exists r, summarize (js_sort PrimFloat.sub
                           (trial_outcomes Math_log Math_cos variables n s))
                (Js.of_N (Z.of_nat n)) s' = Ok (r, s').
Proof.
  intros Hn. destruct (trial_outcomes_spec variables n s) as (s' & E & Hl).
  exists s'. split.
  - unfold runSimulation, bind. rewrite E. reflexivity.
  - eexists. apply summarize_ok. intros Hnil.
    apply (f_equal (@List.length float)) in Hnil.
    rewrite js_sort_length, Hl in Hnil. cbn in Hnil. lia.
Qed.

Lemma runSimulation_ok (variables : Variables) (n : nat) (s : Stream) :
  (1 <= n)%nat ->
  exists r s', runSimulation Math_log Math_cos variables n s = Ok (r, s').
Proof.
  intros Hn. destruct (runSimulation_spec variables n s Hn) as (s' & E & r & Er).
  exists r, s'. now rewrite E.
Qed.

Lemma five_thousand_pos : (1 <= 5000)%nat.
Proof. apply Nat.ltb_lt. reflexivity. Qed.

Lemma ten_thousand_pos : (1 <= 10000)%nat.
Proof. apply Nat.ltb_lt. reflexivity. Qed.

(** ** Percentiles *)

Lemma sub_comparator (x y : float) :
  not_nan x -> not_nan y -> (0 <? x - y)%float = (key y <? key x).
Proof.
  intros Hx Hy. rewrite sub_pos by assumption. apply ltb_key; assumption.
Qed.

Lemma key_sorted_ascending (l : list float) :
  Forall not_nan l -> key_sorted key l -> ascending l.
Proof.
  intros Hn Hs. induction Hs as [|x l Hs IH Hx].
  - constructor.
  - apply Forall_cons_iff in Hn. destruct Hn as [Nx Nl].
    constructor; [apply IH, Nl|].
    rewrite Forall_forall in *. intros y Hy. apply leb_of_keys; auto.
Qed.

Lemma sorted_at_indices (l : list float) (i j : nat) :
  Forall not_nan l -> key_sorted key l -> (i <= j < List.length l)%nat ->
  (nth i l nan <=? nth j l nan)%float = true.
Proof.
  intros Hn Hs Hij. rewrite Forall_forall in Hn.
  apply leb_of_keys.
  - apply Hn, nth_In. lia.
  - apply Hn, nth_In. lia.
  - apply key_sorted_nth; assumption.
Qed.

(** The three percentile indices are in order and inside the array, for
    every trial count that is an exact number. *)
Lemma percentile_indices_in_range (n : nat) :
  1 <= Z.of_nat n < 2 ^ 53 -> percentile_indices_ok n = true.
Proof.
  intros Hn. unfold percentile_indices_ok.
  destruct (percentile_keys (Z.of_nat n) Hn)
    as ((H0 & H10) & H50 & H90 & (m10 & e10 & E10) & (m50 & e50 & E50) & (m90 & e90 & E90)).
  pose proof pow1074_pos as HP.
  assert (Hlt : Z.of_nat n * 2 ^ 1074 < 2 ^ 53 * 2 ^ 1074)
    by (apply Z.mul_lt_mono_pos_r; lia).
  rewrite (index_of_floor _ _ _ E10), (index_of_floor _ _ _ E50),
    (index_of_floor _ _ _ E90) by lia.
  set (k10 := key (Js.of_N (Z.of_nat n) * 0.1)) in *.
  set (k50 := key (Js.of_N (Z.of_nat n) / 2)) in *.
  set (k90 := key (Js.of_N (Z.of_nat n) * 0.9)) in *.
  assert (D0 : 0 <= k10 / 2 ^ 1074) by (apply Z.div_pos; lia).
  assert (D1 : k10 / 2 ^ 1074 <= k50 / 2 ^ 1074) by (apply Z.div_le_mono; lia).
  assert (D2 : k50 / 2 ^ 1074 <= k90 / 2 ^ 1074) by (apply Z.div_le_mono; lia).
  assert (D3 : k90 / 2 ^ 1074 < Z.of_nat n) by (apply Z.div_lt_upper_bound; lia).
  set (q10 := k10 / 2 ^ 1074) in *. set (q50 := k50 / 2 ^ 1074) in *.
  set (q90 := k90 / 2 ^ 1074) in *.
  rewrite !andb_true_iff. repeat split.
  - apply Nat.leb_le. lia.
  - apply Nat.leb_le. lia.
  - apply Nat.ltb_lt. lia.
Qed.

Lemma filter_length_perm {A} (f : A -> bool) (l l' : list A) :
  Permutation l l' -> List.length (filter f l) = List.length (filter f l').
Proof.
  induction 1 as [|x l l' _ IH|x y l|l l' l'' _ IH1 _ IH2]; cbn [filter].
  - reflexivity.
  - destruct (f x); cbn [List.length]; now rewrite IH.
  - destruct (f x), (f y); reflexivity.
  - now rewrite IH1.
Qed.

(** C4, as amended.  A run over [n] trials, for a trial count [n >= 1]
    that is an exact number (the program uses 10000 and 5000), returns.
    Its result is read from [sorted], the array of the [n] outcomes after
    [sort((a, b) => a - b)], a rearrangement of them:
    [mean = sum / n], [median = sorted[floor(n / 2)]],
    [p10 = sorted[floor(n * 0.1)]], [p90 = sorted[floor(n * 0.9)]], the
    three indices being in order and inside the array, and
    [prob_positive = count(outcome > 0) / n].  When no outcome is NaN,
    [sorted] is ascending and [p10 <= median <= p90]. *)
Theorem C4_percentiles_of_sorted_outcomes
    (variables : Variables) (n : nat) (s : Stream) :
  let outcomes := trial_outcomes Math_log Math_cos variables n s in
  let nf := Js.of_N (Z.of_nat n) in
  let i10 := index_of (Js.Math_floor (nf * 0.1)) in
  let i50 := index_of (Js.Math_floor (nf / 2)) in
  let i90 := index_of (Js.Math_floor (nf * 0.9)) in
  1 <= Z.of_nat n < 2 ^ 53 ->
  exists sorted r s',
    runSimulation Math_log Math_cos variables n s = Ok (r, s') /\
    List.length outcomes = n /\
    Permutation outcomes sorted /\
    (i10 <= i50)%nat /\ (i50 <= i90)%nat /\ (i90 < n)%nat /\
    mean r = (fold_left PrimFloat.add (tl sorted) (hd nan sorted) / nf)%float /\
    median r = nth i50 sorted nan /\
    p10 r = nth i10 sorted nan /\
    p90 r = nth i90 sorted nan /\
    prob_positive r
    = (Js.of_N (Z.of_nat (List.length (filter (fun x => (0 <? x)%float) outcomes)))
       / nf)%float /\
    (Forall not_nan outcomes ->
     ascending sorted /\
     (p10 r <=? median r)%float = true /\
     (median r <=? p90 r)%float = true).
Proof.
  intros outcomes nf i10 i50 i90 Hrange.
  pose proof (percentile_indices_in_range n Hrange) as Hidx.
  unfold percentile_indices_ok in Hidx. fold nf in Hidx.
  apply andb_true_iff in Hidx. destruct Hidx as [Hidx H90].
  apply andb_true_iff in Hidx. destruct Hidx as [H10 H50].
  apply Nat.leb_le in H10, H50. apply Nat.ltb_lt in H90.
  fold i10 i50 in H10. fold i50 i90 in H50. fold i90 in H90.
  assert (Hn : (1 <= n)%nat) by lia.
  destruct (trial_outcomes_spec variables n s) as (s' & E & Hl).
  fold outcomes in E, Hl.
  set (sorted := js_sort PrimFloat.sub outcomes).
  assert (Hp : Permutation outcomes sorted) by apply js_sort_perm.
  assert (Hsl : List.length sorted = n) by (subst sorted; now rewrite js_sort_length).
  assert (Hne : sorted <> []).
  { intros Hnil. rewrite Hnil in Hsl. cbn in Hsl. lia. }
  exists sorted. eexists _, s'. split.
  { unfold runSimulation, bind. rewrite E. fold sorted. fold nf.
    apply summarize_ok, Hne. }
  cbn [mean median p10 p90 prob_positive]. unfold at_index. fold i10 i50 i90.
  split; [exact Hl|]. split; [exact Hp|].
  split; [exact H10|]. split; [exact H50|]. split; [exact H90|].
  split; [reflexivity|]. split; [reflexivity|]. split; [reflexivity|].
  split; [reflexivity|].
  split; [now rewrite (filter_length_perm _ _ _ Hp)|].
  intros Hnan.
  assert (Hsn : Forall not_nan sorted) by (apply js_sort_ok; exact Hnan).
  assert (Hss : key_sorted key sorted).
  { apply (js_sort_sorted PrimFloat.sub key not_nan sub_comparator). exact Hnan. }
  split; [apply key_sorted_ascending; assumption|].
  split; apply sorted_at_indices; auto; lia.
Qed.

(** The two trial counts of the program are in range. *)
Lemma trial_counts_in_range :
  1 <= Z.of_nat 10000 < 2 ^ 53 /\ 1 <= Z.of_nat 5000 < 2 ^ 53.
Proof. repeat split; first [apply Z.leb_le | apply Z.ltb_lt]; vm_compute; reflexivity. Qed.

(** ** Sensitivity rows *)

Lemma sensitivity_row_spec (variables : Variables) (baseResults : Results)
    (name : string) (config : VarConfig) (s : Stream) :
  exists resLow resHigh s1 s2,
    runSimulation Math_log Math_cos
      (override variables name (with_base config (v_min config))) 5000 s
    = Ok (resLow, s1) /\
    runSimulation Math_log Math_cos
      (override variables name (with_base config (v_max config))) 5000 s1
    = Ok (resHigh, s2) /\
    sensitivity_row Math_log Math_cos variables baseResults (name, config) s
    = Ok ({| variable := name;
             row_base := v_base config;
             row_min := v_min config;
             row_max := v_max config;
             outcome_at_low := mean resLow;
             outcome_at_high := mean resHigh;
             impact_percent :=
               Js.Math_abs ((mean resHigh - mean resLow) / mean baseResults * 100)%float
          |}, s2).
Proof.
  destruct (runSimulation_ok (override variables name (with_base config (v_min config)))
              5000 s five_thousand_pos) as (resLow & s1 & E1).
  destruct (runSimulation_ok (override variables name (with_base config (v_max config)))
              5000 s1 five_thousand_pos) as (resHigh & s2 & E2).
  exists resLow, resHigh, s1, s2. split; [exact E1|]. split; [exact E2|].
  unfold sensitivity_row, bind. rewrite E1, E2. reflexivity.
Qed.

Lemma sensitivity_row_ok (variables : Variables) (baseResults : Results)
    (entry : string * VarConfig) (s : Stream) :
  exists row s',
    sensitivity_row Math_log Math_cos variables baseResults entry s = Ok (row, s') /\
    row_for baseResults entry row.
Proof.
  destruct entry as [name config].
  destruct (sensitivity_row_spec variables baseResults name config s)
    as (resLow & resHigh & s1 & s2 & _ & _ & E).
  eexists _, _. split; [exact E|]. repeat split.
Qed.

Lemma mapM_rows (variables : Variables) (baseResults : Results)
    (entries : Variables) (s : Stream) :
  exists rows s',
    mapM (sensitivity_row Math_log Math_cos variables baseResults) entries s
    = Ok (rows, s') /\
    Forall2 (row_for baseResults) entries rows.
Proof.
  revert s. induction entries as [|entry rest IH]; intros s; cbn [mapM].
  - unfold ret. eauto.
  - unfold bind at 1.
    destruct (sensitivity_row_ok variables baseResults entry s) as (row & s1 & -> & Hr).
    unfold bind at 1. destruct (IH s1) as (rows & s2 & -> & Hrs).
    unfold ret. eauto.
Qed.

Lemma unsorted_rows_spec (variables : Variables) (baseResults : Results) (s : Stream) :
  exists s',
    mapM (sensitivity_row Math_log Math_cos variables baseResults) variables s
    = Ok (unsorted_rows Math_log Math_cos variables baseResults s, s') /\
    Forall2 (row_for baseResults) variables
      (unsorted_rows Math_log Math_cos variables baseResults s).
Proof.
  unfold unsorted_rows.
  destruct (mapM_rows variables baseResults variables s) as (rows & s' & E & H).
  rewrite E. eauto.
Qed.

Lemma sensitivity_spec (variables : Variables) (baseResults : Results) (s : Stream) :
  exists s',
    sensitivity Math_log Math_cos variables baseResults s
    = Ok (js_sort by_impact_desc
            (unsorted_rows Math_log Math_cos variables baseResults s), s').
Proof.
  destruct (unsorted_rows_spec variables baseResults s) as (s' & E & _).
  exists s'. unfold sensitivity, bind. rewrite E. reflexivity.
Qed.

Lemma rows_variables (baseResults : Results) (entries : Variables)
    (rows : list SensitivityRow) :
  Forall2 (row_for baseResults) entries rows -> map variable rows = map fst entries.
Proof.
  induction 1 as [|entry row entries rows Hr _ IH]; cbn [map]; [reflexivity|].
  destruct Hr as (-> & _). now rewrite IH.
Qed.

Lemma rows_impact_nonneg (baseResults : Results) (entries : Variables)
    (rows : list SensitivityRow) :
  Forall2 (row_for baseResults) entries rows ->
  Forall (fun row => 0 <= key (impact_percent row)) rows.
Proof.
  induction 1 as [|entry row entries rows Hr _ IH]; constructor; [|exact IH].
  destruct Hr as (_ & _ & _ & ->). unfold Js.Math_abs.
  destruct (abs_key ((outcome_at_high row - outcome_at_low row)
                     / mean baseResults * 100)%float) as [-> _].
  lia.
Qed.

(** C5, as amended.  With a base mean equal to zero the analysis throws
    nothing and every row is computed; its [impact_percent] is [+Infinity]
    when the means at the high and the low bound differ, and NaN when they
    are equal or one of them is NaN. *)
Theorem C5_zero_base_mean_gives_infinity_or_nan
    (variables : Variables) (baseResults : Results) (entry : string * VarConfig)
    (s : Stream) :
  (mean baseResults =? 0)%float = true ->
  (exists rows s', sensitivity Math_log Math_cos variables baseResults s = Ok (rows, s')) /\
  exists row s',
    sensitivity_row Math_log Math_cos variables baseResults entry s = Ok (row, s') /\
    let d := (outcome_at_high row - outcome_at_low row)%float in
    impact_percent row = if is_nan d || (d =? 0)%float then nan else infinity.
Proof.
  intros Hz. split.
  - destruct (sensitivity_spec variables baseResults s) as (s' & E). eauto.
  - destruct (sensitivity_row_ok variables baseResults entry s)
      as (row & s' & E & _ & _ & _ & Hi).
    exists row, s'. split; [exact E|].
    cbn zeta. rewrite Hi. apply abs_div_zero_times_100, Hz.
Qed.

(** ** The ranking *)

Lemma by_impact_desc_comparator (a b : SensitivityRow) :
  not_nan (impact_percent a) -> not_nan (impact_percent b) ->
  (0 <? by_impact_desc a b)%float
  = (- key (impact_percent b) <? - key (impact_percent a)).
Proof.
  intros Ha Hb. unfold by_impact_desc. rewrite sub_comparator by assumption.
  destruct (Z.ltb_spec (key (impact_percent a)) (key (impact_percent b)));
    symmetry; [apply Z.ltb_lt | apply Z.ltb_ge]; lia.
Qed.

Lemma key_sorted_descending (rows : list SensitivityRow) :
  Forall (fun row => not_nan (impact_percent row)) rows ->
  key_sorted (fun row => - key (impact_percent row)) rows ->
  descending_impact rows.
Proof.
  intros Hn Hs. induction Hs as [|x l Hs IH Hx].
  - constructor.
  - apply Forall_cons_iff in Hn. destruct Hn as [Nx Nl].
    constructor; [apply IH, Nl|].
    rewrite Forall_forall in *. intros y Hy. apply leb_of_keys; auto.
    specialize (Hx y Hy). cbn in Hx. lia.
Qed.

Lemma same_impact_filter (r : SensitivityRow) (rows : list SensitivityRow) :
  Forall (fun row => not_nan (impact_percent row)) rows ->
  not_nan (impact_percent r) ->
  filter (fun a => (impact_percent a =? impact_percent r)%float) rows
  = filter (fun a => - key (impact_percent a) =? - key (impact_percent r)) rows.
Proof.
  intros Hn Hr. apply filter_ext_in. intros a Ha.
  rewrite Forall_forall in Hn. rewrite eqb_key; [|apply Hn, Ha|exact Hr].
  destruct (Z.eqb_spec (key (impact_percent a)) (key (impact_percent r)));
    symmetry; [apply Z.eqb_eq | apply Z.eqb_neq]; lia.
Qed.

Lemma nan_impact_filter (r : SensitivityRow) (rows : list SensitivityRow) :
  is_nan (impact_percent r) = true ->
  filter (fun a => (impact_percent a =? impact_percent r)%float) rows = [].
Proof.
  intros Hr. induction rows as [|a rows IH]; cbn [filter]; [reflexivity|].
  rewrite eqb_spec. rewrite is_nan_spec in Hr.
  destruct (Prim2SF (impact_percent r)); try discriminate.
  unfold SFeqb. replace (SFcompare (Prim2SF (impact_percent a)) S754_nan) with (@None comparison)
    by (destruct (Prim2SF (impact_percent a)); reflexivity).
  exact IH.
Qed.

(** C6, as amended.  The analyzer returns one row per variable: the rows
    computed in the order of the variables, rearranged by the sort.  When
    no [impact_percent] is NaN the rows are in descending order of
    [impact_percent], and rows of equal impact keep the order of their
    variables. *)
Theorem C6_rows_sorted_by_descending_impact
    (variables : Variables) (baseResults : Results) (s : Stream) :
  let unsorted := unsorted_rows Math_log Math_cos variables baseResults s in
  exists rows s',
    sensitivity Math_log Math_cos variables baseResults s = Ok (rows, s') /\
    map variable unsorted = map fst variables /\
    Permutation unsorted rows /\
    List.length rows = List.length variables /\
    (Forall (fun row => not_nan (impact_percent row)) unsorted ->
     descending_impact rows /\ ties_keep_order unsorted rows).
Proof.
  intros unsorted.
  destruct (sensitivity_spec variables baseResults s) as (s' & E).
  destruct (unsorted_rows_spec variables baseResults s) as (s0 & _ & HF).
  fold unsorted in E, HF.
  exists (js_sort by_impact_desc unsorted), s'.
  split; [exact E|]. split; [eapply rows_variables, HF|].
  split; [apply js_sort_perm|].
  split.
  { rewrite js_sort_length. symmetry. eapply Forall2_length, HF. }
  intros Hn.
  pose proof (js_sort_ok by_impact_desc _ unsorted Hn) as Hsn.
  split.
  - apply key_sorted_descending; [exact Hsn|].
    apply (js_sort_sorted by_impact_desc _ _ by_impact_desc_comparator), Hn.
  - intros r. destruct (is_nan (impact_percent r)) eqn:Hr.
    + rewrite !nan_impact_filter by exact Hr. reflexivity.
    + rewrite !same_impact_filter by assumption.
      apply (js_sort_stable by_impact_desc _ _ by_impact_desc_comparator), Hn.
Qed.

(** ** A variable without spread *)

Lemma zero_difference_impact (d m : float) :
  (d =? 0)%float = true -> (m =? 0)%float = false -> not_nan m ->
  (Js.Math_abs (d / m * 100) =? 0)%float = true.
Proof.
  unfold not_nan. rewrite !eqb_zero_spec, is_nan_spec. unfold Js.Math_abs.
  rewrite abs_spec, mul_spec, div_spec.
  change (Prim2SF 100) with (S754_finite false 7036874417766400 (-46)).
  destruct (Prim2SF d) as [sd| | |]; try discriminate. intros _.
  destruct (Prim2SF m) as [sm|sm| |sm mm em]; try discriminate; reflexivity.
Qed.

Lemma zero_impact_rows_last (before after : list SensitivityRow) (r : SensitivityRow) :
  descending_impact (before ++ r :: after) ->
  Forall (fun row => 0 <= key (impact_percent row)) (before ++ r :: after) ->
  (impact_percent r =? 0)%float = true ->
  Forall (fun row => (impact_percent row =? 0)%float = true) after.
Proof.
  intros Hs Hk Hr. induction before as [|b before IH].
  - cbn [app] in *. apply StronglySorted_inv in Hs. destruct Hs as [_ Hall].
    apply Forall_cons_iff in Hk. destruct Hk as [_ Hk].
    assert (Kr : key (impact_percent r) = 0).
    { rewrite eqb_zero_spec in Hr. unfold key.
      destruct (Prim2SF (impact_percent r)); try discriminate. reflexivity. }
    rewrite Forall_forall in *. intros row Hrow.
    specialize (Hall row Hrow). specialize (Hk row Hrow). cbn beta in Hall, Hk.
    apply leb_true_not_nan in Hall. destruct Hall as (Nrow & _ & Hle).
    rewrite eqb_key by (assumption || reflexivity).
    apply Z.eqb_eq. rewrite key_zero. lia.
  - cbn [app] in *. apply StronglySorted_inv in Hs. destruct Hs as [Hs _].
    apply Forall_cons_iff in Hk. destruct Hk as [_ Hk]. auto.
Qed.

(** C7, as amended.  For a variable with [min = max] the low and the high
    scenario are the same variable set, simulated twice in succession on
    fresh draws; [impact_percent] is the relative difference of the two
    runs' means, which is [0] when the two means are equal and the base mean
    is a non-zero number.  A row whose impact is [0] is followed, in the
    ranking, only by rows whose impact is [0] (when no impact is NaN). *)
Theorem C7_zero_spread_variable
    (variables : Variables) (baseResults : Results)
    (name : string) (config : VarConfig) (s : Stream) :
  v_min config = v_max config ->
  let scenario := override variables name (with_base config (v_min config)) in
  (exists first second s1 s2 row,
     runSimulation Math_log Math_cos scenario 5000 s = Ok (first, s1) /\
     runSimulation Math_log Math_cos scenario 5000 s1 = Ok (second, s2) /\
     sensitivity_row Math_log Math_cos variables baseResults (name, config) s
     = Ok (row, s2) /\
     outcome_at_low row = mean first /\ outcome_at_high row = mean second /\
     impact_percent row
     = Js.Math_abs ((mean second - mean first) / mean baseResults * 100)%float /\
     ((mean second - mean first =? 0)%float = true ->
      (mean baseResults =? 0)%float = false -> not_nan (mean baseResults) ->
      (impact_percent row =? 0)%float = true)) /\
  (forall s0 rows s' before r after,
     sensitivity Math_log Math_cos variables baseResults s0 = Ok (rows, s') ->
     Forall (fun row => not_nan (impact_percent row))
       (unsorted_rows Math_log Math_cos variables baseResults s0) ->
     rows = before ++ r :: after ->
     (impact_percent r =? 0)%float = true ->
     Forall (fun row => (impact_percent row =? 0)%float = true) after).
Proof.
  intros Hmm scenario. split.
  - destruct (sensitivity_row_spec variables baseResults name config s)
      as (first & second & s1 & s2 & E1 & E2 & E).
    rewrite <- Hmm in E2. fold scenario in E1, E2.
    exists first, second, s1, s2. eexists. split; [exact E1|]. split; [exact E2|].
    split; [exact E|]. cbn [outcome_at_low outcome_at_high impact_percent].
    split; [reflexivity|]. split; [reflexivity|]. split; [reflexivity|].
    apply zero_difference_impact.
  - intros s0 rows s' before r after E Hn -> Hr.
    destruct (sensitivity_spec variables baseResults s0) as (s1 & E').
    rewrite E' in E. injection E as E _.
    destruct (unsorted_rows_spec variables baseResults s0) as (s2 & _ & HF).
    pose proof (rows_impact_nonneg _ _ _ HF) as Hk.
    apply (Permutation_Forall (js_sort_perm by_impact_desc _)) in Hk.
    rewrite E in Hk.
    refine (zero_impact_rows_last before after r _ Hk Hr).
    rewrite <- E. apply key_sorted_descending.
    + apply js_sort_ok, Hn.
    + apply (js_sort_sorted by_impact_desc _ _ by_impact_desc_comparator), Hn.
Qed.

(** ** The sampler of the MCP function *)

(** C9, at the failing input.  When [Math.random] returns [0],
    [runSimulation]'s sampler does not draw again: it evaluates
    [Math.log(0)] inside the Box-Muller expression. *)
Theorem C9_mcp_sampler_takes_log_of_zero (config : VarConfig) :
  sample_variable Math_log Math_cos config zero_first
  = Ok (Js.Math_max (v_min config)
          (Js.Math_min (v_max config)
             (v_base config
              + sqrt (-2 * Math_log 0) * Math_cos (2 * Js.Math_PI * 0.5)
                * ((v_max config - v_min config) / 4))%float),
        {| draws := draws zero_first; position := 2 |}).
Proof. reflexivity. Qed.

(** ** The protocol handler *)

(** C10.  A [tools/call] of [analyze_decision] with an empty [variables]
    object is answered by the [catch] branch: status 500 and a body with
    [isError: true], because the sensitivity list is empty and reading its
    first row's [variable] throws. *)
Theorem C10_empty_variables_answer_500 (name : string) (random : Stream) :
  handler Math_log Math_cos
    {| req_method := "POST";
       body_method := "tools/call";
       body_params :=
         Some {| p_name := "analyze_decision";
                 p_arguments := Some {| decision_name := name; variables := [] |} |} |}
    random
  = {| status := 500;
       body := ErrorFlagged (ReadPropertyOfUndefined "variable") true |}.
Proof.
  unfold handler, try_block.
  cbn [req_method body_method body_params p_name p_arguments].
  change ("POST" =? "OPTIONS")%string with false.
  change ("POST" =? "GET")%string with false.
  change ("POST" =? "POST")%string with true.
  change ("tools/call" =? "tools/list")%string with false.
  change ("tools/call" =? "tools/call")%string with true.
  change ("analyze_decision" =? "analyze_decision")%string with true.
  cbn iota. unfold analyze_decision, bind. cbn [variables decision_name].
  destruct (runSimulation_ok [] 10000 random ten_thousand_pos) as (r & s1 & ->).
  destruct (sensitivity_spec [] r s1) as (s2 & ->).
  unfold unsorted_rows. cbn [mapM]. unfold ret. cbn [js_sort fold_right].
  reflexivity.
Qed.

End Mcp.

(** * Runs on constant draws *)

Lemma skip_skip (s : Stream) (a b : N) : skip (skip s a) b = skip s (a + b).
Proof. unfold skip. cbn [draws position]. f_equal. lia. Qed.

Lemma constant_on_skip (s : Stream) (c : float) (a b len : N) :
  constant_on s c len -> (a + b <= len)%N -> constant_on (skip s a) c b.
Proof.
  unfold constant_on, skip. cbn [draws position]. intros H Hle k Hk. apply H. lia.
Qed.

Lemma constant_on_shorter (s : Stream) (c : float) (len len' : N) :
  constant_on s c len -> (len' <= len)%N -> constant_on s c len'.
Proof. unfold constant_on. intros H Hle k Hk. apply H. lia. Qed.

Lemma constant_stream_on (c : float) (p len : N) :
  constant_on {| draws := fun _ => c; position := p |} c len.
Proof. intros k _. reflexivity. Qed.

Lemma Math_random_constant (s : Stream) (c : float) (len : N) :
  constant_on s c len -> (1 <= len)%N -> Math_random s = Ok (c, skip s 1).
Proof.
  intros H Hlen. unfold Math_random, Math_random_next, skip.
  rewrite (H (position s)) by lia. rewrite N.add_1_r. reflexivity.
Qed.

Lemma sub_self_not_positive (v : float) : (0 <? v - v)%float = false.
Proof.
  destruct (is_nan v) eqn:Hn.
  - rewrite ltb_spec, sub_spec. rewrite is_nan_spec in Hn.
    destruct (Prim2SF v); try discriminate. reflexivity.
  - rewrite sub_pos by assumption. rewrite ltb_key by assumption. apply Z.ltb_irrefl.
Qed.

Lemma js_sort_repeat (v : float) (n : nat) :
  js_sort PrimFloat.sub (repeat v n) = repeat v n.
Proof.
  induction n as [|n IH]; [reflexivity|].
  change (js_sort PrimFloat.sub (repeat v (S n)))
    with (sort_insert PrimFloat.sub v (js_sort PrimFloat.sub (repeat v n))).
  rewrite IH. destruct n as [|n]; [reflexivity|].
  cbn [repeat sort_insert]. now rewrite sub_self_not_positive.
Qed.

Section ConstantDraws.

Variable Math_log : float -> float.
Variable Math_cos : float -> float.

Lemma sample_variable_constant (config : VarConfig) (s : Stream) (c : float) (len : N) :
  constant_on s c len -> (2 <= len)%N ->
  sample_variable Math_log Math_cos config s
  = Ok (sample_with (box_muller Math_log Math_cos c c) config, skip s 2).
Proof.
  intros H Hlen. unfold sample_variable, bind.
  rewrite (Math_random_constant s c len) by (assumption || lia).
  rewrite (Math_random_constant (skip s 1) c 1)
    by first [lia | apply (constant_on_skip s c 1 1 len); [assumption | lia]].
  rewrite skip_skip. reflexivity.
Qed.

Lemma draw_samples_constant (variables : Variables) (samples : list (string * float))
    (s : Stream) (c : float) (len : N) :
  constant_on s c len -> (2 * N.of_nat (List.length variables) <= len)%N ->
  draw_samples Math_log Math_cos variables samples s
  = Ok (samples_with (box_muller Math_log Math_cos c c) variables samples,
        skip s (2 * N.of_nat (List.length variables))).
Proof.
  revert samples s len.
  induction variables as [|[name config] rest IH]; intros samples s len H Hlen.
  - cbn. unfold ret, skip. rewrite N.add_0_r. destruct s; reflexivity.
  - cbn [draw_samples samples_with List.length] in *. unfold bind.
    rewrite (sample_variable_constant config s c len) by (assumption || lia).
    rewrite (IH _ (skip s 2) (len - 2)%N).
    + rewrite skip_skip. do 2 f_equal. f_equal. lia.
    + apply (constant_on_skip s c 2 (len - 2) len); [assumption | lia].
    + lia.
Qed.

Lemma trial_constant (variables : Variables) (s : Stream) (c : float) (len : N) :
  constant_on s c len -> (run_draws variables 1 <= len)%N ->
  trial Math_log Math_cos variables s
  = Ok (outcome_with (box_muller Math_log Math_cos c c) variables,
        skip s (run_draws variables 1)).
Proof.
  unfold run_draws. intros H Hlen. unfold trial, bind.
  rewrite (draw_samples_constant variables [] s c len) by (assumption || lia).
  unfold ret, outcome_with. do 3 f_equal. lia.
Qed.

Lemma repeatM_trial_constant (variables : Variables) (n : nat) (s : Stream)
    (c : float) (len : N) :
  constant_on s c len -> (run_draws variables n <= len)%N ->
  repeatM n (trial Math_log Math_cos variables) s
  = Ok (repeat (outcome_with (box_muller Math_log Math_cos c c) variables) n,
        skip s (run_draws variables n)).
Proof.
  unfold run_draws. revert s len. induction n as [|n IH]; intros s len H Hlen.
  - cbn. unfold ret, skip. rewrite N.add_0_r. destruct s; reflexivity.
  - cbn [repeatM repeat]. unfold bind at 1.
    rewrite (trial_constant variables s c len) by (unfold run_draws; assumption || lia).
    unfold bind at 1. unfold run_draws.
    rewrite (IH _ (len - 1 * (2 * N.of_nat (List.length variables)))%N).
    + unfold ret. rewrite skip_skip. do 3 f_equal. lia.
    + eapply constant_on_skip; [exact H | lia].
    + lia.
Qed.

(** A run whose draws are all [c] returns the statistics of [n] copies of
    one outcome. *)
Lemma runSimulation_constant (variables : Variables) (n : nat) (s : Stream)
    (c : float) (len : N) :
  constant_on s c len -> (run_draws variables n <= len)%N -> (1 <= n)%nat ->
  runSimulation Math_log Math_cos variables n s
  = Ok (run_with (box_muller Math_log Math_cos c c) variables n,
        skip s (run_draws variables n)).
Proof.
  intros H Hlen Hn. unfold runSimulation, bind.
  rewrite (repeatM_trial_constant variables n s c len) by assumption.
  rewrite js_sort_repeat. rewrite summarize_ok; [reflexivity|].
  destruct n; [lia | discriminate].
Qed.

Lemma trial_outcomes_constant (variables : Variables) (n : nat) (s : Stream)
    (c : float) (len : N) :
  constant_on s c len -> (run_draws variables n <= len)%N ->
  trial_outcomes Math_log Math_cos variables n s
  = repeat (outcome_with (box_muller Math_log Math_cos c c) variables) n.
Proof.
  intros H Hlen. unfold trial_outcomes.
  now rewrite (repeatM_trial_constant variables n s c len).
Qed.

Lemma override_length (variables : Variables) (name : string) (config : VarConfig) :
  List.length (override variables name config) = List.length variables.
Proof. apply length_map. Qed.

Lemma run_draws_override (variables : Variables) (name : string) (config : VarConfig)
    (n : nat) :
  run_draws (override variables name config) n = run_draws variables n.
Proof. unfold run_draws. now rewrite override_length. Qed.

(** A sensitivity row whose low run draws [c1] throughout and whose high
    run draws [c2] throughout. *)
Lemma sensitivity_row_constant (variables : Variables) (baseResults : Results)
    (entry : string * VarConfig) (s : Stream) (c1 c2 : float) :
  constant_on s c1 (run_draws variables 5000) ->
  constant_on (skip s (run_draws variables 5000)) c2 (run_draws variables 5000) ->
  sensitivity_row Math_log Math_cos variables baseResults entry s
  = Ok (row_with (box_muller Math_log Math_cos c1 c1) (box_muller Math_log Math_cos c2 c2)
          variables baseResults entry,
        skip s (2 * run_draws variables 5000)).
Proof.
  intros H1 H2. destruct entry as [name config]. unfold sensitivity_row, bind.
  rewrite (runSimulation_constant _ 5000 s c1 (run_draws variables 5000));
    [| exact H1 | rewrite run_draws_override; lia | exact five_thousand_pos].
  rewrite run_draws_override.
  rewrite (runSimulation_constant _ 5000 _ c2 (run_draws variables 5000));
    [| exact H2 | rewrite run_draws_override; lia | exact five_thousand_pos].
  rewrite run_draws_override, skip_skip. unfold ret, row_with.
  do 3 f_equal. lia.
Qed.

Lemma mapM_rows_constant (variables : Variables) (baseResults : Results)
    (entries : Variables) (p : N) (c : float) :
  mapM (sensitivity_row Math_log Math_cos variables baseResults) entries
    {| draws := fun _ => c; position := p |}
  = Ok (map (row_with (box_muller Math_log Math_cos c c) (box_muller Math_log Math_cos c c)
               variables baseResults) entries,
        {| draws := fun _ => c;
           position := (p + N.of_nat (List.length entries)
                            * (2 * run_draws variables 5000))%N |}).
Proof.
  revert p. induction entries as [|entry rest IH]; intros p.
  - cbn [mapM map List.length]. unfold ret.
    change (N.of_nat 0) with 0%N. rewrite N.mul_0_l, N.add_0_r. reflexivity.
  - cbn [mapM map List.length]. unfold bind at 1.
    rewrite (sensitivity_row_constant variables baseResults entry _ c c)
      by (unfold skip; cbn [draws position]; apply constant_stream_on).
    unfold bind at 1. unfold skip. cbn [draws position].
    rewrite IH. unfold ret. do 3 f_equal. lia.
Qed.

Lemma unsorted_rows_constant (variables : Variables) (baseResults : Results)
    (p : N) (c : float) :
  unsorted_rows Math_log Math_cos variables baseResults {| draws := fun _ => c; position := p |}
  = map (row_with (box_muller Math_log Math_cos c c) (box_muller Math_log Math_cos c c)
           variables baseResults) variables.
Proof. unfold unsorted_rows. now rewrite mapM_rows_constant. Qed.

End ConstantDraws.

(** * Examples *)

Example mulberry32_first_draw :
  fst (mulberry32_next (mulberry32 42)) = 0.6011037519201636%float.
Proof. vm_compute. reflexivity. Qed.

Example clamp_examples :
  clamp nan 1000 300000 = 1000%float /\
  clamp 5 1000 300000 = 1000%float /\
  clamp infinity 1000 300000 = 300000%float /\
  clamp neg_infinity (-1000) 1000 = (-1000)%float /\
  clamp 20000 1000 300000 = 20000%float.
Proof. repeat split; reflexivity. Qed.

Example label_boundaries :
  label_of 0.33 = MEDIUM /\ label_of 0.66 = HIGH /\
  label_of 0.32 = LOW /\ label_of 0.65 = MEDIUM /\ label_of 1 = HIGH.
Proof. repeat split; reflexivity. Qed.

Lemma seeded_run (random : Stream) :
  POST engine_log engine_cos 1001 seeded_request random = Some seeded_response.
Proof. vm_compute. reflexivity. Qed.

Example nan_request_is_answered :
  POST engine_log engine_cos 1001 nan_request (constant_stream 0.5)
  = Some {| iterations := 1000;
            probabilitySuccess := 1;
            label := HIGH;
            summary_threshold := -1000;
            summary_enabledCount := 1 |}.
Proof. vm_compute. reflexivity. Qed.

Lemma constant_stream_zero_free : zero_free (constant_stream 0.5).
Proof. intros k. reflexivity. Qed.

(** The seeded example request satisfies C2. *)
Lemma C2_witness :
  exists (n : nat) (scores : list float) (g' : Rng),
    1000 <= Z.of_nat n <= 300000 /\
    iterations seeded_response = Js.of_N (Z.of_nat n) /\
    trial_scores engine_log engine_cos 1001 n (request_enabled seeded_request)
      (request_rng seeded_request (constant_stream 0.5)) = Some (scores, g') /\
    List.length scores = n /\
    probabilitySuccess seeded_response
    = (Js.of_N (successes (summary_threshold seeded_response) scores)
       / iterations seeded_response)%float /\
    (0 <=? probabilitySuccess seeded_response)%float = true /\
    (probabilitySuccess seeded_response <=? 1)%float = true /\
    label seeded_response = label_of (probabilitySuccess seeded_response) /\
    label_spec (probabilitySuccess seeded_response) (label seeded_response) /\
    label_of 0.33 = MEDIUM /\ label_of 0.66 = HIGH.
Proof.
  exact (C2_probability_and_label engine_log engine_cos 1001 seeded_request
           (constant_stream 0.5) seeded_response (seeded_run (constant_stream 0.5))).
Defined.

(** Two runs of the seeded example request, under two states of
    [Math.random] and two bounds, agree. *)
Lemma C3_witness :
  POST engine_log engine_cos 1001 seeded_request (constant_stream 0.5)
  = Some seeded_response /\
  (forall resp2,
     POST engine_log engine_cos 2000 seeded_request three_phases = Some resp2 ->
     probabilitySuccess seeded_response = probabilitySuccess resp2 /\
     seeded_response = resp2) /\
  POST engine_log engine_cos 2000 seeded_request three_phases = Some seeded_response.
Proof.
  split; [apply seeded_run|].
  destruct (C3_seeded_runs_agree engine_log engine_cos 1001 2000
              (constant_stream 0.5) three_phases page_assumptions
              (Some 1000%float) (Some 0%float) 42%float seeded_response
              (seeded_run (constant_stream 0.5))) as [Hsame Hreturns].
  split; [exact Hsame | apply Hreturns; lia].
Defined.

(** ** Examples of the MCP function *)

Lemma Forall_not_nan_repeat (v : float) (n : nat) :
  is_nan v = false -> Forall not_nan (repeat v n).
Proof.
  intros H. apply Forall_forall. intros x Hx. apply repeat_spec in Hx. now subst.
Qed.

Lemma Forall_of_forallb {A} (f : A -> bool) (l : list A) :
  forallb f l = true -> Forall (fun x => f x = true) l.
Proof. intros H. apply Forall_forall. now apply forallb_forall. Qed.

Lemma hiring_run_draws :
  run_draws hiring 10000 = 120000%N /\ run_draws hiring 5000 = 60000%N.
Proof. split; vm_compute; reflexivity. Qed.

(** The base run of the hiring decision on constant draws. *)
Lemma hiring_base_run :
  runSimulation engine_log engine_cos hiring 10000 (constant_stream 0.5)
  = Ok (run_with (box_muller engine_log engine_cos 0.5 0.5) hiring 10000,
        skip (constant_stream 0.5) (run_draws hiring 10000)).
Proof.
  apply runSimulation_constant with (len := run_draws hiring 10000).
  - apply constant_stream_on.
  - lia.
  - exact ten_thousand_pos.
Qed.

(** The 10000 trials of the hiring decision on draws that differ: the
    outcomes come out of order, none is NaN, and the run satisfies the
    amended C4 with [p10 < median < p90]. *)
Lemma C4_witness :
  (nth 1 (trial_outcomes engine_log engine_cos hiring 10000 wandering) nan
   <? nth 0 (trial_outcomes engine_log engine_cos hiring 10000 wandering) nan)%float = true /\
  exists sorted r s',
    runSimulation engine_log engine_cos hiring 10000 wandering = Ok (r, s') /\
    Permutation (trial_outcomes engine_log engine_cos hiring 10000 wandering) sorted /\
    ascending sorted /\
    p10 r = nth 1000 sorted nan /\ median r = nth 5000 sorted nan /\
    p90 r = nth 9000 sorted nan /\
    (p10 r <=? median r)%float = true /\ (median r <=? p90 r)%float = true /\
    (p10 r <? median r)%float = true /\ (median r <? p90 r)%float = true.
Proof.
  split; [vm_compute; reflexivity|].
  assert (Hnan : Forall not_nan
                   (trial_outcomes engine_log engine_cos hiring 10000 wandering)).
  { assert (H : forallb (fun x => negb (is_nan x))
                  (trial_outcomes engine_log engine_cos hiring 10000 wandering) = true)
      by (vm_compute; reflexivity).
    apply Forall_of_forallb in H. eapply Forall_impl; [|exact H].
    intros x Hx. unfold not_nan. now apply negb_true_iff. }
  pose proof (C4_percentiles_of_sorted_outcomes engine_log engine_cos hiring 10000
                wandering (proj1 trial_counts_in_range)) as H.
  cbv zeta in H.
  assert (I10 : index_of (Js.Math_floor (Js.of_N (Z.of_nat 10000) * 0.1)) = 1000%nat)
    by (vm_compute; reflexivity).
  assert (I50 : index_of (Js.Math_floor (Js.of_N (Z.of_nat 10000) / 2)) = 5000%nat)
    by (vm_compute; reflexivity).
  assert (I90 : index_of (Js.Math_floor (Js.of_N (Z.of_nat 10000) * 0.9)) = 9000%nat)
    by (vm_compute; reflexivity).
  rewrite I10, I50, I90 in H.
  destruct H as (sorted & r & s' & E & _ & Hp & _ & _ & _ & _ & Hmed & H10 & H90 & _ & Hord).
  destruct (Hord Hnan) as (Hasc & Ha & Hb).
  assert (Hlt : match runSimulation engine_log engine_cos hiring 10000 wandering with
                | Ok (r0, _) => (p10 r0 <? median r0)%float && (median r0 <? p90 r0)%float
                | Throw _ => false
                end = true) by (vm_compute; reflexivity).
  rewrite E in Hlt. apply andb_true_iff in Hlt. destruct Hlt as [Hlt1 Hlt2].
  exists sorted, r, s'.
  split; [exact E|]. split; [exact Hp|]. split; [exact Hasc|].
  split; [exact H10|]. split; [exact Hmed|]. split; [exact H90|].
  split; [exact Ha|]. split; [exact Hb|]. split; [exact Hlt1 | exact Hlt2].
Defined.

(** C4 fails as stated: the variables of a decision that is not the hiring
    model give NaN outcomes, and [p10 <= median] is false. *)
Lemma C4_counterexample :
  exists r s',
    runSimulation engine_log engine_cos pricing 10000 (constant_stream 0.5) = Ok (r, s') /\
    is_nan (p10 r) = true /\
    (p10 r <=? median r)%float = false /\ (median r <=? p90 r)%float = false.
Proof.
  eexists _, _. split.
  - apply runSimulation_constant with (len := run_draws pricing 10000).
    + apply constant_stream_on.
    + lia.
    + exact ten_thousand_pos.
  - vm_compute. auto.
Qed.

(** A base mean of zero: the hiring variables all pinned at zero. *)
Lemma all_zero_base_run :
  runSimulation engine_log engine_cos all_zero 10000 (constant_stream 0.5)
  = Ok (run_with (box_muller engine_log engine_cos 0.5 0.5) all_zero 10000,
        skip (constant_stream 0.5) (run_draws all_zero 10000)).
Proof.
  apply runSimulation_constant with (len := run_draws all_zero 10000).
  - apply constant_stream_on.
  - lia.
  - exact ten_thousand_pos.
Qed.

Lemma all_zero_row :
  sensitivity_row engine_log engine_cos all_zero
    (run_with (box_muller engine_log engine_cos 0.5 0.5) all_zero 10000)
    ("salary"%string, config 0 0 0)
    (skip (constant_stream 0.5) (run_draws all_zero 10000))
  = Ok (row_with (box_muller engine_log engine_cos 0.5 0.5)
                 (box_muller engine_log engine_cos 0.5 0.5) all_zero
                 (run_with (box_muller engine_log engine_cos 0.5 0.5) all_zero 10000)
                 ("salary"%string, config 0 0 0),
        skip (skip (constant_stream 0.5) (run_draws all_zero 10000))
          (2 * run_draws all_zero 5000)).
Proof.
  apply sensitivity_row_constant;
    unfold skip, constant_stream; cbn [draws position]; apply constant_stream_on.
Qed.

(** With the base mean of the all-zero decision, a row of the analysis is
    computed and its impact is the one the amended C5 gives. *)
Lemma C5_witness :
  (exists rows s',
     sensitivity engine_log engine_cos all_zero
       (run_with (box_muller engine_log engine_cos 0.5 0.5) all_zero 10000)
       (skip (constant_stream 0.5) (run_draws all_zero 10000)) = Ok (rows, s')) /\
  exists row s',
    sensitivity_row engine_log engine_cos all_zero
      (run_with (box_muller engine_log engine_cos 0.5 0.5) all_zero 10000)
      ("salary"%string, config 0 0 0)
      (skip (constant_stream 0.5) (run_draws all_zero 10000)) = Ok (row, s') /\
    let d := (outcome_at_high row - outcome_at_low row)%float in
    impact_percent row = if is_nan d || (d =? 0)%float then nan else infinity.
Proof.
  apply (C5_zero_base_mean_gives_infinity_or_nan engine_log engine_cos all_zero
           (run_with (box_muller engine_log engine_cos 0.5 0.5) all_zero 10000)
           ("salary"%string, config 0 0 0)
           (skip (constant_stream 0.5) (run_draws all_zero 10000))).
  vm_compute. reflexivity.
Defined.

(** C5 fails as stated: the base run of the all-zero decision has mean [0],
    and the impact of its first row is NaN, neither [0] nor infinite. *)
Lemma C5_counterexample :
  exists base s1 row s2,
    runSimulation engine_log engine_cos all_zero 10000 (constant_stream 0.5)
    = Ok (base, s1) /\
    (mean base =? 0)%float = true /\
    sensitivity_row engine_log engine_cos all_zero base ("salary"%string, config 0 0 0) s1
    = Ok (row, s2) /\
    is_nan (impact_percent row) = true /\
    (impact_percent row =? 0)%float = false /\
    is_infinity (impact_percent row) = false.
Proof.
  eexists _, _, _, _. split; [apply all_zero_base_run|].
  split; [vm_compute; reflexivity|].
  split; [apply all_zero_row|].
  vm_compute. auto.
Qed.

(** The rows of the hiring decision on constant draws. *)
Lemma hiring_unsorted_rows :
  unsorted_rows engine_log engine_cos hiring
    (run_with (box_muller engine_log engine_cos 0.5 0.5) hiring 10000)
    (skip (constant_stream 0.5) (run_draws hiring 10000))
  = map (row_with (box_muller engine_log engine_cos 0.5 0.5)
                  (box_muller engine_log engine_cos 0.5 0.5) hiring
                  (run_with (box_muller engine_log engine_cos 0.5 0.5) hiring 10000))
        hiring.
Proof.
  unfold skip, constant_stream. cbn [draws position]. apply unsorted_rows_constant.
Qed.

(** The ranking of the hiring decision on constant draws satisfies the
    amended C6: six rows, none with a NaN impact, in descending order. *)
Lemma C6_witness :
  let base := run_with (box_muller engine_log engine_cos 0.5 0.5) hiring 10000 in
  let s := skip (constant_stream 0.5) (run_draws hiring 10000) in
  let unsorted := unsorted_rows engine_log engine_cos hiring base s in
  exists rows s',
    sensitivity engine_log engine_cos hiring base s = Ok (rows, s') /\
    map variable unsorted = map fst hiring /\
    Permutation unsorted rows /\
    List.length rows = 6%nat /\
    descending_impact rows /\
    ties_keep_order unsorted rows.
Proof.
  intros base s unsorted.
  pose proof (C6_rows_sorted_by_descending_impact engine_log engine_cos hiring base s)
    as H.
  cbv zeta in H. fold unsorted in H.
  destruct H as (rows & s' & E & Hv & Hp & Hlen & Hord).
  destruct Hord as [Hd Ht].
  { subst unsorted base s. rewrite hiring_unsorted_rows.
    assert (H : forallb (fun row => negb (is_nan (impact_percent row)))
                  (map (row_with (box_muller engine_log engine_cos 0.5 0.5)
                                 (box_muller engine_log engine_cos 0.5 0.5) hiring
                                 (run_with (box_muller engine_log engine_cos 0.5 0.5)
                                    hiring 10000)) hiring) = true)
      by (vm_compute; reflexivity).
    apply Forall_of_forallb in H.
    eapply Forall_impl; [|exact H]. intros row Hrow. unfold not_nan.
    now apply negb_true_iff. }
  exists rows, s'.
  split; [exact E|]. split; [exact Hv|]. split; [exact Hp|].
  split; [exact Hlen|]. split; [exact Hd | exact Ht].
Defined.

Example hiring_ranking :
  exists s',
    sensitivity engine_log engine_cos hiring
      (run_with (box_muller engine_log engine_cos 0.5 0.5) hiring 10000)
      (skip (constant_stream 0.5) (run_draws hiring 10000))
    = Ok (js_sort by_impact_desc
            (map (row_with (box_muller engine_log engine_cos 0.5 0.5)
                           (box_muller engine_log engine_cos 0.5 0.5) hiring
                           (run_with (box_muller engine_log engine_cos 0.5 0.5)
                              hiring 10000)) hiring), s') /\
  map variable
    (js_sort by_impact_desc
       (map (row_with (box_muller engine_log engine_cos 0.5 0.5)
                      (box_muller engine_log engine_cos 0.5 0.5) hiring
                      (run_with (box_muller engine_log engine_cos 0.5 0.5) hiring 10000))
            hiring))
  = [ "project_win_rate"; "avg_project_value"; "utilization_rate"; "salary";
      "ramp_up_discount"; "benefits_multiplier" ]%string.
Proof.
  destruct (sensitivity_spec engine_log engine_cos hiring
              (run_with (box_muller engine_log engine_cos 0.5 0.5) hiring 10000)
              (skip (constant_stream 0.5) (run_draws hiring 10000))) as (s' & E).
  rewrite hiring_unsorted_rows in E. exists s'. split; [exact E|].
  vm_compute. reflexivity.
Qed.

(** C6 fails as stated: for a decision that is not the hiring model every
    impact is NaN, and the two rows returned are not in descending order. *)
Lemma C6_counterexample :
  exists base s1 r1 r2 s2,
    runSimulation engine_log engine_cos pricing 10000 (constant_stream 0.5)
    = Ok (base, s1) /\
    sensitivity engine_log engine_cos pricing base s1 = Ok ([r1; r2], s2) /\
    is_nan (impact_percent r1) = true /\
    (impact_percent r2 <=? impact_percent r1)%float = false.
Proof.
  eexists _, _, _, _, _. split.
  - apply runSimulation_constant with (len := run_draws pricing 10000).
    + apply constant_stream_on.
    + lia.
    + exact ten_thousand_pos.
  - split.
    + unfold sensitivity, bind, skip, constant_stream. cbn [draws position].
      rewrite mapM_rows_constant. unfold ret. vm_compute. reflexivity.
    + vm_compute. auto.
Qed.

(** The zero-spread variable of the hiring decision has impact [0] when its
    two runs see the same draws. *)
Lemma C7_witness :
  exists row s',
    sensitivity_row engine_log engine_cos hiring
      (run_with (box_muller engine_log engine_cos 0.5 0.5) hiring 10000)
      ("benefits_multiplier"%string, config 1.3 1.3 1.3)
      (skip (constant_stream 0.5) (run_draws hiring 10000)) = Ok (row, s') /\
    (impact_percent row =? 0)%float = true.
Proof.
  destruct (C7_zero_spread_variable engine_log engine_cos hiring
              (run_with (box_muller engine_log engine_cos 0.5 0.5) hiring 10000)
              "benefits_multiplier"%string (config 1.3 1.3 1.3)
              (skip (constant_stream 0.5) (run_draws hiring 10000)) eq_refl)
    as [(first & second & s1 & s2 & row & E1 & E2 & E & _ & _ & _ & Hz) _].
  exists row, s2. split; [exact E|].
  rewrite (runSimulation_constant _ _ _ _ _ 0.5 (run_draws hiring 5000)) in E1;
    [| unfold skip, constant_stream; cbn [draws position]; apply constant_stream_on
     | rewrite run_draws_override; lia | exact five_thousand_pos].
  injection E1 as <- <-.
  rewrite (runSimulation_constant _ _ _ _ _ 0.5 (run_draws hiring 5000)) in E2;
    [| unfold skip, constant_stream; cbn [draws position]; apply constant_stream_on
     | rewrite run_draws_override; lia | exact five_thousand_pos].
  injection E2 as <- <-.
  apply Hz; vm_compute; reflexivity.
Defined.

Lemma three_phases_base : constant_on three_phases 0.5 (run_draws hiring 10000).
Proof.
  destruct hiring_run_draws as [-> _]. intros k Hk. cbn [three_phases draws position] in *.
  destruct (N.ltb_spec k 120000); [reflexivity | lia].
Qed.

Lemma three_phases_low :
  constant_on (skip three_phases (run_draws hiring 10000)) 0.3 (run_draws hiring 5000).
Proof.
  destruct hiring_run_draws as [-> ->]. intros k Hk.
  cbn [skip three_phases draws position] in *.
  destruct (N.ltb_spec k 120000); [lia|].
  destruct (N.ltb_spec k 180000); [reflexivity | lia].
Qed.

Lemma three_phases_high :
  constant_on (skip (skip three_phases (run_draws hiring 10000)) (run_draws hiring 5000))
    0.6 (run_draws hiring 5000).
Proof.
  destruct hiring_run_draws as [-> ->]. intros k Hk.
  cbn [skip three_phases draws position] in *.
  destruct (N.ltb_spec k 120000); [lia|].
  destruct (N.ltb_spec k 180000); [lia | reflexivity].
Qed.

(** C7 fails as stated: the benefits multiplier has [min = max], but its
    two runs see different draws, their means differ, and its impact is
    about 21 percent. *)
Lemma C7_counterexample :
  exists base s1 row s2,
    runSimulation engine_log engine_cos hiring 10000 three_phases = Ok (base, s1) /\
    sensitivity_row engine_log engine_cos hiring base
      ("benefits_multiplier"%string, config 1.3 1.3 1.3) s1 = Ok (row, s2) /\
    row_min row = row_max row /\
    (impact_percent row =? 0)%float = false /\
    (21 <? impact_percent row)%float = true.
Proof.
  eexists _, _, _, _. split.
  - apply runSimulation_constant with (len := run_draws hiring 10000).
    + exact three_phases_base.
    + lia.
    + exact ten_thousand_pos.
  - split.
    + apply sensitivity_row_constant; [exact three_phases_low | exact three_phases_high].
    + vm_compute. auto.
Qed.

(** * More of the code: the generator, the page, the MCP function *)

(** ** Equal numbers *)

(** Two numbers that [===] holds of are the same number, or two zeros. *)
Lemma eqb_true_eq (x y : float) :
  (x =? y)%float = true ->
  x = y \/ (key x = 0 /\ key y = 0).
Proof.
  rewrite eqb_spec. unfold SFeqb, key. intros H.
  assert (Hinj : Prim2SF x = Prim2SF y \/ (SFkey (Prim2SF x) = 0 /\ SFkey (Prim2SF y) = 0)).
  { destruct (Prim2SF x) as [sx|sx| |sx mx ex], (Prim2SF y) as [sy|sy| |sy my ey];
      cbn [SFcompare] in H; try discriminate; cbn [SFkey]; auto;
      destruct sx, sy; try discriminate; auto.
    all: destruct (Z.compare_spec ex ey) as [-> | |]; try discriminate.
    all: destruct (Pos.compare_cont Eq mx my) eqn:E; try discriminate.
    all: apply (Pos.compare_eq mx my) in E; subst; auto. }
  destruct Hinj as [E | E]; [left; apply Prim2SF_inj, E | right; exact E].
Qed.

(** Numbers that are not NaN and have the same non-zero key are the same. *)
Lemma key_inj (x y : float) :
  not_nan x -> not_nan y -> key x = key y -> key x <> 0 -> x = y.
Proof.
  intros Hx Hy K K0.
  assert (E : (x =? y)%float = true) by (rewrite eqb_key by assumption; now apply Z.eqb_eq).
  destruct (eqb_true_eq x y E) as [-> | [? _]]; [reflexivity | contradiction].
Qed.

(** ** Exact quotients *)

(** Dividing a normal number by a power of two, away from underflow. *)
Lemma div_by_pow2 (a d : float) (ma : positive) (ea ed : Z) :
  Prim2SF a = S754_finite false ma ea ->
  Prim2SF d = S754_finite false 4503599627370496 ed ->
  2 ^ 52 <= Z.pos ma < 2 ^ 53 ->
  -1074 <= ea - ed - 53 -> ea - ed - 52 <= 971 ->
  Prim2SF (a / d) = S754_finite false ma (ea - ed - 52).
Proof.
  intros Ea Ed Hma Hlo Hhi.
  rewrite div_spec, Ea, Ed. unfold SF64div. cbn [SFdiv xorb].
  unfold SFdiv_core_binary.
  rewrite (Zdigits2_eq (Z.pos ma) 53) by (try lia; exact Hma).
  change (Zdigits2 (Z.pos 4503599627370496)) with 53.
  replace (Z.min (fexp prec emax (53 + ea - (53 + ed))) (ea - ed)) with (ea - ed - 53)
    by (unfold fexp, SpecFloat.emin, prec, emax; lia).
  replace (ea - ed - (ea - ed - 53)) with 53 by lia.
  rewrite Z.shiftl_mul_pow2 by lia.
  pose proof (Z_div_mod (Z.pos ma * 2 ^ 53) (Z.pos 4503599627370496) ltac:(lia)) as Hdm.
  destruct (Z.div_eucl (Z.pos ma * 2 ^ 53) (Z.pos 4503599627370496)) as [q r].
  destruct Hdm as [Hq Hr].
  change (2 ^ 53) with (Z.pos 4503599627370496 * 2) in Hq.
  assert (r = 0 /\ q = Z.pos ma * 2) as [-> ->] by lia.
  rewrite new_location_exact.
  destruct (binary_round_aux_spec false (Z.pos ma * 2) (ea - ed - 53) loc_Exact ltac:(lia))
    as (m2 & _ & Hexact & ->).
  assert (Hn1 : shr_amount (Z.pos ma * 2) (ea - ed - 53) = 1).
  { unfold shr_amount. rewrite (Zdigits2_eq (Z.pos ma * 2) 54); [lia | lia |].
    change (2 ^ (54 - 1)) with (2 ^ 52 * 2). change (2 ^ 54) with (2 ^ 53 * 2). lia. }
  rewrite Hn1 in *. change (2 ^ 1) with 2 in Hexact.
  rewrite Z.mod_mul, Z.div_mul in Hexact by lia.
  rewrite (Hexact eq_refl eq_refl).
  replace (ea - ed - 53 + 1) with (ea - ed - 52) by lia.
  apply rounded_normal; [exact Hma | lia].
Qed.

(** A normal number divided by itself is [1]. *)
Lemma div_self_normal (a : float) (ma : positive) (ea : Z) :
  Prim2SF a = S754_finite false ma ea ->
  2 ^ 52 <= Z.pos ma < 2 ^ 53 ->
  (a / a)%float = 1%float.
Proof.
  intros Ea Hma. apply Prim2SF_inj.
  rewrite div_spec, Ea, one_spec. unfold SF64div. cbn [SFdiv xorb].
  unfold SFdiv_core_binary.
  rewrite (Zdigits2_eq (Z.pos ma) 53) by (try lia; exact Hma).
  replace (Z.min (fexp prec emax (53 + ea - (53 + ea))) (ea - ea)) with (-53)
    by (unfold fexp, SpecFloat.emin, prec, emax; lia).
  replace (ea - ea - -53) with 53 by lia.
  rewrite Z.shiftl_mul_pow2 by lia.
  pose proof (Z_div_mod (Z.pos ma * 2 ^ 53) (Z.pos ma) ltac:(lia)) as Hdm.
  destruct (Z.div_eucl (Z.pos ma * 2 ^ 53) (Z.pos ma)) as [q r].
  destruct Hdm as [Hq Hr].
  assert (Hq' : q = 2 ^ 53).
  { apply Z.div_unique with (a := Z.pos ma * 2 ^ 53) (b := Z.pos ma) (r := r) in Hq;
      [| left; lia].
    rewrite Hq, Z.mul_comm. apply Z.div_mul. lia. }
  subst q. assert (r = 0) by lia. subst r.
  rewrite new_location_exact.
  destruct (binary_round_aux_spec false (2 ^ 53) (-53) loc_Exact ltac:(lia))
    as (m2 & _ & Hexact & ->).
  assert (Hn1 : shr_amount (2 ^ 53) (-53) = 1) by reflexivity.
  rewrite Hn1 in *.
  rewrite (Hexact eq_refl eq_refl). reflexivity.
Qed.

Lemma of_N_div_self (n : Z) : 1 <= n < 2 ^ 53 -> (Js.of_N n / Js.of_N n)%float = 1%float.
Proof.
  intros Hn. destruct (of_N_normal n Hn) as (m & e & E & Hm & _).
  exact (div_self_normal _ m e E Hm).
Qed.

Lemma zero_div_of_N (n : Z) : 1 <= n < 2 ^ 53 -> (Js.of_N 0 / Js.of_N n)%float = 0%float.
Proof.
  intros Hn. destruct (of_N_normal n Hn) as (m & e & E & _).
  apply Prim2SF_inj. rewrite div_spec, of_N_zero, E. reflexivity.
Qed.

(** [Math.floor] leaves an integer as it is. *)
Lemma Math_floor_of_N (n : Z) : 0 <= n < 2 ^ 53 -> Js.Math_floor (Js.of_N n) = Js.of_N n.
Proof.
  intros Hn. destruct (Z.eq_dec n 0) as [-> | Hne]; [reflexivity|].
  destruct (of_N_normal n ltac:(lia)) as (m & e & E & Hm & He & K).
  unfold Js.Math_floor. rewrite E.
  destruct (Z.leb_spec 0 e); [reflexivity|]. f_equal.
  rewrite (pow2_split (e + 1074) 1074) in K by lia.
  replace (1074 - (e + 1074)) with (- e) in K by lia.
  assert (HP : 0 < 2 ^ (e + 1074)) by (apply Z.pow_pos_nonneg; lia).
  assert (K' : Z.pos m = n * 2 ^ (- e)).
  { apply Z.mul_cancel_r with (2 ^ (e + 1074)); [lia|]. rewrite K. ring. }
  rewrite K'. apply Z.div_mul. apply Z.pow_nonzero; lia.
Qed.

Lemma two_pow_32_spec :
  Prim2SF 4294967296 = S754_finite false 4503599627370496 (-20).
Proof. reflexivity. Qed.

(** The quotient of a 32-bit unsigned integer by [2^32] is exact. *)
Lemma uint32_fraction (w : Z) :
  0 <= w < 2 ^ 32 ->
  not_nan (Js.of_N w / 4294967296)%float /\
  key (Js.of_N w / 4294967296)%float = w * 2 ^ 1042.
Proof.
  intros Hw. unfold not_nan. rewrite is_nan_spec. unfold key.
  destruct (Z.eq_dec w 0) as [-> | Hne].
  - rewrite div_spec, of_N_zero, two_pow_32_spec. split; reflexivity.
  - assert (Hw53 : 1 <= w < 2 ^ 53).
    { split; [lia|]. apply Z.lt_trans with (2 ^ 32); [lia | reflexivity]. }
    destruct (of_N_normal w Hw53) as (m & e & E & Hm & He & K).
    rewrite (div_by_pow2 _ _ m e (-20) E two_pow_32_spec Hm) by lia.
    cbn [SFis_nan SFkey]. split; [reflexivity|].
    replace (e - -20 - 52 + 1074) with (e + 1042) by lia.
    replace (e + 1074) with (e + 1042 + 32) in K by lia.
    rewrite Z.pow_add_r in K by lia.
    change (2 ^ 1074) with (2 ^ 1042 * 2 ^ 32) in K.
    apply Z.mul_cancel_r with (2 ^ 32); [lia|]. rewrite <- Z.mul_assoc, K. ring.
Qed.

Lemma uint32_fraction_unit (x : Z) :
  exists w,
    0 <= w < 2 ^ 32 /\
    key (Js.of_N (Js.wrap_uint32 x) / 4294967296)%float = w * 2 ^ 1042 /\
    (0 <=? Js.of_N (Js.wrap_uint32 x) / 4294967296)%float = true /\
    (Js.of_N (Js.wrap_uint32 x) / 4294967296 <? 1)%float = true.
Proof.
  pose proof (Z.mod_pos_bound x 4294967296 eq_refl) as Hw.
  fold (Js.wrap_uint32 x) in Hw.
  destruct (uint32_fraction _ Hw) as [Hn K].
  exists (Js.wrap_uint32 x). split; [exact Hw|]. split; [exact K|]. split.
  - apply leb_of_keys; [reflexivity | exact Hn |]. rewrite key_zero, K.
    apply Z.mul_nonneg_nonneg; [lia | apply Z.pow_nonneg; lia].
  - apply ltb_of_keys; [exact Hn | reflexivity |]. rewrite key_one, K.
    change (2 ^ 1074) with (2 ^ 32 * 2 ^ 1042).
    apply Z.mul_lt_mono_pos_r; [apply Z.pow_pos_nonneg; lia | lia].
Qed.

Lemma mulberry32_next_fraction (t : float) :
  exists w,
    0 <= w < 2 ^ 32 /\
    key (fst (mulberry32_next t)) = w * 2 ^ 1042 /\
    (0 <=? fst (mulberry32_next t))%float = true /\
    (fst (mulberry32_next t) <? 1)%float = true.
Proof. unfold mulberry32_next. cbn [fst]. apply uint32_fraction_unit. Qed.

(** The uniforms that the seeded sampler keeps lie strictly between 0 and 1. *)
Lemma draw_nonzero_seeded_unit (fuel : nat) (t : float) (u : float) (g' : Rng) :
  draw_nonzero fuel (Seeded t) = Some (u, g') ->
  (0 <? u)%float = true /\ (u <? 1)%float = true.
Proof.
  revert t. induction fuel as [|fuel IH]; intros t; cbn [draw_nonzero rng]; [discriminate|].
  destruct (mulberry32_next_fraction t) as (w & Hw & K & H0 & H1).
  destruct (mulberry32_next t) as [u0 t0]. cbn [fst] in *.
  destruct (u0 =? 0)%float eqn:E; [apply IH|].
  intros H. injection H as <- <-. split; [|exact H1].
  apply leb_true_not_nan in H0. destruct H0 as (N0 & Nu & K0).
  rewrite eqb_key in E by assumption. apply Z.eqb_neq in E.
  apply ltb_of_keys; try assumption. lia.
Qed.

(** X1.  Whatever its state, the seeded generator returns a multiple of
    [2^-32] in [[0, 1)]: the key of its result is [w * 2^1042] for a 32-bit
    unsigned [w], that is the number [w / 2^32].  The uniforms that the
    sampler keeps from it are therefore strictly between 0 and 1. *)
Theorem mulberry32_in_unit_interval (t : float) :
  (exists w,
     0 <= w < 2 ^ 32 /\
     key (fst (mulberry32_next t)) = w * 2 ^ 1042 /\
     (0 <=? fst (mulberry32_next t))%float = true /\
     (fst (mulberry32_next t) <? 1)%float = true) /\
  (forall fuel u g',
     draw_nonzero fuel (Seeded t) = Some (u, g') ->
     (0 <? u)%float = true /\ (u <? 1)%float = true).
Proof.
  split; [apply mulberry32_next_fraction|].
  intros fuel u g'. apply draw_nonzero_seeded_unit.
Qed.

(** * Seeded requests are answered *)

(** ** The scrambling of Mulberry32 *)

Lemma wrap_int32_mod (z : Z) : Js.wrap_int32 z mod 2 ^ 32 = z mod 2 ^ 32.
Proof.
  unfold Js.wrap_int32. change 4294967296 with (2 ^ 32).
  rewrite Zminus_mod_idemp_l. f_equal. lia.
Qed.

Lemma wrap_uint32_small (z : Z) : 0 <= Js.wrap_uint32 z < 2 ^ 32.
Proof. unfold Js.wrap_uint32. apply Z.mod_pos_bound. reflexivity. Qed.

Lemma lxor_mod_pow2 (a b n : Z) :
  0 <= n -> Z.lxor a b mod 2 ^ n = Z.lxor (a mod 2 ^ n) (b mod 2 ^ n).
Proof.
  intros Hn. rewrite <- !Z.land_ones by exact Hn. apply Z.bits_inj'. intros i _.
  rewrite Z.land_spec, !Z.lxor_spec, !Z.land_spec.
  destruct (Z.testbit a i), (Z.testbit b i), (Z.testbit (Z.ones n) i); reflexivity.
Qed.

(** [x ^ (x >>> k)] is zero, as a 32-bit word, only for the word zero. *)
Lemma xorshift_zero (x k : Z) :
  0 < k -> Js.xor32 x (Js.shru x k) mod 2 ^ 32 = 0 -> x mod 2 ^ 32 = 0.
Proof.
  intros Hk. unfold Js.xor32, Js.shru. rewrite wrap_int32_mod, lxor_mod_pow2 by lia.
  pose proof (wrap_uint32_small x) as Hu. unfold Js.wrap_uint32 in *.
  change 4294967296 with (2 ^ 32) in *.
  set (u := x mod 2 ^ 32) in *. intros H. apply Z.lxor_eq in H.
  rewrite Z.shiftr_div_pow2 in H by lia.
  assert (H2 : 1 < 2 ^ k).
  { change 1 with (2 ^ 0). apply Z.pow_lt_mono_r; lia. }
  assert (Hd : 0 <= u / 2 ^ k < 2 ^ 32).
  { split; [apply Z.div_pos; lia|].
    apply Z.div_lt_upper_bound; [lia|]. nia. }
  rewrite Z.mod_small in H by exact Hd.
  destruct (Z.eq_dec u 0) as [E | E]; [exact E|].
  pose proof (Z.div_lt u (2 ^ k) ltac:(lia) H2). lia.
Qed.

Lemma wrap_int32_odd (z : Z) : Z.odd (Js.wrap_int32 z) = Z.odd z.
Proof.
  unfold Js.wrap_int32. rewrite Z.mod_eq by lia.
  replace (z + 2147483648 - 4294967296 * ((z + 2147483648) / 4294967296) - 2147483648)
    with (z + 2 * (- 2147483648 * ((z + 2147483648) / 4294967296))) by ring.
  apply Z.odd_add_mul_2.
Qed.

Lemma or32_odd (c x : Z) : Z.odd c = true -> Z.odd (Js.or32 c x) = true.
Proof.
  intros Hc. unfold Js.or32. rewrite wrap_int32_odd, <- Z.bit0_odd, Z.lor_spec.
  rewrite Z.bit0_odd, Hc. reflexivity.
Qed.

Lemma odd_factor_pow2 (n : nat) (a b : Z) :
  Z.odd b = true -> (2 ^ Z.of_nat n | a * b) -> (2 ^ Z.of_nat n | a).
Proof.
  intros Hb. revert a. induction n as [|n IH]; intros a H.
  - apply Z.divide_1_l.
  - rewrite Nat2Z.inj_succ, Z.pow_succ_r in * by lia.
    assert (He : Z.even a = true).
    { assert (Hab : Z.even (a * b) = true).
      { destruct H as [q Hq]. rewrite Hq.
        replace (q * (2 * 2 ^ Z.of_nat n)) with (2 * (q * 2 ^ Z.of_nat n)) by ring.
        apply Z.even_mul. }
      rewrite Z.even_mul in Hab. rewrite <- (Z.negb_odd b), Hb in Hab.
      rewrite orb_false_r in Hab. exact Hab. }
    apply Z.even_spec in He. destruct He as [a' ->].
    apply Z.mul_divide_mono_l. apply IH.
    rewrite <- Z.mul_assoc in H. apply Z.mul_divide_cancel_l in H; [exact H | lia].
Qed.

(** [Math.imul] by an odd number is zero only on the word zero. *)
Lemma imul_zero (a b : Z) :
  Z.odd b = true -> Js.imul a b mod 2 ^ 32 = 0 -> a mod 2 ^ 32 = 0.
Proof.
  intros Hb. unfold Js.imul. rewrite wrap_int32_mod. intros H.
  apply Z.mod_divide in H; [|lia]. apply Z.mod_divide; [lia|].
  exact (odd_factor_pow2 32 a b Hb H).
Qed.

Lemma xor_sum_zero (x m : Z) :
  Js.xor32 x (Js.wrap_int32 (x + m)) mod 2 ^ 32 = 0 -> m mod 2 ^ 32 = 0.
Proof.
  unfold Js.xor32. rewrite wrap_int32_mod, lxor_mod_pow2, wrap_int32_mod by lia.
  intros H. apply Z.lxor_eq in H.
  replace m with (x + m - x) by ring. rewrite Zminus_mod, <- H, Z.sub_diag. reflexivity.
Qed.

(** The scrambling of Mulberry32 sends only the word zero to zero. *)
Lemma mulberry32_word_zero (ti : Z) :
  Js.wrap_uint32
    (let x := Js.imul (Js.xor32 ti (Js.shru ti 15)) (Js.or32 1 ti) in
     let x := Js.xor32 x
                (Js.wrap_int32 (x + Js.imul (Js.xor32 x (Js.shru x 7)) (Js.or32 61 x))) in
     Js.xor32 x (Js.shru x 14)) = 0 ->
  ti mod 2 ^ 32 = 0.
Proof.
  cbv zeta. unfold Js.wrap_uint32 at 1. change 4294967296 with (2 ^ 32). intros H.
  apply xorshift_zero in H; [|lia].
  apply xor_sum_zero in H.
  apply imul_zero in H; [|apply or32_odd; reflexivity].
  apply xorshift_zero in H; [|lia].
  apply imul_zero in H; [|apply or32_odd; reflexivity].
  apply xorshift_zero in H; [|lia]. exact H.
Qed.

(** ** Exact sums of integers *)

Lemma shl_align_no_shift (mx : positive) (ex ez : Z) :
  ex <= ez -> shl_align mx ex ez = (mx, ex).
Proof.
  intros H. unfold shl_align. destruct (ez - ex) as [|d|d] eqn:E; try reflexivity. lia.
Qed.

(** Rounding an integer below [2^53], given with trailing zero bits, is
    exact. *)
Lemma binary_round_exact (p : positive) (e s : Z) :
  -1074 <= e <= 0 -> 1 <= s < 2 ^ 53 -> Z.pos p = s * 2 ^ (- e) ->
  exists m e', binary_round prec emax false p e = S754_finite false m e' /\
               Z.pos m * 2 ^ (e' + 1074) = s * 2 ^ 1074.
Proof.
  intros He Hs Hp. unfold binary_round.
  pose proof (digits2_pos_bounds p) as [Hlo Hhi].
  set (D := Z.pos (digits2_pos p)) in *.
  assert (HD : 1 <= D) by (subst D; lia).
  assert (Hk : 0 < 2 ^ (- e)) by (apply Z.pow_pos_nonneg; lia).
  set (d := D + e).
  assert (Hd1 : 1 <= d).
  { assert (2 ^ (- e) < 2 ^ D).
    { apply Z.le_lt_trans with (Z.pos p); [|exact Hhi]. rewrite Hp.
      rewrite <- (Z.mul_1_l (2 ^ (- e))) at 1. apply Z.mul_le_mono_nonneg_r; lia. }
    apply Z.pow_lt_mono_r_iff in H; lia. }
  assert (Hsd : 2 ^ (d - 1) <= s < 2 ^ d).
  { split.
    - apply Z.mul_le_mono_pos_r with (2 ^ (- e)); [exact Hk|].
      rewrite <- Z.pow_add_r by lia. replace (d - 1 + - e) with (D - 1) by lia.
      rewrite <- Hp. exact Hlo.
    - apply Z.mul_lt_mono_pos_r with (2 ^ (- e)); [exact Hk|].
      rewrite <- Z.pow_add_r by lia. replace (d + - e) with D by lia.
      rewrite <- Hp. exact Hhi. }
  assert (Hd53 : d <= 53).
  { destruct (Z_le_gt_dec d 53) as [|Hgt]; [assumption|exfalso].
    assert (2 ^ 53 <= 2 ^ (d - 1)) by (apply Z.pow_le_mono_r; lia). lia. }
  assert (Hf : fexp prec emax d = d - 53).
  { unfold fexp, SpecFloat.emin, prec, emax. lia. }
  rewrite Hf.
  assert (Hq : 0 < 2 ^ (53 - d)) by (apply Z.pow_pos_nonneg; lia).
  assert (Hn : 2 ^ 52 <= s * 2 ^ (53 - d) < 2 ^ 53).
  { split.
    - rewrite (pow2_split (d - 1) 52) by lia.
      replace (52 - (d - 1)) with (53 - d) by lia.
      apply Z.mul_le_mono_nonneg_r; lia.
    - rewrite (pow2_split d 53) by lia.
      apply Z.mul_lt_mono_pos_r; lia. }
  assert (Hkey : s * 2 ^ (53 - d) * 2 ^ (d - 53 + 1074) = s * 2 ^ 1074).
  { rewrite <- Z.mul_assoc, <- Z.pow_add_r by lia. do 2 f_equal. lia. }
  destruct (Z_le_gt_dec (d - 53) e) as [Hsh | Hsh].
  - destruct (shl_align_value p e (d - 53) Hsh) as [Hv Hz].
    destruct (shl_align p e (d - 53)) as [mz ez]. cbn [fst snd] in Hv, Hz. subst ez.
    assert (Hmz : Z.pos mz = s * 2 ^ (53 - d)).
    { rewrite Hv, Hp, <- Z.mul_assoc, <- Z.pow_add_r by lia. do 2 f_equal. lia. }
    rewrite binary_round_aux_normal by lia.
    exists mz, (d - 53). split; [reflexivity|]. rewrite Hmz. exact Hkey.
  - rewrite shl_align_no_shift by lia.
    destruct (binary_round_aux_spec false (Z.pos p) e loc_Exact ltac:(lia))
      as (m2 & _ & Hexact & ->).
    assert (Hsa : shr_amount (Z.pos p) e = d - 53 - e).
    { unfold shr_amount. change (Zdigits2 (Z.pos p)) with D. lia. }
    rewrite Hsa in *.
    assert (Hpp : Z.pos p = s * 2 ^ (53 - d) * 2 ^ (d - 53 - e)).
    { rewrite Hp, <- Z.mul_assoc, <- Z.pow_add_r by lia. do 2 f_equal. lia. }
    assert (Hne : 2 ^ (d - 53 - e) <> 0) by (apply Z.pow_nonzero; lia).
    rewrite Hpp, Z.mod_mul, Z.div_mul in Hexact by exact Hne.
    rewrite (Hexact eq_refl eq_refl).
    replace (e + (d - 53 - e)) with (d - 53) by lia.
    destruct (s * 2 ^ (53 - d)) as [|m|m] eqn:Em; try lia.
    rewrite rounded_normal by lia.
    exists m, (d - 53). split; [reflexivity | exact Hkey].
Qed.

(** The sum of two non-negative integers is exact as long as it stays
    below [2^53]. *)
Lemma add_of_N (a b : Z) :
  0 <= a -> 1 <= b -> a + b < 2 ^ 53 ->
  (Js.of_N a + Js.of_N b)%float = Js.of_N (a + b).
Proof.
  intros Ha Hb Hab.
  destruct (of_N_normal b ltac:(lia)) as (mb & eb & Eb & Hmb & Heb & Kb).
  destruct (Z.eq_dec a 0) as [-> | Hne].
  - apply Prim2SF_inj. rewrite add_spec, of_N_zero, Eb. cbn. exact (eq_sym Eb).
  - destruct (of_N_normal a ltac:(lia)) as (ma & ea & Ea & Hma & Hea & Ka).
    assert (Hres : exists m e', Prim2SF (Js.of_N a + Js.of_N b) = S754_finite false m e' /\
                                Z.pos m * 2 ^ (e' + 1074) = (a + b) * 2 ^ 1074).
    { rewrite add_spec, Ea, Eb. unfold SF64add. cbn [SFadd cond_Zopp].
      set (ez := Z.min ea eb).
      destruct (shl_align_value ma ea ez ltac:(lia)) as [Va _].
      destruct (shl_align_value mb eb ez ltac:(lia)) as [Vb _].
      set (pa := fst (shl_align ma ea ez)) in *.
      set (pb := fst (shl_align mb eb ez)) in *.
      change (Z.pos pa + Z.pos pb) with (Z.pos (pa + pb)). cbn [binary_normalize].
      apply binary_round_exact; [lia | lia |].
      rewrite Pos2Z.inj_add, Va, Vb.
      assert (HP : 0 < 2 ^ (ez + 1074)) by (apply Z.pow_pos_nonneg; lia).
      apply Z.mul_cancel_r with (2 ^ (ez + 1074)); [lia|].
      rewrite Z.mul_add_distr_r, <- !Z.mul_assoc, <- !Z.pow_add_r by lia.
      replace (ea - ez + (ez + 1074)) with (ea + 1074) by lia.
      replace (eb - ez + (ez + 1074)) with (eb + 1074) by lia.
      replace (- ez + (ez + 1074)) with 1074 by lia.
      rewrite Ka, Kb. ring. }
    destruct Hres as (m & e' & E & K).
    assert (HP : 0 < 2 ^ 1074) by exact pow1074_pos.
    apply key_inj.
    + unfold not_nan. rewrite is_nan_spec, E. reflexivity.
    + apply of_N_not_nan. lia.
    + unfold key at 1. rewrite E. cbn [SFkey]. rewrite of_N_key by lia. exact K.
    + unfold key. rewrite E. cbn [SFkey]. rewrite K. nia.
Qed.

(** ** The seeded sampler *)

(** One call of the seeded generator, while its counter is an exact
    integer: the counter grows by [0x6D2B79F5], and the number returned is
    zero only when the new counter is a multiple of [2^32]. *)
Lemma mulberry32_next_exact (z : Z) :
  0 <= z -> z + 1831565813 < 2 ^ 53 ->
  snd (mulberry32_next (Js.of_N z)) = Js.of_N (z + 1831565813) /\
  ((fst (mulberry32_next (Js.of_N z)) =? 0)%float = true ->
   (z + 1831565813) mod 2 ^ 32 = 0).
Proof.
  intros Hz Hb. unfold mulberry32_next. cbn [fst snd].
  change 1831565813%float with (Js.of_N 1831565813).
  rewrite add_of_N by lia. split; [reflexivity|].
  unfold Js.ToInt32. rewrite trunc_of_N by lia.
  set (ti := Js.wrap_int32 (z + 1831565813)).
  set (x1 := Js.imul (Js.xor32 ti (Js.shru ti 15)) (Js.or32 1 ti)).
  set (x2 := Js.xor32 x1
               (Js.wrap_int32 (x1 + Js.imul (Js.xor32 x1 (Js.shru x1 7)) (Js.or32 61 x1)))).
  intros H.
  pose proof (Z.mod_pos_bound (Js.xor32 x2 (Js.shru x2 14)) 4294967296 eq_refl) as Hw.
  fold (Js.wrap_uint32 (Js.xor32 x2 (Js.shru x2 14))) in Hw.
  destruct (uint32_fraction _ Hw) as [Hn K].
  rewrite eqb_key in H by (try exact Hn; reflexivity).
  apply Z.eqb_eq in H. rewrite K, key_zero in H.
  assert (HP : 0 < 2 ^ 1042) by (apply Z.pow_pos_nonneg; lia).
  assert (Hw0 : Js.wrap_uint32 (Js.xor32 x2 (Js.shru x2 14)) = 0) by nia.
  rewrite <- (wrap_int32_mod (z + 1831565813)). fold ti.
  apply mulberry32_word_zero. exact Hw0.
Qed.

(** The seeded generator never returns zero twice in a row while its
    counter is exact: [while (u === 0) u = rng()] ends within two calls. *)
Lemma draw_nonzero_seeded_returns (fuel : nat) (z : Z) :
  0 <= z -> z + 2 * 1831565813 < 2 ^ 53 ->
  exists u z',
    draw_nonzero (S (S fuel)) (Seeded (Js.of_N z)) = Some (u, Seeded (Js.of_N z')) /\
    z <= z' <= z + 2 * 1831565813.
Proof.
  intros Hz Hb. cbn [draw_nonzero rng].
  destruct (mulberry32_next_exact z Hz ltac:(lia)) as [E1 Z1].
  destruct (mulberry32_next (Js.of_N z)) as [u1 t1]. cbn [fst snd] in E1, Z1. subst t1.
  destruct (u1 =? 0)%float.
  - destruct (mulberry32_next_exact (z + 1831565813) ltac:(lia) ltac:(lia)) as [E2 Z2].
    cbn [draw_nonzero rng].
    destruct (mulberry32_next (Js.of_N (z + 1831565813))) as [u2 t2].
    cbn [fst snd] in E2, Z2. subst t2.
    destruct (u2 =? 0)%float.
    + exfalso. specialize (Z1 eq_refl). specialize (Z2 eq_refl).
      rewrite Z.add_mod, Z1 in Z2 by lia. discriminate Z2.
    + eexists _, _. split; [reflexivity | lia].
  - eexists _, _. split; [reflexivity | lia].
Qed.

Section SeededRoute.

Variable Math_log : float -> float.
Variable Math_cos : float -> float.

Lemma randn_seeded_returns (fuel : nat) (z : Z) :
  0 <= z -> z + 4 * 1831565813 < 2 ^ 53 ->
  exists x z',
    randn Math_log Math_cos (S (S fuel)) (Seeded (Js.of_N z)) = Some (x, Seeded (Js.of_N z')) /\
    z <= z' <= z + 4 * 1831565813.
Proof.
  intros Hz Hb. unfold randn.
  destruct (draw_nonzero_seeded_returns fuel z Hz ltac:(lia)) as (u & z1 & -> & H1).
  destruct (draw_nonzero_seeded_returns fuel z1 ltac:(lia) ltac:(lia)) as (v & z2 & -> & H2).
  eexists _, _. split; [reflexivity | lia].
Qed.

Lemma trial_score_seeded_returns (fuel : nat) (enabled : list Assumption)
    (score : float) (z : Z) :
  0 <= z -> z + 4 * 1831565813 * Z.of_nat (List.length enabled) < 2 ^ 53 ->
  exists total z',
    trial_score Math_log Math_cos (S (S fuel)) enabled score (Seeded (Js.of_N z))
    = Some (total, Seeded (Js.of_N z')) /\
    z <= z' <= z + 4 * 1831565813 * Z.of_nat (List.length enabled).
Proof.
  revert score z. induction enabled as [|a rest IH]; intros score z Hz Hb.
  - cbn [trial_score]. eexists _, _. split; [reflexivity | cbn [List.length]; lia].
  - cbn [trial_score]. cbn [List.length] in *.
    destruct (randn_seeded_returns fuel z Hz ltac:(lia)) as (x & z1 & -> & H1).
    destruct (IH (score + a_sign a * weight_of a * (mean_of a + std_of a * x))%float z1
                ltac:(lia) ltac:(lia)) as (total & z2 & -> & H2).
    eexists _, _. split; [reflexivity | lia].
Qed.

Lemma sim_loop_seeded_returns (dfuel fuel : nat) (n : Z) (threshold : float)
    (enabled : list Assumption) (i success z : Z) :
  0 <= i <= n -> n < 2 ^ 53 -> (Z.to_nat (n - i) < fuel)%nat -> 0 <= z ->
  z + 4 * 1831565813 * Z.of_nat (List.length enabled) * (n - i) < 2 ^ 53 ->
  exists total g',
    sim_loop Math_log Math_cos (S (S dfuel)) fuel (Js.of_N n) threshold enabled i success
      (Seeded (Js.of_N z)) = Some (total, g').
Proof.
  intros Hi Hn. revert i success z Hi.
  induction fuel as [|fuel IH]; intros i success z Hi Hf Hz Hb; [lia|].
  cbn [sim_loop]. rewrite of_N_ltb by lia.
  destruct (Z.ltb_spec i n) as [Hlt | Hge]; [|eauto].
  set (K := 4 * 1831565813 * Z.of_nat (List.length enabled)) in *.
  assert (HK : 0 <= K) by (subst K; lia).
  assert (Hstep : K * (n - i) = K + K * (n - (i + 1))) by ring.
  assert (Hrest : 0 <= K * (n - (i + 1))) by (apply Z.mul_nonneg_nonneg; lia).
  destruct (trial_score_seeded_returns dfuel enabled 0 z Hz ltac:(fold K; lia))
    as (score & z1 & -> & H1).
  fold K in H1. apply IH; lia.
Qed.

(** A seeded request is answered as long as the generator's counter
    stays an exact integer: the draws of [n] trials over the enabled
    assumptions move it by at most [4 * 0x6D2B79F5] each. *)
Lemma POST_seeded_returns (body : SimRequest) (seed : float) (random : Stream) :
  r_seed body = Some seed ->
  Z.of_nat (List.length (request_enabled body)) * Js.trunc (request_iterations body)
  <= 1200000 ->
  exists resp, POST Math_log Math_cos (Z.to_nat 300001) body random = Some resp.
Proof.
  intros Hseed Hsize. unfold POST, request_rng, mulberry32. rewrite Hseed.
  destruct (request_iterations_int body) as (n & Hn & En). rewrite En in *.
  rewrite trunc_of_N in Hsize
    by (split; [lia | apply Z.le_lt_trans with 300000; [lia | reflexivity]]).
  pose proof (Z.mod_pos_bound (Js.trunc seed) 4294967296 eq_refl) as Hu.
  fold (Js.wrap_uint32 (Js.trunc seed)) in Hu. fold (Js.ToUint32 seed) in Hu.
  replace (Z.to_nat 300001) with (S (S (Z.to_nat 299999))) by lia.
  destruct (sim_loop_seeded_returns (Z.to_nat 299999) (S (S (Z.to_nat 299999))) n
              (request_threshold body) (request_enabled body) 0 0 (Js.ToUint32 seed))
    as (total & g' & ->).
  - lia.
  - apply Z.le_lt_trans with 300000; [lia | reflexivity].
  - lia.
  - lia.
  - rewrite Z.sub_0_r.
    replace (4 * 1831565813 * Z.of_nat (List.length (request_enabled body)) * n)
      with (7326263252 * (Z.of_nat (List.length (request_enabled body)) * n)) by ring.
    apply Z.le_lt_trans with (4294967295 + 7326263252 * 1200000); [lia | reflexivity].
  - eauto.
Qed.

(** C8.  No numeric field rejects a request.  Each field is clamped: the
    floored iteration count into [[1000, 300000]], the threshold into
    [[-1000, 1000]], an assumption's mean into [[-1e6, 1e6]] and its std and
    weight into [[0, 1e6]]; a number inside its range is kept, a number
    below it becomes the minimum, a number above it the maximum, and NaN
    the minimum.  Every response, of a seeded request or not, carries the
    clamped iteration count and threshold; the route has no refusing
    branch, so that only a sampler loop still drawing zeros leaves a
    request without response.  An unseeded request is answered when
    [Math.random] returns no zero; a seeded request is answered when the
    iteration count times the number of enabled assumptions is at most
    1200000, which keeps the generator's counter an exact integer. *)
Theorem C8_numeric_fields_are_clamped
    (body : SimRequest) (a : Assumption) :
  clamped_into 1000 300000 (Js.Math_floor (Js.nullish (r_iterations body) 20000))
    (request_iterations body) /\
  clamped_into (-1000) 1000 (Js.nullish (r_threshold body) 0) (request_threshold body) /\
  clamped_into (-1000000) 1000000 (Js.nullish (a_mean a) 0) (mean_of a) /\
  clamped_into 0 1000000 (Js.nullish (a_std a) 0) (std_of a) /\
  clamped_into 0 1000000 (Js.nullish (a_weight a) 1) (weight_of a) /\
  ((1000 <=? request_iterations body)%float = true /\
   (request_iterations body <=? 300000)%float = true) /\
  ((-1000 <=? request_threshold body)%float = true /\
   (request_threshold body <=? 1000)%float = true) /\
  ((-1000000 <=? mean_of a)%float = true /\ (mean_of a <=? 1000000)%float = true) /\
  ((0 <=? std_of a)%float = true /\ (std_of a <=? 1000000)%float = true) /\
  ((0 <=? weight_of a)%float = true /\ (weight_of a <=? 1000000)%float = true) /\
  (forall assumptions threshold seed,
     request_iterations {| r_assumptions := assumptions; r_iterations := Some nan;
                           r_threshold := threshold; r_seed := seed |} = 1000%float) /\
  (forall assumptions iters seed,
     request_threshold {| r_assumptions := assumptions; r_iterations := iters;
                          r_threshold := Some nan; r_seed := seed |} = (-1000)%float) /\
  (forall id name std weight direction enabled,
     mean_of {| a_id := id; a_name := name; a_mean := Some nan; a_std := std;
                a_weight := weight; a_direction := direction;
                a_enabled := enabled |} = (-1000000)%float) /\
  (forall id name mean weight direction enabled,
     std_of {| a_id := id; a_name := name; a_mean := mean; a_std := Some nan;
               a_weight := weight; a_direction := direction;
               a_enabled := enabled |} = 0%float) /\
  (forall id name mean std direction enabled,
     weight_of {| a_id := id; a_name := name; a_mean := mean; a_std := std;
                  a_weight := Some nan; a_direction := direction;
                  a_enabled := enabled |} = 0%float) /\
  (forall fuel random resp,
     POST Math_log Math_cos fuel body random = Some resp ->
     iterations resp = request_iterations body /\
     summary_threshold resp = request_threshold body) /\
  (exists n,
     1000 <= n <= 300000 /\ request_iterations body = Js.of_N n /\
     forall fuel random,
       (Z.to_nat n < fuel)%nat ->
       (POST Math_log Math_cos fuel body random = None <->
        trial_scores Math_log Math_cos fuel (Z.to_nat n) (request_enabled body)
          (request_rng body random) = None)) /\
  (forall random,
     r_seed body = None -> zero_free random ->
     exists resp,
       POST Math_log Math_cos (Z.to_nat 300001) body random = Some resp /\
       iterations resp = request_iterations body /\
       summary_threshold resp = request_threshold body) /\
  (forall random seed,
     r_seed body = Some seed ->
     Z.of_nat (List.length (request_enabled body)) * Js.trunc (request_iterations body)
     <= 1200000 ->
     exists resp,
       POST Math_log Math_cos (Z.to_nat 300001) body random = Some resp /\
       iterations resp = request_iterations body /\
       summary_threshold resp = request_threshold body).
Proof.
  assert (Hresp : forall fuel random resp,
             POST Math_log Math_cos fuel body random = Some resp ->
             iterations resp = request_iterations body /\
             summary_threshold resp = request_threshold body).
  { intros fuel random resp E. unfold POST in E.
    destruct (sim_loop _ _ _ _ _ _ _ _ _ _) as [[total g']|]; [|discriminate].
    injection E as <-. split; reflexivity. }
  split; [apply clamp_clamped_into; reflexivity|].
  split; [apply clamp_clamped_into; reflexivity|].
  split; [apply clamp_clamped_into; reflexivity|].
  split; [apply clamp_clamped_into; reflexivity|].
  split; [apply clamp_clamped_into; reflexivity|].
  split; [apply clamp_range; reflexivity|].
  split; [apply clamp_range; reflexivity|].
  split; [apply clamp_range; reflexivity|].
  split; [apply clamp_range; reflexivity|].
  split; [apply clamp_range; reflexivity|].
  do 5 (split; [intros; reflexivity|]).
  split; [exact Hresp|].
  split; [apply POST_unanswered|].
  split.
  - intros random Hseed Hz.
    destruct (POST_unseeded_returns Math_log Math_cos body random Hseed Hz) as [resp E].
    exists resp. split; [exact E | exact (Hresp _ _ _ E)].
  - intros random seed Hseed Hsize.
    destruct (POST_seeded_returns body seed random Hseed Hsize) as [resp E].
    exists resp. split; [exact E | exact (Hresp _ _ _ E)].
Qed.

End SeededRoute.

(** * Seeds and requests without enabled assumptions *)

Section RouteMore.

Variable Math_log : float -> float.
Variable Math_cos : float -> float.

(** X2.  The route reads the seed through [seed >>> 0]. *)
Theorem seeds_equal_as_uint32_answer_alike
    (fuel : nat) (assumptions : list Assumption) (iters threshold : option float)
    (seed1 seed2 : float) (random1 random2 : Stream) :
  Js.ToUint32 seed1 = Js.ToUint32 seed2 ->
  POST Math_log Math_cos fuel
    {| r_assumptions := assumptions; r_iterations := iters;
       r_threshold := threshold; r_seed := Some seed1 |} random1
  = POST Math_log Math_cos fuel
      {| r_assumptions := assumptions; r_iterations := iters;
         r_threshold := threshold; r_seed := Some seed2 |} random2.
Proof.
  intros H. unfold POST, request_rng, request_iterations, request_threshold,
    request_enabled, mulberry32.
  cbn [r_seed r_assumptions r_iterations r_threshold]. rewrite H. reflexivity.
Qed.

(** The outer loop when no assumption is enabled: no draw is made, and
    every trial scores [0]. *)
Lemma sim_loop_nothing_enabled (dfuel fuel : nat) (n : Z) (threshold : float)
    (i success : Z) (g : Rng) :
  0 <= i <= n -> n < 2 ^ 53 -> (Z.to_nat (n - i) < fuel)%nat ->
  sim_loop Math_log Math_cos dfuel fuel (Js.of_N n) threshold [] i success g
  = Some (success + (if (threshold <? 0)%float then n - i else 0), g).
Proof.
  revert i success. induction fuel as [|fuel IH]; intros i success Hi Hn Hf; [lia|].
  cbn [sim_loop trial_score]. rewrite of_N_ltb by lia.
  destruct (Z.ltb_spec i n) as [Hlt | Hge].
  - rewrite IH by lia. f_equal. f_equal.
    destruct (threshold <? 0)%float; lia.
  - f_equal. f_equal. destruct (threshold <? 0)%float; lia.
Qed.

(** X3.  With no enabled assumption every score is [0]: the request is answered
    whatever the random source would return, with probability [1] (HIGH)
    when the clamped threshold is negative and [0] (LOW) otherwise. *)
Theorem POST_nothing_enabled (body : SimRequest) (random : Stream) :
  request_enabled body = [] ->
  exists resp,
    POST Math_log Math_cos (Z.to_nat 300001) body random = Some resp /\
    summary_enabledCount resp = 0%nat /\
    (if (request_threshold body <? 0)%float
     then probabilitySuccess resp = 1%float /\ label resp = HIGH
     else probabilitySuccess resp = 0%float /\ label resp = LOW).
Proof.
  intros He. unfold POST. rewrite He.
  destruct (request_iterations_int body) as (n & Hn & ->).
  assert (Hn53 : n < 2 ^ 53) by (apply Z.le_lt_trans with 300000; [lia | reflexivity]).
  rewrite sim_loop_nothing_enabled by lia.
  eexists. split; [reflexivity|].
  cbn [summary_enabledCount probabilitySuccess label List.length].
  split; [reflexivity|].
  destruct (request_threshold body <? 0)%float.
  - replace (0 + (n - 0)) with n by lia.
    rewrite of_N_div_self by lia. split; reflexivity.
  - cbn [Z.add]. rewrite zero_div_of_N by lia. split; reflexivity.
Qed.

End RouteMore.

Lemma clamp_key (n lo hi : float) :
  not_nan n -> not_nan lo -> not_nan hi ->
  not_nan (clamp n lo hi) /\
  key (clamp n lo hi) = Z.max (key lo) (Z.min (key hi) (key n)).
Proof.
  intros Hn Hlo Hhi. unfold clamp. rewrite Hn.
  destruct (Math_min_spec hi n Hhi Hn) as [Hc Hk].
  assert (Hm : not_nan (Js.Math_min hi n)) by (destruct Hc as [-> | ->]; assumption).
  destruct (Math_max_spec lo (Js.Math_min hi n) Hlo Hm) as [Hc' Hk'].
  split; [destruct Hc' as [-> | ->]; assumption|].
  rewrite Hk', Hk. reflexivity.
Qed.

(** X4.  An integer iteration count is used as it is when it lies in
    [[1000, 300000]], raised to [1000] when smaller and lowered to [300000]
    when larger. *)
Theorem request_iterations_of_integer
    (assumptions : list Assumption) (threshold seed : option float) (n : Z) :
  0 <= n < 2 ^ 53 ->
  request_iterations
    {| r_assumptions := assumptions; r_iterations := Some (Js.of_N n);
       r_threshold := threshold; r_seed := seed |}
  = Js.of_N (Z.max 1000 (Z.min 300000 n)).
Proof.
  intros Hn. unfold request_iterations. cbn [r_iterations Js.nullish].
  rewrite Math_floor_of_N by exact Hn.
  assert (Hr : 0 <= Z.max 1000 (Z.min 300000 n) < 2 ^ 53).
  { split; [lia|]. apply Z.le_lt_trans with 300000; [lia | reflexivity]. }
  destruct (clamp_key (Js.of_N n) 1000 300000) as [Hnn Hk];
    [apply of_N_not_nan, Hn | reflexivity | reflexivity |].
  apply key_inj.
  - exact Hnn.
  - apply of_N_not_nan, Hr.
  - rewrite Hk, !of_N_key by assumption.
    rewrite float_1000, float_300000, !of_N_key by (split; [lia | reflexivity]).
    pose proof pow1074_pos as HP.
    rewrite Z.mul_min_distr_nonneg_r, Z.mul_max_distr_nonneg_r by lia.
    reflexivity.
  - rewrite Hk, float_1000, of_N_key by (split; [lia | reflexivity]).
    pose proof pow1074_pos as HP. lia.
Qed.

(** X5.  The label never goes down when the probability goes up. *)
Theorem label_of_monotone (p q : float) :
  (p <=? q)%float = true ->
  (label_of q = LOW -> label_of p = LOW) /\
  (label_of p = HIGH -> label_of q = HIGH) /\
  (label_of p = MEDIUM -> label_of q <> LOW).
Proof.
  intros H. apply leb_true_not_nan in H. destruct H as (Hp & Hq & K).
  unfold label_of.
  rewrite !ltb_key by (try assumption; reflexivity).
  destruct (Z.ltb_spec (key p) (key 0.33)), (Z.ltb_spec (key q) (key 0.33)),
    (Z.ltb_spec (key p) (key 0.66)), (Z.ltb_spec (key q) (key 0.66));
    repeat split; intros; try congruence; try lia.
Qed.

(** X7.  A value that the page has clamped into a range passes every clamp of
    the route over a wider range unchanged. *)
Theorem clamp_of_clampNumber (x lo hi lo' hi' : float) :
  (lo' <=? lo)%float = true -> (lo <=? hi)%float = true -> (hi <=? hi')%float = true ->
  (clamp (clampNumber x lo hi) lo' hi' =? clampNumber x lo hi)%float = true.
Proof.
  intros H1 H2 H3.
  change (clampNumber x lo hi) with (clamp x lo hi).
  destruct (clamp_spec x lo hi H2) as (Hn & [Hlo Hhi] & _).
  apply leb_true_not_nan in H1. destruct H1 as (N1 & N2 & K1).
  apply leb_true_not_nan in H3. destruct H3 as (N3 & N4 & K3).
  apply clamp_in_range; apply leb_of_keys; try assumption; lia.
Qed.

(** * The page's list of assumptions *)

Lemma enabled_after_switch_off (id : string) (prev : list Assumption) :
  filter a_enabled (update id (enabled_patch false) prev)
  = filter a_enabled (remove id prev).
Proof.
  unfold update, remove. induction prev as [|a prev IH]; [reflexivity|].
  cbn [map filter]. destruct (String.eqb (a_id a) id) eqn:E; cbn [negb].
  - cbn [spread enabled_patch patch_enabled a_enabled]. exact IH.
  - cbn [filter]. destruct (a_enabled a); [f_equal|]; exact IH.
Qed.

Section PageAndRoute.

Variable Math_log : float -> float.
Variable Math_cos : float -> float.

(** X9.  Switching an assumption off on the page and deleting it give the same
    answer from the route. *)
Theorem switching_off_answers_as_deleting
    (fuel : nat) (id : string) (assumptions : list Assumption)
    (iters threshold seed : option float) (random : Stream) :
  POST Math_log Math_cos fuel
    {| r_assumptions := update id (enabled_patch false) assumptions;
       r_iterations := iters; r_threshold := threshold; r_seed := seed |} random
  = POST Math_log Math_cos fuel
      {| r_assumptions := remove id assumptions;
         r_iterations := iters; r_threshold := threshold; r_seed := seed |} random.
Proof.
  unfold POST, request_enabled, request_iterations, request_threshold, request_rng.
  cbn [r_assumptions r_iterations r_threshold r_seed].
  rewrite enabled_after_switch_off. reflexivity.
Qed.

End PageAndRoute.

Lemma remove_fresh (uid : string) (prev : list Assumption) :
  forallb (fun a => negb (String.eqb (a_id a) uid)) prev = true ->
  remove uid prev = prev.
Proof.
  unfold remove. induction prev as [|a prev IH]; [reflexivity|].
  cbn [forallb filter]. intros H. apply andb_true_iff in H. destruct H as [Ha Hp].
  rewrite Ha. f_equal. apply IH, Hp.
Qed.

(** X10.  Adding a row and deleting it again gives the list back, when the new
    identifier is not in use; the new row is enabled and comes last. *)
Theorem addRow_then_remove (uid : string) (prev : list Assumption) :
  forallb (fun a => negb (String.eqb (a_id a) uid)) prev = true ->
  remove uid (addRow uid prev) = prev /\
  enabledCount (addRow uid prev) = S (enabledCount prev) /\
  List.length (addRow uid prev) = S (List.length prev).
Proof.
  intros H. unfold addRow, enabledCount. split; [|split].
  - unfold remove. rewrite filter_app. cbn [filter a_id].
    rewrite String.eqb_refl. cbn [negb]. rewrite app_nil_r. apply remove_fresh, H.
  - rewrite filter_app, length_app. cbn [filter a_enabled List.length]. lia.
  - rewrite length_app. cbn [List.length]. lia.
Qed.

(** X11.  The "On" checkbox: the rows that carry the identifier get the new
    state, the other rows, the identifiers and the order are untouched, and
    a row already deleted is not brought back. *)
Theorem update_enabled_touches_only_id
    (id : string) (checked : bool) (prev : list Assumption) :
  map a_id (update id (enabled_patch checked) prev) = map a_id prev /\
  remove id (update id (enabled_patch checked) prev) = remove id prev /\
  Forall (fun a => a_enabled a = checked)
    (filter (fun a => String.eqb (a_id a) id) (update id (enabled_patch checked) prev)) /\
  update id (enabled_patch checked) (remove id prev) = remove id prev.
Proof.
  unfold update, remove. repeat split.
  - induction prev as [|a prev IH]; [reflexivity|]. cbn [map]. rewrite IH. f_equal.
    destruct (String.eqb (a_id a) id); reflexivity.
  - induction prev as [|a prev IH]; [reflexivity|]. cbn [map filter].
    destruct (String.eqb (a_id a) id) eqn:E.
    + cbn [spread enabled_patch patch_id a_id]. rewrite E. exact IH.
    + rewrite E. cbn [negb]. f_equal. exact IH.
  - induction prev as [|a prev IH]; [constructor|]. cbn [map filter].
    destruct (String.eqb (a_id a) id) eqn:E.
    + cbn [spread enabled_patch patch_id a_id]. rewrite E. constructor; [reflexivity | exact IH].
    + rewrite E. exact IH.
  - induction prev as [|a prev IH]; [reflexivity|]. cbn [filter].
    destruct (String.eqb (a_id a) id) eqn:E; cbn [negb]; [exact IH|].
    cbn [map]. rewrite E. f_equal. exact IH.
Qed.

(** * The draws of the MCP simulation *)

Lemma skip_zero (s : Stream) : skip s 0 = s.
Proof. destruct s as [d p]. unfold skip. cbn [draws position]. now rewrite N.add_0_r. Qed.

Lemma repeatM_draws {A} (m : M A) (d : N) (P : A -> Prop) (n : nat) :
  draws_exactly m d P ->
  draws_exactly (repeatM n m) (N.of_nat n * d)
    (fun l => List.length l = n /\ Forall P l).
Proof.
  intros Hm. induction n as [|n IH]; intros s.
  - exists []. cbn [repeatM]. unfold ret. rewrite N.mul_0_l, skip_zero. auto.
  - cbn [repeatM]. unfold bind at 1. destruct (Hm s) as (a & -> & Pa).
    unfold bind at 1. destruct (IH (skip s d)) as (l & -> & Hl & Pl).
    exists (a :: l). unfold ret. rewrite skip_skip. split; [|split].
    + do 2 f_equal. unfold skip. f_equal. lia.
    + cbn [List.length]. now rewrite Hl.
    + now constructor.
Qed.

Lemma mapM_draws {A B} (f : A -> M B) (d : N) (P : A -> B -> Prop) (l : list A) :
  (forall x, draws_exactly (f x) d (P x)) ->
  draws_exactly (mapM f l) (N.of_nat (List.length l) * d) (Forall2 P l).
Proof.
  intros Hf. induction l as [|x l IH]; intros s.
  - exists []. cbn [mapM List.length]. unfold ret. rewrite N.mul_0_l, skip_zero. auto.
  - cbn [mapM]. unfold bind at 1. destruct (Hf x s) as (y & -> & Py).
    unfold bind at 1. destruct (IH (skip s d)) as (ys & -> & Pys).
    exists (y :: ys). unfold ret. rewrite skip_skip. split.
    + do 2 f_equal. unfold skip. f_equal. cbn [List.length]. lia.
    + now constructor.
Qed.

Section McpDraws.

Variable Math_log : float -> float.
Variable Math_cos : float -> float.

(** What one sample is: the clamped value for some normal draw [z]. *)
Lemma sample_variable_draws (config : VarConfig) :
  draws_exactly (sample_variable Math_log Math_cos config) 2
    (fun v => exists z, v = sample_with z config).
Proof.
  intros s. eexists. unfold sample_variable, bind, Math_random, Math_random_next, ret.
  cbn [draws position]. split.
  - do 2 f_equal. unfold skip. f_equal. cbn [position]. lia.
  - eexists. reflexivity.
Qed.

Lemma draw_samples_draws (variables : Variables) (samples : list (string * float)) :
  draws_exactly (draw_samples Math_log Math_cos variables samples)
    (2 * N.of_nat (List.length variables))
    (fun r => map fst r = rev (map fst variables) ++ map fst samples).
Proof.
  revert samples. induction variables as [|[name config] rest IH]; intros samples s.
  - exists samples. cbn [draw_samples List.length]. unfold ret.
    change (2 * N.of_nat 0)%N with 0%N. rewrite skip_zero. auto.
  - cbn [draw_samples]. unfold bind at 1.
    destruct (sample_variable_draws config s) as (v & -> & _).
    destruct (IH ((name, v) :: samples) (skip s 2)) as (r & -> & Hr).
    exists r. rewrite skip_skip. split.
    + do 2 f_equal. unfold skip. f_equal. cbn [List.length]. lia.
    + rewrite Hr. cbn [map fst rev]. now rewrite <- app_assoc.
Qed.

Lemma trial_draws (variables : Variables) :
  draws_exactly (trial Math_log Math_cos variables)
    (2 * N.of_nat (List.length variables))
    (fun v => exists samples,
       map fst samples = rev (map fst variables) /\ v = hiring_outcome samples).
Proof.
  intros s. unfold trial, bind.
  destruct (draw_samples_draws variables [] s) as (r & -> & Hr).
  unfold ret. eexists. split; [reflexivity|]. exists r.
  cbn [map] in Hr. rewrite app_nil_r in Hr. auto.
Qed.

Lemma trial_outcomes_draws (variables : Variables) (n : nat) (s : Stream) :
  repeatM n (trial Math_log Math_cos variables) s
  = Ok (trial_outcomes Math_log Math_cos variables n s, skip s (run_draws variables n)) /\
  List.length (trial_outcomes Math_log Math_cos variables n s) = n /\
  Forall (fun v => exists samples,
            map fst samples = rev (map fst variables) /\ v = hiring_outcome samples)
    (trial_outcomes Math_log Math_cos variables n s).
Proof.
  unfold trial_outcomes, run_draws.
  destruct (repeatM_draws _ _ _ n (trial_draws variables) s) as (l & -> & Hl & Pl).
  auto.
Qed.

(** A run returns unless [n] is [0], after exactly [2 * n] draws per
    variable. *)
Lemma runSimulation_draws (variables : Variables) (n : nat) (s : Stream) :
  (1 <= n)%nat ->
  runSimulation Math_log Math_cos variables n s
  = Ok (summary_of (js_sort PrimFloat.sub (trial_outcomes Math_log Math_cos variables n s))
          (Js.of_N (Z.of_nat n)),
        skip s (run_draws variables n)).
Proof.
  intros Hn. destruct (trial_outcomes_draws variables n s) as (E & Hl & _).
  unfold runSimulation, bind. rewrite E.
  rewrite summarize_ok; [reflexivity|].
  intros Hnil. apply (f_equal (@List.length float)) in Hnil.
  rewrite js_sort_length, Hl in Hnil. cbn in Hnil. lia.
Qed.

End McpDraws.

Section McpRuns.

Variable Math_log : float -> float.
Variable Math_cos : float -> float.

(** X13.  [runSimulation] throws when asked for no trial ([reduce] of an empty
    array) and otherwise returns, whatever the variables hold, after exactly
    two draws per variable and trial. *)
Theorem runSimulation_returns_unless_no_trial
    (variables : Variables) (n : nat) (s : Stream) :
  match n with
  | O => runSimulation Math_log Math_cos variables n s = Throw ReduceOfEmptyArray
  | S _ =>
      exists r,
        runSimulation Math_log Math_cos variables n s
        = Ok (r, {| draws := draws s;
                    position := (position s
                                 + N.of_nat n * (2 * N.of_nat (List.length variables)))%N |})
  end.
Proof.
  destruct n as [|n]; [reflexivity|].
  eexists. apply runSimulation_draws. lia.
Qed.

(** X14.  The statistics of a run: [prob_positive] lies in [[0, 1]], and the
    median and the two percentiles are outcomes of trials of this run. *)
Theorem runSimulation_statistics (variables : Variables) (n : nat) (s : Stream) :
  1 <= Z.of_nat n < 2 ^ 53 ->
  exists r s',
    runSimulation Math_log Math_cos variables n s = Ok (r, s') /\
    (0 <=? prob_positive r)%float = true /\
    (prob_positive r <=? 1)%float = true /\
    In (p10 r) (trial_outcomes Math_log Math_cos variables n s) /\
    In (median r) (trial_outcomes Math_log Math_cos variables n s) /\
    In (p90 r) (trial_outcomes Math_log Math_cos variables n s).
Proof.
  intros Hn. rewrite runSimulation_draws by lia. eexists _, _. split; [reflexivity|].
  destruct (trial_outcomes_draws Math_log Math_cos variables n s) as (_ & Hl & _).
  set (outcomes := trial_outcomes Math_log Math_cos variables n s) in *.
  set (sorted := js_sort PrimFloat.sub outcomes).
  assert (Hsl : List.length sorted = n) by (subst sorted; now rewrite js_sort_length).
  cbn [summary_of prob_positive p10 median p90].
  pose proof (percentile_indices_in_range n Hn) as Hidx.
  unfold percentile_indices_ok in Hidx.
  apply andb_true_iff in Hidx. destruct Hidx as [Hidx H90].
  apply andb_true_iff in Hidx. destruct Hidx as [H10 H50].
  apply Nat.leb_le in H10, H50. apply Nat.ltb_lt in H90.
  assert (Hin : forall i, (i < n)%nat -> In (nth i sorted nan) outcomes).
  { intros i Hi. apply Permutation_in with sorted.
    - apply Permutation_sym, js_sort_perm.
    - apply nth_In. lia. }
  pose proof (filter_length_le (fun x => (0 <? x)%float) sorted) as Hc.
  destruct (of_N_div_unit
              (Z.of_nat (List.length (filter (fun x => (0 <? x)%float) sorted)))
              (Z.of_nat n)) as [H0 H1]; [lia | lia |].
  unfold at_index.
  split; [exact H0|]. split; [exact H1|].
  split; [|split]; apply Hin; lia.
Qed.

End McpRuns.

(** ** NaN in arithmetic *)

Lemma mul_nan_l (x y : float) : is_nan x = true -> is_nan (x * y) = true.
Proof.
  rewrite !is_nan_spec, mul_spec. destruct (Prim2SF x); try discriminate. reflexivity.
Qed.

Lemma mul_nan_r (x y : float) : is_nan y = true -> is_nan (x * y) = true.
Proof.
  rewrite !is_nan_spec, mul_spec. destruct (Prim2SF y); try discriminate.
  intros _. destruct (Prim2SF x); reflexivity.
Qed.

Lemma add_nan_l (x y : float) : is_nan x = true -> is_nan (x + y) = true.
Proof.
  rewrite !is_nan_spec, add_spec. destruct (Prim2SF x); try discriminate. reflexivity.
Qed.

Lemma add_nan_r (x y : float) : is_nan y = true -> is_nan (x + y) = true.
Proof.
  rewrite !is_nan_spec, add_spec. destruct (Prim2SF y); try discriminate.
  intros _. destruct (Prim2SF x); reflexivity.
Qed.

Lemma sub_nan_l (x y : float) : is_nan x = true -> is_nan (x - y) = true.
Proof.
  rewrite !is_nan_spec, sub_spec. destruct (Prim2SF x); try discriminate. reflexivity.
Qed.

Lemma sub_nan_r (x y : float) : is_nan y = true -> is_nan (x - y) = true.
Proof.
  rewrite !is_nan_spec, sub_spec. destruct (Prim2SF y); try discriminate.
  intros _. destruct (Prim2SF x); reflexivity.
Qed.

Lemma div_nan_l (x y : float) : is_nan x = true -> is_nan (x / y) = true.
Proof.
  rewrite !is_nan_spec, div_spec. destruct (Prim2SF x); try discriminate. reflexivity.
Qed.

Lemma fold_add_nan (l : list float) (x : float) :
  is_nan x = true -> is_nan (fold_left PrimFloat.add l x) = true.
Proof.
  revert x. induction l as [|y l IH]; intros x Hx; cbn [fold_left]; [exact Hx|].
  apply IH, add_nan_l, Hx.
Qed.

(** ** Variables that are not those of the hiring model *)

Lemma sample_get_missing (samples : list (string * float)) (k : string) :
  existsb (String.eqb k) (map fst samples) = false -> sample_get samples k = nan.
Proof.
  induction samples as [|[k0 v] rest IH]; cbn [map fst existsb sample_get]; [reflexivity|].
  intros H. apply orb_false_iff in H. destruct H as [Hk Hr].
  rewrite String.eqb_sym, Hk. apply IH, Hr.
Qed.

Lemma existsb_rev {A} (f : A -> bool) (l : list A) : existsb f (rev l) = existsb f l.
Proof.
  apply eq_true_iff_eq. rewrite !existsb_exists.
  split; intros (x & Hx & Hf); exists x; split; auto.
  - apply in_rev. exact Hx.
  - apply in_rev in Hx. exact Hx.
Qed.

Lemma hiring_outcome_nan (samples : list (string * float)) :
  forallb (fun k => existsb (String.eqb k) (map fst samples)) hiring_keys = false ->
  is_nan (hiring_outcome samples) = true.
Proof.
  unfold hiring_keys. cbn [forallb]. rewrite andb_true_r. intros H.
  unfold hiring_outcome.
  repeat (apply andb_false_iff in H; destruct H as [H | H]);
    apply sample_get_missing in H; rewrite H.
  - apply sub_nan_r, mul_nan_l. reflexivity.
  - apply sub_nan_r, mul_nan_r. reflexivity.
  - apply sub_nan_l, mul_nan_l, mul_nan_l, add_nan_l, mul_nan_l, mul_nan_r. reflexivity.
  - apply sub_nan_l, mul_nan_l, mul_nan_l, add_nan_r, mul_nan_r. reflexivity.
  - apply sub_nan_l, mul_nan_l, mul_nan_r. reflexivity.
  - apply sub_nan_l, mul_nan_r. reflexivity.
Qed.

Section McpModel.

Variable Math_log : float -> float.
Variable Math_cos : float -> float.

Lemma trial_outcomes_nan (variables : Variables) (n : nat) (s : Stream) :
  has_hiring_keys variables = false ->
  Forall (fun v => is_nan v = true) (trial_outcomes Math_log Math_cos variables n s).
Proof.
  intros H. destruct (trial_outcomes_draws Math_log Math_cos variables n s) as (_ & _ & Hs).
  eapply Forall_impl; [|exact Hs]. cbn beta.
  intros v (samples & Hk & ->). apply hiring_outcome_nan.
  unfold has_hiring_keys, hiring_keys in H |- *. cbn [forallb] in H |- *.
  rewrite Hk, !existsb_rev. exact H.
Qed.

(** The statistics of outcomes that are all NaN. *)
Lemma summary_of_another_model (variables : Variables) (n : nat) (s : Stream) :
  1 <= Z.of_nat n < 2 ^ 53 ->
  has_hiring_keys variables = false ->
  let r := summary_of (js_sort PrimFloat.sub
                         (trial_outcomes Math_log Math_cos variables n s))
             (Js.of_N (Z.of_nat n)) in
  is_nan (mean r) = true /\ is_nan (median r) = true /\
  is_nan (p10 r) = true /\ is_nan (p90 r) = true /\
  prob_positive r = 0%float.
Proof.
  intros Hn Hk.
  pose proof (trial_outcomes_nan variables n s Hk) as Hnan.
  destruct (trial_outcomes_draws Math_log Math_cos variables n s) as (_ & Hl & _).
  set (outcomes := trial_outcomes Math_log Math_cos variables n s) in *.
  assert (Hs : Forall (fun v => is_nan v = true) (js_sort PrimFloat.sub outcomes)).
  { eapply Permutation_Forall; [apply js_sort_perm | exact Hnan]. }
  assert (Hsl : List.length (js_sort PrimFloat.sub outcomes) = n)
    by now rewrite js_sort_length.
  set (sorted := js_sort PrimFloat.sub outcomes) in *.
  cbn [summary_of mean median p10 p90 prob_positive].
  assert (Hnth : forall i, is_nan (nth i sorted nan) = true).
  { intros i. destruct (Nat.lt_ge_cases i (List.length sorted)) as [Hi | Hi].
    - rewrite Forall_forall in Hs. apply Hs, nth_In, Hi.
    - rewrite nth_overflow by exact Hi. reflexivity. }
  split; [|split; [|split; [|split]]]; try apply Hnth.
  - apply div_nan_l. destruct sorted as [|x rest]; [cbn in Hsl; lia|].
    cbn [hd tl]. apply fold_add_nan. inversion Hs; assumption.
  - assert (Hf : filter (fun x => (0 <? x)%float) sorted = []).
    { clear Hsl Hnth. induction Hs as [|x l Hx _ IH]; [reflexivity|].
      cbn [filter]. rewrite (ltb_nan_r 0 x Hx). exact IH. }
    rewrite Hf. cbn [List.length Z.of_nat]. apply zero_div_of_N, Hn.
Qed.

(** X15.  When [variables] lacks one of the six properties that the hiring model
    reads, every outcome is NaN: the run still returns, its mean, median
    and percentiles are NaN and [prob_positive] is [0]. *)
Theorem runSimulation_of_another_model (variables : Variables) (n : nat) (s : Stream) :
  1 <= Z.of_nat n < 2 ^ 53 ->
  has_hiring_keys variables = false ->
  exists r s',
    runSimulation Math_log Math_cos variables n s = Ok (r, s') /\
    is_nan (mean r) = true /\ is_nan (median r) = true /\
    is_nan (p10 r) = true /\ is_nan (p90 r) = true /\
    prob_positive r = 0%float.
Proof.
  intros Hn Hk. rewrite runSimulation_draws by lia. eexists _, _. split; [reflexivity|].
  exact (summary_of_another_model variables n s Hn Hk).
Qed.

End McpModel.

Lemma Math_min_nan (a b : float) :
  is_nan a || is_nan b = true -> is_nan (Js.Math_min a b) = true.
Proof. unfold Js.Math_min. intros ->. reflexivity. Qed.

Lemma Math_max_nan (a b : float) :
  is_nan a || is_nan b = true -> is_nan (Js.Math_max a b) = true.
Proof. unfold Js.Math_max. intros ->. reflexivity. Qed.

(** The clamped sample for a normal draw [z]: NaN, or a number that is at
    least [min] and, when the bounds are in order, at most [max]. *)
Lemma sample_with_bounds (z : float) (config : VarConfig) :
  is_nan (sample_with z config) = true \/
  ((v_min config <=? sample_with z config)%float = true /\
   ((v_min config <=? v_max config)%float = true ->
    (sample_with z config <=? v_max config)%float = true) /\
   ((v_max config <? v_min config)%float = true ->
    (sample_with z config =? v_min config)%float = true)).
Proof.
  unfold sample_with.
  set (x := (v_base config + z * ((v_max config - v_min config) / 4))%float).
  destruct (is_nan (v_min config)) eqn:Nlo.
  { left. apply Math_max_nan. rewrite Nlo. reflexivity. }
  destruct (is_nan (v_max config)) eqn:Nhi.
  { left. apply Math_max_nan. rewrite (Math_min_nan _ _); [apply orb_true_r|].
    rewrite Nhi. reflexivity. }
  destruct (is_nan x) eqn:Nx.
  { left. apply Math_max_nan. rewrite (Math_min_nan _ _); [apply orb_true_r|].
    rewrite Nx. apply orb_true_r. }
  right.
  destruct (Math_min_spec (v_max config) x Nhi Nx) as [Hc Hk].
  assert (Hm : not_nan (Js.Math_min (v_max config) x))
    by (destruct Hc as [-> | ->]; assumption).
  destruct (Math_max_spec (v_min config) _ Nlo Hm) as [Hc' Hk'].
  assert (Hv : not_nan (Js.Math_max (v_min config) (Js.Math_min (v_max config) x)))
    by (destruct Hc' as [-> | ->]; assumption).
  rewrite Hk in Hk'.
  split; [|split].
  - apply leb_of_keys; try assumption. lia.
  - intros H. apply leb_true_not_nan in H. destruct H as (_ & _ & K).
    apply leb_of_keys; try assumption. lia.
  - intros H. apply ltb_true_not_nan in H. destruct H as (_ & _ & K).
    rewrite eqb_key by assumption. apply Z.eqb_eq. lia.
Qed.

Section McpSensitivity.

Variable Math_log : float -> float.
Variable Math_cos : float -> float.

(** X12.  Every sample is taken after exactly two draws and is NaN or clamped:
    at least [min]; at most [max] when [min <= max]; and [min] itself when
    the bounds are inverted. *)
Theorem sample_variable_within_bounds (config : VarConfig) (s : Stream) :
  exists v,
    sample_variable Math_log Math_cos config s
    = Ok (v, {| draws := draws s; position := (position s + 2)%N |}) /\
    (is_nan v = true \/
     ((v_min config <=? v)%float = true /\
      ((v_min config <=? v_max config)%float = true ->
       (v <=? v_max config)%float = true) /\
      ((v_max config <? v_min config)%float = true ->
       (v =? v_min config)%float = true))).
Proof.
  destruct (sample_variable_draws Math_log Math_cos config s) as (v & E & z & ->).
  eexists. split; [exact E|]. apply sample_with_bounds.
Qed.

End McpSensitivity.

Lemma abs_nonneg_or_nan (x : float) :
  is_nan (Js.Math_abs x) = true \/ (0 <=? Js.Math_abs x)%float = true.
Proof.
  unfold Js.Math_abs. destruct (abs_key x) as [K N].
  destruct (is_nan x) eqn:E; [left; now rewrite N|right].
  apply leb_of_keys; [reflexivity | unfold not_nan; now rewrite N |].
  rewrite key_zero, K. lia.
Qed.

Section McpRows.

Variable Math_log : float -> float.
Variable Math_cos : float -> float.

Lemma sensitivity_row_draws (variables : Variables) (baseResults : Results)
    (entry : string * VarConfig) :
  draws_exactly (sensitivity_row Math_log Math_cos variables baseResults entry)
    (2 * run_draws variables 5000)
    (fun row =>
       row_entry row = entry /\
       (is_nan (impact_percent row) = true \/ (0 <=? impact_percent row)%float = true)).
Proof.
  intros s. destruct entry as [name config]. unfold sensitivity_row, bind.
  rewrite runSimulation_draws by exact five_thousand_pos.
  rewrite runSimulation_draws by exact five_thousand_pos.
  rewrite !run_draws_override, skip_skip. unfold ret.
  eexists. split; [|split].
  - do 2 f_equal. unfold skip. f_equal. lia.
  - unfold row_entry. cbn [variable row_base row_min row_max]. destruct config; reflexivity.
  - cbn [impact_percent]. apply abs_nonneg_or_nan.
Qed.

(** X16.  The analysis returns for every set of variables, NaN or not: its rows
    are the entries of [variables], one row each with the entry's [base],
    [min] and [max], in some order; no impact is negative; and it has made
    [2 * 5000] runs' worth of draws per variable. *)
Theorem sensitivity_rows_cover_variables
    (variables : Variables) (baseResults : Results) (s : Stream) :
  exists rows,
    sensitivity Math_log Math_cos variables baseResults s
    = Ok (rows,
          {| draws := draws s;
             position := (position s
                          + N.of_nat (List.length variables)
                            * (2 * (5000 * (2 * N.of_nat (List.length variables)))))%N |}) /\
    Permutation (map row_entry rows) variables /\
    Forall (fun row => is_nan (impact_percent row) = true \/
                       (0 <=? impact_percent row)%float = true) rows.
Proof.
  unfold sensitivity, bind.
  destruct (mapM_draws _ _ _ variables (sensitivity_row_draws variables baseResults) s)
    as (rows & -> & Hrows).
  unfold ret. eexists. split; [reflexivity|].
  assert (Hmap : map row_entry rows = variables).
  { clear - Hrows. induction Hrows as [|x y l l' [Hxy _] _ IH]; [reflexivity|].
    cbn [map]. now rewrite Hxy, IH. }
  split.
  - rewrite <- Hmap. apply Permutation_sym, Permutation_map, js_sort_perm.
  - eapply Permutation_Forall; [apply js_sort_perm|].
    clear - Hrows. induction Hrows as [|x y l l' [_ Hy] _ IH]; constructor; assumption.
Qed.

End McpRows.

Section McpHandler.

Variable Math_log : float -> float.
Variable Math_cos : float -> float.

(** The ranking under any base result: its first row, if there is one. *)
Lemma sensitivity_top (variables : Variables) (baseResults : Results) (s : Stream) :
  exists rows s',
    sensitivity Math_log Math_cos variables baseResults s = Ok (rows, s') /\
    List.length rows = List.length variables /\
    (forall row, In row rows -> In (variable row) (map fst variables)).
Proof.
  unfold sensitivity, bind.
  destruct (mapM_draws _ _ _ variables
              (sensitivity_row_draws Math_log Math_cos variables baseResults) s)
    as (rows & -> & Hrows).
  unfold ret. eexists _, _. split; [reflexivity|].
  assert (Hmap : map row_entry rows = variables).
  { clear - Hrows. induction Hrows as [|x y l l' [Hxy _] _ IH]; [reflexivity|].
    cbn [map]. now rewrite Hxy, IH. }
  split.
  - rewrite js_sort_length. rewrite <- Hmap. now rewrite length_map.
  - intros row Hin.
    apply (Permutation_in _ (Permutation_sym (js_sort_perm by_impact_desc rows))) in Hin.
    rewrite <- Hmap, map_map. cbn [row_entry fst].
    apply (in_map variable), Hin.
Qed.

Lemma analyze_decision_cases (args : Arguments) (s : Stream) :
  match variables args with
  | [] => analyze_decision Math_log Math_cos args s
          = Throw (ReadPropertyOfUndefined "variable")
  | _ :: _ =>
      exists summary s',
        analyze_decision Math_log Math_cos args s
        = Ok ({| status := 200; body := Content summary false |}, s') /\
        s_decision summary = decision_name args /\
        In (s_most_sensitive summary) (map fst (variables args))
  end.
Proof.
  unfold analyze_decision, bind.
  rewrite runSimulation_draws by exact ten_thousand_pos.
  set (results := summary_of _ _). set (s1 := skip s _).
  destruct (sensitivity_top (variables args) results s1) as (rows & s2 & -> & Hl & Hin).
  destruct (variables args) as [|entry rest] eqn:Ev.
  - destruct rows; [reflexivity | discriminate].
  - destruct rows as [|top rows]; [discriminate|].
    unfold ret. eexists _, _. split; [reflexivity|].
    cbn [s_decision s_most_sensitive]. split; [reflexivity|].
    apply Hin. now left.
Qed.

(** X17.  A [tools/call] of [analyze_decision] with at least one variable is
    always answered 200 with [isError: false], whatever the variables hold;
    the text names the decision and, as most sensitive, one of the given
    variables. *)
Theorem handler_answers_any_variables
    (name : string) (vars : Variables) (random : Stream) :
  vars <> [] ->
  exists summary,
    handler Math_log Math_cos
      {| req_method := "POST";
         body_method := "tools/call";
         body_params :=
           Some {| p_name := "analyze_decision";
                   p_arguments :=
                     Some {| decision_name := name; variables := vars |} |} |}
      random
    = {| status := 200; body := Content summary false |} /\
    s_decision summary = name /\
    In (s_most_sensitive summary) (map fst vars).
Proof.
  intros Hne. unfold handler, try_block.
  cbn [req_method body_method body_params p_name p_arguments].
  change ("POST" =? "OPTIONS")%string with false.
  change ("POST" =? "GET")%string with false.
  change ("POST" =? "POST")%string with true.
  change ("tools/call" =? "tools/list")%string with false.
  change ("tools/call" =? "tools/call")%string with true.
  change ("analyze_decision" =? "analyze_decision")%string with true.
  cbn iota.
  pose proof (analyze_decision_cases {| decision_name := name; variables := vars |} random)
    as H.
  cbn [variables decision_name] in H.
  destruct vars as [|entry rest]; [congruence|].
  destruct H as (summary & s' & -> & Hd & Hin). eauto.
Qed.

(** X18.  Every response of the handler, by its body: which status it carries and
    which request it answers.  In particular [isError] is [true] exactly
    with status 500, and 500 answers only a [tools/call]. *)
Theorem handler_responses (req : McpRequest) (random : Stream) :
  let response := handler Math_log Math_cos req random in
  match body response with
  | NoBody => status response = 200 /\ req_method req = "OPTIONS"%string
  | Healthy => status response = 200 /\ req_method req = "GET"%string
  | ToolList =>
      status response = 200 /\ req_method req = "POST"%string /\
      body_method req = "tools/list"%string
  | Content _ isError =>
      status response = 200 /\ isError = false /\ req_method req = "POST"%string /\
      body_method req = "tools/call"%string
  | ErrorOnly error =>
      (status response = 404 /\ error = "Unknown method"%string /\
       req_method req = "POST"%string /\ body_method req <> "tools/list"%string) \/
      (status response = 405 /\ error = "Method not allowed"%string /\
       req_method req <> "OPTIONS"%string /\ req_method req <> "GET"%string /\
       req_method req <> "POST"%string)
  | ErrorFlagged _ isError =>
      status response = 500 /\ isError = true /\ req_method req = "POST"%string /\
      body_method req = "tools/call"%string
  end.
Proof.
  cbv zeta. unfold handler.
  destruct (String.eqb_spec (req_method req) "OPTIONS") as [Ho | Ho]; [cbn; auto|].
  destruct (String.eqb_spec (req_method req) "GET") as [Hg | Hg]; [cbn; auto|].
  destruct (String.eqb_spec (req_method req) "POST") as [Hp | Hp];
    [|cbn [body status]; right; auto].
  unfold try_block.
  destruct (String.eqb_spec (body_method req) "tools/list") as [Hl | Hl]; [cbn; auto|].
  destruct (String.eqb_spec (body_method req) "tools/call") as [Hc | Hc];
    [|cbn; left; auto].
  destruct (body_params req) as [params|]; [|cbn; auto].
  destruct (String.eqb (p_name params) "analyze_decision"); [|cbn; left; auto].
  destruct (p_arguments params) as [args|]; [|cbn; auto].
  pose proof (analyze_decision_cases args random) as H.
  destruct (variables args) as [|entry rest].
  - rewrite H. cbn. auto.
  - destruct H as (summary & s' & -> & _). cbn. auto.
Qed.

End McpHandler.

(** [Math.floor] of a positive number below [2^53]: its integer part. *)
Lemma Math_floor_key (x : float) :
  not_nan x -> 0 < key x < 2 ^ 53 * 2 ^ 1074 ->
  not_nan (Js.Math_floor x) /\
  key (Js.Math_floor x) = key x / 2 ^ 1074 * 2 ^ 1074.
Proof.
  pose proof pow1074_pos as HP. pose proof pow2100_pos as HI.
  assert (Hinf : 2 ^ 53 * 2 ^ 1074 < 2 ^ 2100).
  { rewrite <- Z.pow_add_r by lia. apply Z.pow_lt_mono_r; lia. }
  unfold not_nan. rewrite !is_nan_spec. unfold Js.Math_floor, key.
  pose proof (Prim2SF_valid x) as V.
  destruct (Prim2SF x) as [s|s| |s m e] eqn:E; cbn [SFkey SFis_nan].
  - intros _ H. lia.
  - intros _ H. destruct s; lia.
  - intros H. discriminate.
  - cbn [valid_binary] in V. pose proof (bounded_mantissa m e V) as (He & Hm & _).
    assert (HPe : 0 < 2 ^ (e + 1074)) by (apply Z.pow_pos_nonneg; lia).
    intros _ H. destruct s; [lia|].
    destruct (Z.leb_spec 0 e) as [He0 | He0].
    + rewrite E. cbn [SFis_nan SFkey]. split; [reflexivity|].
      rewrite Z.pow_add_r by lia. rewrite Z.mul_assoc, Z.div_mul by lia. reflexivity.
    + assert (Hk : 0 < 2 ^ (- e)) by (apply Z.pow_pos_nonneg; lia).
      assert (Hz : 0 <= Z.pos m / 2 ^ (- e) < 2 ^ 53).
      { split; [apply Z.div_pos; lia|].
        apply Z.le_lt_trans with (Z.pos m); [|lia].
        apply Z.div_le_upper_bound; [lia|].
        replace (Z.pos m) with (1 * Z.pos m) at 1 by lia.
        apply Z.mul_le_mono_nonneg_r; lia. }
      pose proof (of_N_not_nan _ Hz) as Hn. rewrite is_nan_spec in Hn.
      pose proof (of_N_key _ Hz) as Hkey. unfold key in Hkey.
      split; [exact Hn|]. rewrite Hkey. f_equal.
      rewrite (pow2_split (e + 1074) 1074) by lia.
      replace (1074 - (e + 1074)) with (- e) by lia.
      rewrite (Z.mul_comm (Z.pos m)).
      rewrite Z.div_mul_cancel_l; [reflexivity | lia | lia].
Qed.

(** X8.  The iteration count that the page sends lies in [[1000, 200000]]; the
    route floors it and its own cap of 300000 never applies. *)
Theorem page_iterations_are_floored
    (assumptions : list Assumption) (threshold x : float) :
  let v := clampNumber x 1000 200000 in
  request_iterations (page_request assumptions v threshold) = Js.Math_floor v /\
  (1000 <=? Js.Math_floor v)%float = true /\
  (Js.Math_floor v <=? v)%float = true /\
  (v <=? 200000)%float = true.
Proof.
  intros v. pose proof pow1074_pos as HP.
  assert (H1 : key 1000 = 1000 * 2 ^ 1074)
    by (rewrite float_1000; apply of_N_key; split; [lia | reflexivity]).
  assert (H3 : key 300000 = 300000 * 2 ^ 1074)
    by (rewrite float_300000; apply of_N_key; split; [lia | reflexivity]).
  assert (H2 : key 200000 = 200000 * 2 ^ 1074)
    by (change 200000%float with (Js.of_N 200000); apply of_N_key;
        split; [lia | reflexivity]).
  destruct (clamp_spec x 1000 200000 eq_refl) as (Hv & [Hlo Hhi] & _).
  change (clamp x 1000 200000) with v in Hv, Hlo, Hhi.
  rewrite H1 in Hlo. rewrite H2 in Hhi.
  assert (Hlt : 200000 * 2 ^ 1074 < 2 ^ 53 * 2 ^ 1074)
    by (apply Z.mul_lt_mono_pos_r; [exact HP | reflexivity]).
  destruct (Math_floor_key v Hv ltac:(lia)) as [Hf Kf].
  assert (Hq : 1000 <= key v / 2 ^ 1074 <= 200000).
  { split; [apply Z.div_le_lower_bound; lia|].
    apply Z.div_le_upper_bound; lia. }
  pose proof (Z.mul_div_le (key v) (2 ^ 1074) HP) as Hle.
  unfold request_iterations, page_request. cbn [r_iterations Js.nullish].
  split; [|split; [|split]].
  - destruct (clamp_key (Js.Math_floor v) 1000 300000 Hf eq_refl eq_refl) as [Hc Kc].
    apply key_inj; try assumption.
    + rewrite Kc, H1, H3, Kf. nia.
    + rewrite Kc, H1. lia.
  - apply leb_of_keys; [reflexivity | exact Hf |]. rewrite H1, Kf. nia.
  - apply leb_of_keys; [exact Hf | exact Hv |]. rewrite Kf. lia.
  - apply leb_of_keys; [exact Hv | reflexivity |]. rewrite H2. exact Hhi.
Qed.

(** ** The quotient of two normal numbers and its neighbours *)

(** The quotient [a / b] of normal numbers is [m2 * 2^e1] where [m1 * 2^e1]
    and [(m1 + 1) * 2^e1] are the neighbours of the exact quotient and [m2]
    is [m1] or [m1 + 1]; it is [m1 + 1] only when the exact quotient lies
    strictly above [m1 * 2^e1]. *)
Lemma div_normal_grid (a b : float) (ma mb : positive) (ea eb : Z) :
  Prim2SF a = S754_finite false ma ea ->
  Prim2SF b = S754_finite false mb eb ->
  2 ^ 52 <= Z.pos ma < 2 ^ 53 -> 2 ^ 52 <= Z.pos mb < 2 ^ 53 ->
  -1074 <= ea - eb - 53 -> ea - eb - 51 <= 971 ->
  exists m1 m2 e1,
    2 ^ 52 <= m1 < 2 ^ 53 /\ m1 <= m2 <= m1 + 1 /\ -1074 <= e1 /\
    not_nan (a / b) /\ key (a / b) = m2 * 2 ^ (e1 + 1074) /\
    m1 * 2 ^ (e1 + 1074) * key b <= key a * 2 ^ 1074 /\
    key a * 2 ^ 1074 < (m1 + 1) * 2 ^ (e1 + 1074) * key b /\
    (m2 = m1 + 1 -> m1 * 2 ^ (e1 + 1074) * key b < key a * 2 ^ 1074).
Proof.
  intros Ea Eb Hma Hmb Hlo Hhi.
  pose proof (Prim2SF_valid a) as Va. rewrite Ea in Va. cbn [valid_binary] in Va.
  pose proof (Prim2SF_valid b) as Vb. rewrite Eb in Vb. cbn [valid_binary] in Vb.
  pose proof (bounded_mantissa ma ea Va) as (Hea & _).
  pose proof (bounded_mantissa mb eb Vb) as (Heb & _).
  unfold not_nan. rewrite is_nan_spec. unfold key.
  rewrite div_spec, Ea, Eb. unfold SF64div. cbn [SFdiv xorb SFkey].
  unfold SFdiv_core_binary.
  rewrite (Zdigits2_eq (Z.pos ma) 53) by (try lia; exact Hma).
  rewrite (Zdigits2_eq (Z.pos mb) 53) by (try lia; exact Hmb).
  replace (Z.min (fexp prec emax (53 + ea - (53 + eb))) (ea - eb)) with (ea - eb - 53)
    by (unfold fexp, SpecFloat.emin, prec, emax; lia).
  replace (ea - eb - (ea - eb - 53)) with 53 by lia.
  rewrite Z.shiftl_mul_pow2 by lia.
  pose proof (Z_div_mod (Z.pos ma * 2 ^ 53) (Z.pos mb) ltac:(lia)) as Hdm.
  destruct (Z.div_eucl (Z.pos ma * 2 ^ 53) (Z.pos mb)) as [q r].
  destruct Hdm as [Hq Hr].
  set (A := Z.pos ma) in *. set (B := Z.pos mb) in *.
  change (2 ^ 52) with 4503599627370496 in Hma, Hmb.
  change (2 ^ 53) with 9007199254740992 in Hma, Hmb, Hq.
  (* the integer quotient has 53 or 54 digits *)
  assert (Hq52 : 2 ^ 52 <= q).
  { change (2 ^ 52) with 4503599627370496.
    destruct (Z_le_gt_dec 4503599627370496 q) as [|Hgt]; [assumption|exfalso].
    assert (B * q <= B * 4503599627370495) by (apply Z.mul_le_mono_nonneg_l; lia).
    assert (4503599627370496 * 9007199254740992 <= A * 9007199254740992)
      by (apply Z.mul_le_mono_nonneg_r; lia).
    assert (B * 4503599627370495 + B <= 9007199254740992 * 4503599627370496) by nia.
    lia. }
  assert (Hq54 : q < 2 ^ 54).
  { change (2 ^ 54) with 18014398509481984.
    destruct (Z_lt_ge_dec q 18014398509481984) as [|Hge]; [assumption|exfalso].
    assert (B * 18014398509481984 <= B * q) by (apply Z.mul_le_mono_nonneg_l; lia).
    assert (A * 9007199254740992 < 9007199254740992 * 9007199254740992)
      by (apply Z.mul_lt_mono_pos_r; lia).
    assert (4503599627370496 * 18014398509481984 <= B * 18014398509481984)
      by (apply Z.mul_le_mono_nonneg_r; lia).
    lia. }
  assert (Hq0 : 0 < q) by (pose proof (Z.pow_pos_nonneg 2 52); lia).
  pose proof (Zdigits2_bounds q Hq0) as [Hdlo Hdhi].
  set (d := Zdigits2 q) in *.
  assert (Hd : 53 <= d <= 54).
  { split.
    - pose proof (Zdigits2_ge_pow q 52 ltac:(lia) Hq52). subst d. lia.
    - apply Zdigits2_le_pow; lia. }
  destruct (binary_round_aux_spec false q (ea - eb - 53)
              (new_location B r) ltac:(lia)) as (m2 & Hb & Hexact & ->).
  assert (Hn1 : shr_amount q (ea - eb - 53) = d - 53)
    by (unfold shr_amount; fold d; lia).
  rewrite Hn1 in *. set (n1 := d - 53) in *.
  assert (H2n : 0 < 2 ^ n1) by (apply Z.pow_pos_nonneg; lia).
  assert (Hm1 : 2 ^ 52 <= q / 2 ^ n1 < 2 ^ 53).
  { split.
    - apply Z.div_le_lower_bound; [lia|].
      rewrite <- Z.pow_add_r by lia. replace (n1 + 52) with (d - 1) by lia. exact Hdlo.
    - apply Z.div_lt_upper_bound; [lia|].
      rewrite <- Z.pow_add_r by lia. replace (n1 + 53) with d by lia. exact Hdhi. }
  set (e1 := ea - eb - 53 + n1) in *.
  destruct (rounded_key m2 e1 ltac:(lia) ltac:(lia) ltac:(lia)) as (m & e & Er & Kr).
  exists (q / 2 ^ n1), m2, e1.
  split; [exact Hm1|]. split; [exact Hb|]. split; [lia|].
  split; [rewrite Er; reflexivity|]. split; [exact Kr|].
  (* the three inequalities, on a common scale *)
  pose proof (Z.div_mod q (2 ^ n1) ltac:(lia)) as Hqm.
  pose proof (Z.mod_pos_bound q (2 ^ n1) H2n) as Hrm.
  set (m1 := q / 2 ^ n1) in *. set (r1 := q mod 2 ^ n1) in *. set (T := 2 ^ n1) in *.
  set (C := 2 ^ (ea - 53 + 2148)).
  assert (HC : 0 < C) by (apply Z.pow_pos_nonneg; lia).
  assert (EL : forall k, k * 2 ^ (e1 + 1074) * (B * 2 ^ (eb + 1074)) = k * T * B * C).
  { intros k. subst C T e1.
    replace (ea - 53 + 2148) with ((ea - eb - 53 + 1074) + (eb + 1074)) by lia.
    replace (ea - eb - 53 + n1 + 1074) with (n1 + (ea - eb - 53 + 1074)) by lia.
    rewrite (Z.pow_add_r 2 n1) by lia.
    rewrite (Z.pow_add_r 2 (ea - eb - 53 + 1074) (eb + 1074)) by lia. ring. }
  assert (ER : A * 2 ^ (ea + 1074) * 2 ^ 1074 = A * 9007199254740992 * C).
  { subst C. change 9007199254740992 with (2 ^ 53).
    replace (ea - 53 + 2148) with (ea + 1074 + 1074 - 53) by lia.
    rewrite <- !Z.mul_assoc. f_equal. rewrite <- !Z.pow_add_r by lia. f_equal. lia. }
  rewrite !EL, ER.
  assert (H1 : m1 * T * B <= A * 9007199254740992).
  { assert (m1 * T <= q) by lia.
    assert (m1 * T * B <= q * B) by (apply Z.mul_le_mono_nonneg_r; lia). lia. }
  assert (H2 : A * 9007199254740992 < (m1 + 1) * T * B).
  { assert (q + 1 <= (m1 + 1) * T) by lia.
    assert ((q + 1) * B <= (m1 + 1) * T * B) by (apply Z.mul_le_mono_nonneg_r; lia). lia. }
  split; [apply Z.mul_le_mono_nonneg_r; lia|].
  split; [apply Z.mul_lt_mono_pos_r; lia|].
  intros Hm2. apply Z.mul_lt_mono_pos_r; [lia|].
  destruct (Z_lt_ge_dec (m1 * T * B) (A * 9007199254740992)) as [|Hge]; [assumption|exfalso].
  assert (Heq : A * 9007199254740992 = B * (m1 * T) + 0) by lia.
  assert (Hqr : q = m1 * T /\ r = 0).
  { assert (Hu : q = m1 * T).
    { apply (Z.div_unique_pos (A * 9007199254740992) B q r) in Hq; [|lia].
      apply (Z.div_unique_pos (A * 9007199254740992) B (m1 * T) 0) in Heq; [|lia].
      lia. }
    split; [exact Hu|]. rewrite Hu in Hq. lia. }
  destruct Hqr as [Hqe ->].
  rewrite new_location_exact in Hexact.
  assert (Hr0 : r1 = 0) by lia.
  specialize (Hexact eq_refl Hr0). lia.
Qed.

(** No number with a mantissa of at most 53 bits lies strictly between
    two neighbours [m1 * 2^e1] and [(m1 + 1) * 2^e1] of a normal binade. *)
Lemma no_number_between (m1 e1 mf ef : Z) :
  2 ^ 52 <= m1 -> -1074 <= e1 -> 0 <= mf <= 2 ^ 53 -> -1074 <= ef ->
  m1 * 2 ^ (e1 + 1074) < mf * 2 ^ (ef + 1074) ->
  (m1 + 1) * 2 ^ (e1 + 1074) <= mf * 2 ^ (ef + 1074).
Proof.
  intros Hm1 He1 Hmf Hef Hlt.
  change (2 ^ 52) with 4503599627370496 in Hm1.
  change (2 ^ 53) with 9007199254740992 in Hmf.
  destruct (Z_le_gt_dec e1 ef) as [Hle | Hgt].
  - rewrite (pow2_split (e1 + 1074) (ef + 1074)) in Hlt |- * by lia.
    assert (HE : 0 < 2 ^ (e1 + 1074)) by (apply Z.pow_pos_nonneg; lia).
    assert (HD : 0 < 2 ^ (ef + 1074 - (e1 + 1074))) by (apply Z.pow_pos_nonneg; lia).
    set (E := 2 ^ (e1 + 1074)) in *. set (D := 2 ^ (ef + 1074 - (e1 + 1074))) in *.
    assert (m1 < mf * D).
    { apply Z.mul_lt_mono_pos_r with E; [lia|]. lia. }
    replace (mf * (E * D)) with (mf * D * E) by ring.
    apply Z.mul_le_mono_nonneg_r; lia.
  - exfalso.
    rewrite (pow2_split (ef + 1074) (e1 + 1074)) in Hlt by lia.
    assert (HE : 0 < 2 ^ (ef + 1074)) by (apply Z.pow_pos_nonneg; lia).
    assert (HD : 2 <= 2 ^ (e1 + 1074 - (ef + 1074))).
    { change 2 with (2 ^ 1) at 1. apply Z.pow_le_mono_r; lia. }
    set (E := 2 ^ (ef + 1074)) in *. set (D := 2 ^ (e1 + 1074 - (ef + 1074))) in *.
    assert (H1 : 4503599627370496 * 2 <= m1 * D) by (apply Z.mul_le_mono_nonneg; lia).
    assert (H2 : 4503599627370496 * 2 * E <= m1 * D * E)
      by (apply Z.mul_le_mono_nonneg_r; lia).
    assert (H3 : mf * E <= 9007199254740992 * E) by (apply Z.mul_le_mono_nonneg_r; lia).
    replace (m1 * (E * D)) with (m1 * D * E) in Hlt by ring. lia.
Qed.

(** The quotient by a count [n] grows with the numerator: rounding keeps
    the order of two distinct quotients because a multiple of [2^-53] lies
    between them. *)
Lemma of_N_div_mono (c1 c2 n : Z) :
  0 <= c1 <= c2 -> c2 <= n -> 1 <= n < 2 ^ 53 ->
  (Js.of_N c1 / Js.of_N n <=? Js.of_N c2 / Js.of_N n)%float = true.
Proof.
  intros Hc Hcn Hn.
  destruct (of_N_div_unit c1 n ltac:(lia) ltac:(lia)) as [H01 _].
  destruct (of_N_div_unit c2 n ltac:(lia) ltac:(lia)) as [H02 _].
  apply leb_true_not_nan in H01. destruct H01 as (_ & N1 & K01).
  apply leb_true_not_nan in H02. destruct H02 as (_ & N2 & K02).
  rewrite key_zero in K01, K02.
  apply leb_of_keys; [exact N1 | exact N2 |].
  destruct (Z.eq_dec c1 0) as [-> | Hc0].
  { rewrite zero_div_of_N by lia. rewrite key_zero. exact K02. }
  destruct (Z.eq_dec c1 c2) as [-> | Hne]; [lia|].
  pose proof pow1074_pos as HP.
  destruct (of_N_normal c1 ltac:(lia)) as (ma1 & ea1 & Ea1 & Hma1 & Hea1 & Ka1).
  destruct (of_N_normal c2 ltac:(lia)) as (ma2 & ea2 & Ea2 & Hma2 & Hea2 & Ka2).
  destruct (of_N_normal n Hn) as (mb & eb & Eb & Hmb & Heb & Kb).
  destruct (div_normal_grid _ _ ma1 mb ea1 eb Ea1 Eb Hma1 Hmb ltac:(lia) ltac:(lia))
    as (m1 & m2 & e1 & Hm1 & Hm2 & He1 & _ & K1 & L1 & _ & S1).
  destruct (div_normal_grid _ _ ma2 mb ea2 eb Ea2 Eb Hma2 Hmb ltac:(lia) ltac:(lia))
    as (m1' & m2' & e1' & Hm1' & Hm2' & He1' & _ & K2 & _ & U2 & _).
  rewrite K1, K2.
  rewrite of_N_key in L1, S1, U2 by lia. rewrite of_N_key in L1, S1 by lia.
  rewrite of_N_key in U2 by lia.
  change (2 ^ 1074) with (2 ^ 53 * 2 ^ 1021) in L1, S1, U2.
  assert (HQ : 0 < 2 ^ 1021) by (apply Z.pow_pos_nonneg; lia).
  assert (HE1 : 0 < 2 ^ (e1 + 1074)) by (apply Z.pow_pos_nonneg; lia).
  assert (HE2 : 0 < 2 ^ (e1' + 1074)) by (apply Z.pow_pos_nonneg; lia).
  set (Q := 2 ^ 1021) in *. set (E1 := 2 ^ (e1 + 1074)) in *.
  set (E2 := 2 ^ (e1' + 1074)) in *.
  change (2 ^ 53) with 9007199254740992 in *.
  change (2 ^ 52) with 4503599627370496 in *.
  (* a multiple of 2^-53 between the two exact quotients *)
  set (F := (c1 * 9007199254740992 + n - 1) / n).
  assert (HF : c1 * 9007199254740992 <= F * n /\ F * n < c1 * 9007199254740992 + n).
  { pose proof (Z.div_mod (c1 * 9007199254740992 + n - 1) n ltac:(lia)) as Hd.
    pose proof (Z.mod_pos_bound (c1 * 9007199254740992 + n - 1) n ltac:(lia)) as Hr.
    fold F in Hd. lia. }
  assert (HF53 : 0 <= F <= 9007199254740992).
  { split; [apply Z.div_pos; lia|].
    destruct (Z_le_gt_dec F 9007199254740992) as [|Hgt]; [assumption|exfalso].
    assert (9007199254740993 * n <= F * n) by (apply Z.mul_le_mono_nonneg_r; lia).
    assert (c1 * 9007199254740992 <= n * 9007199254740992)
      by (apply Z.mul_le_mono_nonneg_r; lia).
    lia. }
  assert (HF2 : F * n < c2 * 9007199254740992).
  { assert ((c1 + 1) * 9007199254740992 <= c2 * 9007199254740992)
      by (apply Z.mul_le_mono_nonneg_r; lia).
    lia. }
  assert (HW : 0 < 9007199254740992 * Q) by lia.
  set (W := 9007199254740992 * Q) in *.
  assert (L1' : m1 * E1 * n <= c1 * W).
  { apply Z.mul_le_mono_pos_r with W; [exact HW|].
    replace (m1 * E1 * n * W) with (m1 * E1 * (n * W)) by ring. exact L1. }
  assert (S1' : m2 = m1 + 1 -> m1 * E1 * n < c1 * W).
  { intros H. apply Z.mul_lt_mono_pos_r with W; [exact HW|].
    replace (m1 * E1 * n * W) with (m1 * E1 * (n * W)) by ring. exact (S1 H). }
  assert (U2' : c2 * W < (m1' + 1) * E2 * n).
  { apply Z.mul_lt_mono_pos_r with W; [exact HW|].
    replace ((m1' + 1) * E2 * n * W) with ((m1' + 1) * E2 * (n * W)) by ring. exact U2. }
  assert (G1 : c1 * W <= F * Q * n).
  { replace (c1 * W) with (c1 * 9007199254740992 * Q) by (subst W; ring).
    replace (F * Q * n) with (F * n * Q) by ring.
    apply Z.mul_le_mono_nonneg_r; lia. }
  assert (G2 : F * Q * n < c2 * W).
  { replace (c2 * W) with (c2 * 9007199254740992 * Q) by (subst W; ring).
    replace (F * Q * n) with (F * n * Q) by ring.
    apply Z.mul_lt_mono_pos_r; lia. }
  assert (HQe : Q = 2 ^ (-53 + 1074)) by reflexivity.
  (* the first quotient is at most F * 2^-53 *)
  assert (HU : m2 * E1 <= F * Q).
  { destruct (Z.eq_dec m2 m1) as [-> | Hm].
    - apply Z.mul_le_mono_pos_r with n; lia.
    - assert (Hs : m1 * E1 < F * Q).
      { apply Z.mul_lt_mono_pos_r with n; [lia|].
        specialize (S1' ltac:(lia)). lia. }
      replace m2 with (m1 + 1) by lia. rewrite HQe in Hs |- *.
      apply no_number_between; try lia. }
  (* and the second one at least that *)
  assert (HD : F * Q <= m2' * E2).
  { apply Z.le_trans with (m1' * E2); [|apply Z.mul_le_mono_nonneg_r; lia].
    destruct (Z_le_gt_dec (F * Q) (m1' * E2)) as [|Hgt]; [assumption|exfalso].
    assert (Hs : (m1' + 1) * E2 <= F * Q).
    { rewrite HQe in Hgt |- *. apply no_number_between; try lia. }
    assert ((m1' + 1) * E2 * n <= F * Q * n) by (apply Z.mul_le_mono_nonneg_r; lia).
    lia. }
  lia.
Qed.

Lemma above_threshold_mono (t1 t2 score : float) :
  (t1 <=? t2)%float = true -> (t2 <? score)%float = true -> (t1 <? score)%float = true.
Proof.
  intros H1 H2. apply leb_true_not_nan in H1. destruct H1 as (N1 & N2 & K1).
  apply ltb_true_not_nan in H2. destruct H2 as (_ & Ns & K2).
  apply ltb_of_keys; try assumption. lia.
Qed.

Section Thresholds.

Variable Math_log : float -> float.
Variable Math_cos : float -> float.

(** Under a higher threshold the loop makes the same draws and counts no
    more successes. *)
Lemma sim_loop_thresholds (dfuel fuel : nat) (iters t1 t2 : float)
    (enabled : list Assumption) (i s1 s2 : Z) (g g' : Rng) (total1 : Z) :
  (t1 <=? t2)%float = true ->
  sim_loop Math_log Math_cos dfuel fuel iters t1 enabled i s1 g = Some (total1, g') ->
  exists total2,
    sim_loop Math_log Math_cos dfuel fuel iters t2 enabled i s2 g = Some (total2, g') /\
    s2 <= total2 /\ total2 - s2 <= total1 - s1.
Proof.
  intros Ht. revert i s1 s2 g.
  induction fuel as [|fuel IH]; intros i s1 s2 g; cbn [sim_loop]; [discriminate|].
  destruct (Js.of_N i <? iters)%float.
  - destruct (trial_score Math_log Math_cos dfuel enabled 0 g) as [[score g1]|];
      [|discriminate].
    intros H.
    destruct (t2 <? score)%float eqn:E2.
    + rewrite (above_threshold_mono t1 t2 score Ht E2) in H.
      destruct (IH _ _ (s2 + 1) _ H) as (total2 & -> & Hlo & Hhi).
      exists total2. split; [reflexivity|]. lia.
    + destruct (IH _ _ s2 _ H) as (total2 & -> & Hlo & Hhi).
      exists total2. split; [reflexivity|].
      destruct (t1 <? score)%float; lia.
  - intros H. injection H as <- <-. exists s2. split; [reflexivity|]. lia.
Qed.

(** X6.  On the same draws, raising the threshold never raises the probability
    of success: the run still returns, with a probability that is at most
    the one before. *)
Theorem raising_threshold_never_raises_probability
    (fuel : nat) (assumptions : list Assumption) (iters seed : option float)
    (t1 t2 : option float) (random : Stream) (resp1 : SimResponse) :
  let body t := {| r_assumptions := assumptions; r_iterations := iters;
                   r_threshold := t; r_seed := seed |} in
  (request_threshold (body t1) <=? request_threshold (body t2))%float = true ->
  POST Math_log Math_cos fuel (body t1) random = Some resp1 ->
  exists resp2,
    POST Math_log Math_cos fuel (body t2) random = Some resp2 /\
    iterations resp2 = iterations resp1 /\
    (probabilitySuccess resp2 <=? probabilitySuccess resp1)%float = true.
Proof.
  intros body Ht. unfold POST.
  change (request_iterations (body t2)) with (request_iterations (body t1)).
  change (request_enabled (body t2)) with (request_enabled (body t1)).
  change (request_rng (body t2) random) with (request_rng (body t1) random).
  destruct (request_iterations_int (body t1)) as (n & Hn & ->).
  assert (Hn53 : n < 2 ^ 53) by (apply Z.le_lt_trans with 300000; [lia | reflexivity]).
  destruct (sim_loop _ _ fuel fuel _ (request_threshold (body t1)) _ _ _ _)
    as [[total1 g']|] eqn:E1; [|discriminate].
  intros H. injection H as <-.
  destruct (sim_loop_thresholds _ _ _ _ _ _ _ 0 0 _ _ _ Ht E1) as (total2 & -> & Hlo & Hhi).
  apply sim_loop_spec in E1; [|lia|exact Hn53].
  destruct E1 as (scores & Hs & ->). rewrite Z.sub_0_r in Hs.
  pose proof (trial_scores_length _ _ _ _ _ _ _ _ Hs) as Hlen.
  pose proof (successes_bounds (request_threshold (body t1)) scores) as Hb.
  eexists. split; [reflexivity|]. cbn [iterations probabilitySuccess].
  split; [reflexivity|].
  apply of_N_div_mono; lia.
Qed.

End Thresholds.

(** * What an answer depends on *)

Lemma override_override (vars : Variables) (name : string) (c1 c2 : VarConfig) :
  override (override vars name c1) name c2 = override vars name c2.
Proof.
  unfold override. rewrite map_map. apply map_ext. intros [k c]. cbn [fst].
  destruct (String.eqb k name) eqn:E; cbn [fst]; rewrite E; reflexivity.
Qed.

Section Dependence.

Variable Math_log : float -> float.
Variable Math_cos : float -> float.

(** X19.  In its own row a variable's [base] plays no part beyond being
    reported: the low and the high scenario replace it by [min] and [max].
    Changing that [base] in [variables] changes nothing else in the row. *)
Theorem sensitivity_row_ignores_own_base
    (vars : Variables) (baseResults : Results) (name : string)
    (config : VarConfig) (b : float) (s : Stream) :
  exists row row' s',
    sensitivity_row Math_log Math_cos vars baseResults (name, config) s = Ok (row, s') /\
    sensitivity_row Math_log Math_cos (override vars name (with_base config b))
      baseResults (name, with_base config b) s = Ok (row', s') /\
    row_base row = v_base config /\ row_base row' = b /\
    outcome_at_low row' = outcome_at_low row /\
    outcome_at_high row' = outcome_at_high row /\
    impact_percent row' = impact_percent row.
Proof.
  unfold sensitivity_row, bind.
  cbn [with_base v_min v_max v_base].
  rewrite !override_override.
  change (with_base (with_base config b) (v_min config))
    with (with_base config (v_min config)).
  change (with_base (with_base config b) (v_max config))
    with (with_base config (v_max config)).
  destruct (runSimulation_ok Math_log Math_cos
              (override vars name (with_base config (v_min config))) 5000 s
              five_thousand_pos) as (resLow & s1 & ->).
  destruct (runSimulation_ok Math_log Math_cos
              (override vars name (with_base config (v_max config))) 5000 s1
              five_thousand_pos) as (resHigh & s2 & ->).
  unfold ret. eexists _, _, _. repeat (split; [reflexivity|]). reflexivity.
Qed.

Lemma trial_score_numbers (fuel : nat) (l1 l2 : list Assumption) (acc : float) (g : Rng) :
  map (fun a => (a_sign a, weight_of a, mean_of a, std_of a)) l1
  = map (fun a => (a_sign a, weight_of a, mean_of a, std_of a)) l2 ->
  trial_score Math_log Math_cos fuel l1 acc g = trial_score Math_log Math_cos fuel l2 acc g.
Proof.
  revert l2 acc g. induction l1 as [|a l1 IH]; intros [|b l2] acc g H;
    try discriminate; [reflexivity|].
  cbn [map] in H. injection H as Hs Hw Hm Hd Hl. cbn [trial_score].
  destruct (randn Math_log Math_cos fuel g) as [[z g']|]; [|reflexivity].
  rewrite Hs, Hw, Hm, Hd. apply IH, Hl.
Qed.

Lemma sim_loop_numbers (dfuel fuel : nat) (iters threshold : float)
    (l1 l2 : list Assumption) (i success : Z) (g : Rng) :
  map (fun a => (a_sign a, weight_of a, mean_of a, std_of a)) l1
  = map (fun a => (a_sign a, weight_of a, mean_of a, std_of a)) l2 ->
  sim_loop Math_log Math_cos dfuel fuel iters threshold l1 i success g
  = sim_loop Math_log Math_cos dfuel fuel iters threshold l2 i success g.
Proof.
  intros H. revert i success g.
  induction fuel as [|fuel IH]; intros i success g; cbn [sim_loop]; [reflexivity|].
  rewrite (trial_score_numbers dfuel l1 l2 0 g H).
  destruct (Js.of_N i <? iters)%float; [|reflexivity].
  destruct (trial_score Math_log Math_cos dfuel l2 0 g) as [[score g']|]; [|reflexivity].
  apply IH.
Qed.

(** X20.  The answer depends on the assumptions only through the sign and the
    clamped weight, mean and std of the enabled ones, in order: names,
    identifiers, disabled rows and whatever clamping removes play no part. *)
Theorem POST_depends_on_clamped_numbers
    (fuel : nat) (l1 l2 : list Assumption) (iters threshold seed : option float)
    (random : Stream) :
  map (fun a => (a_sign a, weight_of a, mean_of a, std_of a)) (filter a_enabled l1)
  = map (fun a => (a_sign a, weight_of a, mean_of a, std_of a)) (filter a_enabled l2) ->
  POST Math_log Math_cos fuel
    {| r_assumptions := l1; r_iterations := iters;
       r_threshold := threshold; r_seed := seed |} random
  = POST Math_log Math_cos fuel
      {| r_assumptions := l2; r_iterations := iters;
         r_threshold := threshold; r_seed := seed |} random.
Proof.
  intros H. unfold POST, request_enabled, request_iterations, request_threshold,
    request_rng.
  cbn [r_assumptions r_iterations r_threshold r_seed].
  rewrite (sim_loop_numbers fuel fuel _ _ _ _ 0 0 _ H).
  apply (f_equal (@List.length _)) in H. rewrite !length_map in H. rewrite H.
  reflexivity.
Qed.

End Dependence.

Section TwoSamplers.

Variable Math_log : float -> float.
Variable Math_cos : float -> float.

(** X21.  The two samplers agree when neither of the next two draws of
    [Math.random] is zero: the route's [randn] and the MCP function's
    inline Box-Muller compute the same normal draw from these two draws,
    and both leave [Math.random] two draws further. *)
Theorem samplers_agree_without_zero (fuel : nat) (config : VarConfig) (s : Stream) :
  (draws s (position s) =? 0)%float = false ->
  (draws s (N.succ (position s)) =? 0)%float = false ->
  let z := box_muller Math_log Math_cos (draws s (position s))
             (draws s (N.succ (position s))) in
  let s' := {| draws := draws s; position := N.succ (N.succ (position s)) |} in
  randn Math_log Math_cos (S fuel) (SystemRandom s) = Some (z, SystemRandom s') /\
  sample_variable Math_log Math_cos config s
  = Ok (Js.Math_max (v_min config)
          (Js.Math_min (v_max config)
             (v_base config + z * ((v_max config - v_min config) / 4))%float), s').
Proof.
  intros H1 H2 z s'. split.
  - unfold randn. cbn [draw_nonzero rng Math_random_next]. rewrite H1.
    cbn [draw_nonzero rng Math_random_next draws position]. rewrite H2. reflexivity.
  - reflexivity.
Qed.

End TwoSamplers.

(** X22.  The loop [while (u === 0) u = rng()] of [randn] on [Math.random]:
    it returns the first draw that is not [=== 0], after skipping the [k]
    zeros before it. *)
Theorem draw_nonzero_first_nonzero (fuel k : nat) (s : Stream) :
  (forall j, (j < k)%nat -> (draws s (position s + N.of_nat j) =? 0)%float = true) ->
  (draws s (position s + N.of_nat k) =? 0)%float = false ->
  (k < fuel)%nat ->
  draw_nonzero fuel (SystemRandom s)
  = Some (draws s (position s + N.of_nat k),
          SystemRandom {| draws := draws s;
                          position := (position s + N.of_nat k + 1)%N |}).
Proof.
  revert fuel s. induction k as [|k IH]; intros fuel s Hz Hk Hf.
  - destruct fuel as [|fuel]; [lia|].
    cbn [draw_nonzero rng Math_random_next]. cbn [N.of_nat] in Hk |- *.
    rewrite N.add_0_r in Hk |- *. rewrite Hk.
    replace (N.succ (position s)) with (position s + 1)%N by lia. reflexivity.
  - destruct fuel as [|fuel]; [lia|].
    cbn [draw_nonzero rng Math_random_next].
    pose proof (Hz O ltac:(lia)) as H0. cbn [N.of_nat] in H0. rewrite N.add_0_r in H0.
    rewrite H0.
    rewrite (IH fuel {| draws := draws s; position := N.succ (position s) |}).
    + cbn [draws position].
      replace (N.succ (position s) + N.of_nat k)%N
        with (position s + N.of_nat (S k))%N by lia.
      reflexivity.
    + intros j Hj. cbn [draws position].
      replace (N.succ (position s) + N.of_nat j)%N
        with (position s + N.of_nat (S j))%N by lia.
      apply Hz. lia.
    + cbn [draws position].
      replace (N.succ (position s) + N.of_nat k)%N
        with (position s + N.of_nat (S k))%N by lia.
      exact Hk.
    + lia.
Qed.

(** * The analysis of a decision that is not the hiring decision *)

Lemma js_sort_all_equal {A} (cmp : A -> A -> float) (P : A -> Prop) (l : list A) :
  (forall x y, P x -> P y -> (0 <? cmp x y)%float = false) ->
  Forall P l -> js_sort cmp l = l.
Proof.
  intros H Hl. unfold js_sort. induction Hl as [|x l Hx Hl IH]; [reflexivity|].
  cbn [fold_right]. rewrite IH. destruct Hl as [|y l Hy _]; [reflexivity|].
  cbn [sort_insert]. now rewrite H.
Qed.

Lemma override_keys (vars : Variables) (name : string) (c : VarConfig) :
  map fst (override vars name c) = map fst vars.
Proof.
  unfold override. rewrite map_map. apply map_ext. intros [k v]. cbn [fst].
  destruct (String.eqb k name); reflexivity.
Qed.

Lemma has_hiring_keys_override (vars : Variables) (name : string) (c : VarConfig) :
  has_hiring_keys (override vars name c) = has_hiring_keys vars.
Proof. unfold has_hiring_keys. now rewrite override_keys. Qed.

Lemma abs_nan (x : float) : is_nan x = true -> is_nan (Js.Math_abs x) = true.
Proof. intros H. unfold Js.Math_abs. destruct (abs_key x) as [_ N]. now rewrite N. Qed.

Section ForeignDecision.

Variable Math_log : float -> float.
Variable Math_cos : float -> float.

Lemma foreign_row_draws (vars : Variables) (baseResults : Results)
    (entry : string * VarConfig) :
  has_hiring_keys vars = false ->
  draws_exactly (sensitivity_row Math_log Math_cos vars baseResults entry)
    (2 * run_draws vars 5000)
    (fun row => variable row = fst entry /\ is_nan (impact_percent row) = true).
Proof.
  intros Hk s. destruct entry as [name config]. unfold sensitivity_row, bind.
  rewrite runSimulation_draws by exact five_thousand_pos.
  rewrite runSimulation_draws by exact five_thousand_pos.
  rewrite !run_draws_override, skip_skip. unfold ret.
  eexists. split; [|split].
  - do 2 f_equal. unfold skip. f_equal. lia.
  - reflexivity.
  - cbn [impact_percent]. apply abs_nan, mul_nan_l, div_nan_l, sub_nan_l.
    apply (summary_of_another_model Math_log Math_cos _ 5000 _ (proj2 trial_counts_in_range)).
    now rewrite has_hiring_keys_override.
Qed.

(** X23.  For variables that lack a property the hiring model reads, the handler
    answers 200 with a summary whose three outcomes and whose impact are
    NaN; every impact being NaN, the rows are left in the order of the
    input and the first variable is reported as the most sensitive. *)
Theorem handler_of_another_model
    (name first : string) (c : VarConfig) (rest : Variables) (random : Stream) :
  has_hiring_keys ((first, c) :: rest) = false ->
  exists summary,
    handler Math_log Math_cos
      {| req_method := "POST";
         body_method := "tools/call";
         body_params :=
           Some {| p_name := "analyze_decision";
                   p_arguments :=
                     Some {| decision_name := name;
                             variables := (first, c) :: rest |} |} |}
      random
    = {| status := 200; body := Content summary false |} /\
    s_most_sensitive summary = first /\
    is_nan (s_impact summary) = true /\
    is_nan (s_pessimistic summary) = true /\
    is_nan (s_expected summary) = true /\
    is_nan (s_optimistic summary) = true.
Proof.
  intros Hk. unfold handler, try_block.
  cbn [req_method body_method body_params p_name p_arguments].
  change ("POST" =? "OPTIONS")%string with false.
  change ("POST" =? "GET")%string with false.
  change ("POST" =? "POST")%string with true.
  change ("tools/call" =? "tools/list")%string with false.
  change ("tools/call" =? "tools/call")%string with true.
  change ("analyze_decision" =? "analyze_decision")%string with true.
  cbn iota. unfold analyze_decision, bind. cbn [variables decision_name].
  set (vars := (first, c) :: rest) in *.
  rewrite runSimulation_draws by exact ten_thousand_pos.
  destruct (summary_of_another_model Math_log Math_cos vars 10000 random
              (proj1 trial_counts_in_range) Hk) as (_ & Hmed & H10 & H90 & _).
  set (results := summary_of _ _) in *. set (s1 := skip random _).
  unfold sensitivity, bind.
  destruct (mapM_draws _ _ _ vars
              (fun entry => foreign_row_draws vars results entry Hk) s1)
    as (rows & -> & Hrows).
  unfold ret.
  assert (Hnan : Forall (fun row => is_nan (impact_percent row) = true) rows).
  { clear - Hrows. induction Hrows as [|x y l l' [_ Hy] _ IH]; constructor; assumption. }
  rewrite (js_sort_all_equal by_impact_desc
             (fun row => is_nan (impact_percent row) = true) rows).
  - subst vars. inversion Hrows as [|x top l rows' [Hv Hi] Hrest]; subst.
    eexists. split; [reflexivity|].
    cbn [s_most_sensitive s_impact s_pessimistic s_expected s_optimistic].
    cbn [fst] in Hv. auto.
  - intros x y Hx Hy. unfold by_impact_desc. apply ltb_nan_r, sub_nan_l, Hy.
  - exact Hnan.
Qed.

End ForeignDecision.

(** * Instances of the properties above *)

(** The request whose fields are all NaN is answered, with the minima; an
    iteration count and a mean inside their ranges are kept, a mean above
    its range becomes the maximum; the seeded example request is answered. *)
Lemma C8_witness :
  (exists resp,
     POST engine_log engine_cos (Z.to_nat 300001) nan_request (constant_stream 0.5)
     = Some resp /\
     iterations resp = 1000%float /\
     summary_threshold resp = (-1000)%float) /\
  (request_iterations seeded_request =? 1000)%float = true /\
  (mean_of (assumption "a" 0.8 0.6 1 "positive" true) =? 0.8)%float = true /\
  mean_of (assumption "a" 2000000 0.6 1 "positive" true) = 1000000%float /\
  exists resp,
    POST engine_log engine_cos (Z.to_nat 300001) seeded_request (constant_stream 0.5)
    = Some resp /\
    iterations resp = request_iterations seeded_request.
Proof.
  destruct (C8_numeric_fields_are_clamped engine_log engine_cos nan_request
              (assumption "a" 0.8 0.6 1 "positive" true))
    as (Hi & Ht & Hm & _ & _ & _ & _ & _ & _ & _ & _ & _ & _ & _ & _ & _ & _ & H & _).
  destruct (H (constant_stream 0.5) eq_refl constant_stream_zero_free)
    as (resp & E & Ei & Et).
  destruct Hi as (Hi & _). destruct Ht as (Ht & _).
  split.
  - exists resp. split; [exact E|].
    split; [rewrite Ei; exact (Hi eq_refl) | rewrite Et; exact (Ht eq_refl)].
  - destruct (C8_numeric_fields_are_clamped engine_log engine_cos seeded_request
                (assumption "a" 2000000 0.6 1 "positive" true))
      as ((_ & _ & _ & Hin) & _ & (_ & _ & Hup & _)
          & _ & _ & _ & _ & _ & _ & _ & _ & _ & _ & _ & _ & _ & _ & _ & Hs).
    split; [exact (Hin eq_refl eq_refl)|].
    destruct Hm as (_ & _ & _ & Hm).
    split; [exact (Hm eq_refl eq_refl)|]. split; [exact (Hup eq_refl)|].
    destruct (Hs (constant_stream 0.5) 42%float eq_refl) as (resp2 & E2 & Ei2 & _).
    { apply Z.leb_le. vm_compute. reflexivity. }
    exists resp2. split; [exact E2 | exact Ei2].
Defined.

(** The seeds [42.5] and [42 + 2^32] both read as [42]. *)
Lemma seeds_equal_as_uint32_witness :
  POST engine_log engine_cos 1001
    {| r_assumptions := page_assumptions; r_iterations := Some 1000%float;
       r_threshold := Some 0%float; r_seed := Some 42.5%float |} (constant_stream 0.5)
  = POST engine_log engine_cos 1001
      {| r_assumptions := page_assumptions; r_iterations := Some 1000%float;
         r_threshold := Some 0%float; r_seed := Some 4294967338%float |} three_phases.
Proof.
  apply seeds_equal_as_uint32_answer_alike. vm_compute. reflexivity.
Defined.

Lemma POST_nothing_enabled_witness :
  exists resp,
    POST engine_log engine_cos (Z.to_nat 300001) idle_request (constant_stream 0.5)
    = Some resp /\
    summary_enabledCount resp = 0%nat /\
    (if (request_threshold idle_request <? 0)%float
     then probabilitySuccess resp = 1%float /\ label resp = HIGH
     else probabilitySuccess resp = 0%float /\ label resp = LOW).
Proof. apply POST_nothing_enabled. reflexivity. Defined.

Lemma request_iterations_of_integer_witness :
  request_iterations
    {| r_assumptions := page_assumptions; r_iterations := Some (Js.of_N 500);
       r_threshold := None; r_seed := None |}
  = Js.of_N (Z.max 1000 (Z.min 300000 500)).
Proof. apply request_iterations_of_integer. split; [lia | reflexivity]. Defined.

Lemma label_of_monotone_witness :
  (label_of 0.7 = LOW -> label_of 0.2 = LOW) /\
  (label_of 0.2 = HIGH -> label_of 0.7 = HIGH) /\
  (label_of 0.2 = MEDIUM -> label_of 0.7 <> LOW).
Proof. apply label_of_monotone. reflexivity. Defined.

(** The seeded example request, with its threshold raised from 0 to 1. *)
Lemma raising_threshold_witness :
  exists resp2,
    POST engine_log engine_cos 1001
      {| r_assumptions := page_assumptions; r_iterations := Some 1000%float;
         r_threshold := Some 1%float; r_seed := Some 42%float |} (constant_stream 0.5)
    = Some resp2 /\
    iterations resp2 = iterations seeded_response /\
    (probabilitySuccess resp2 <=? probabilitySuccess seeded_response)%float = true.
Proof.
  exact (raising_threshold_never_raises_probability engine_log engine_cos 1001
           page_assumptions (Some 1000%float) (Some 42%float) (Some 0%float)
           (Some 1%float) (constant_stream 0.5) seeded_response eq_refl
           (seeded_run (constant_stream 0.5))).
Defined.

(** A mean typed as 7 on the page: clamped to 5, which the route keeps. *)
Lemma clamp_of_clampNumber_witness :
  (clamp (clampNumber 7 (-5) 5) (-1000000) 1000000 =? clampNumber 7 (-5) 5)%float = true.
Proof. apply clamp_of_clampNumber; reflexivity. Defined.

Lemma addRow_then_remove_witness :
  remove "new" (addRow "new" page_assumptions) = page_assumptions /\
  enabledCount (addRow "new" page_assumptions) = S (enabledCount page_assumptions) /\
  List.length (addRow "new" page_assumptions) = S (List.length page_assumptions).
Proof. apply addRow_then_remove. reflexivity. Defined.

Lemma runSimulation_statistics_witness :
  exists r s',
    runSimulation engine_log engine_cos hiring 10000 (constant_stream 0.5) = Ok (r, s') /\
    (0 <=? prob_positive r)%float = true /\
    (prob_positive r <=? 1)%float = true /\
    In (p10 r) (trial_outcomes engine_log engine_cos hiring 10000 (constant_stream 0.5)) /\
    In (median r) (trial_outcomes engine_log engine_cos hiring 10000 (constant_stream 0.5)) /\
    In (p90 r) (trial_outcomes engine_log engine_cos hiring 10000 (constant_stream 0.5)).
Proof.
  exact (runSimulation_statistics engine_log engine_cos hiring 10000
           (constant_stream 0.5) (proj1 trial_counts_in_range)).
Defined.

Lemma runSimulation_of_another_model_witness :
  exists r s',
    runSimulation engine_log engine_cos pricing 10000 (constant_stream 0.5) = Ok (r, s') /\
    is_nan (mean r) = true /\ is_nan (median r) = true /\
    is_nan (p10 r) = true /\ is_nan (p90 r) = true /\
    prob_positive r = 0%float.
Proof.
  exact (runSimulation_of_another_model engine_log engine_cos pricing 10000
           (constant_stream 0.5) (proj1 trial_counts_in_range) eq_refl).
Defined.

Lemma handler_answers_any_variables_witness :
  exists summary,
    handler engine_log engine_cos
      {| req_method := "POST";
         body_method := "tools/call";
         body_params :=
           Some {| p_name := "analyze_decision";
                   p_arguments :=
                     Some {| decision_name := "hire"; variables := pricing |} |} |}
      (constant_stream 0.5)
    = {| status := 200; body := Content summary false |} /\
    s_decision summary = "hire"%string /\
    In (s_most_sensitive summary) (map fst pricing).
Proof.
  apply handler_answers_any_variables. discriminate.
Defined.

(** A mean beyond the range, another name, another word for the direction
    and a disabled row more: the same response as the clamped request. *)
Lemma POST_depends_on_clamped_numbers_witness :
  POST engine_log engine_cos 1001
    {| r_assumptions := [ assumption "A" 2000000 0.5 1 "positive" true;
                          assumption "C" 1 1 1 "negative" false ];
       r_iterations := Some 1000%float; r_threshold := None; r_seed := Some 7%float |}
    (constant_stream 0.5)
  = Some {| iterations := 1000;
            probabilitySuccess := 1;
            label := HIGH;
            summary_threshold := 0;
            summary_enabledCount := 1 |} /\
  POST engine_log engine_cos 1001
    {| r_assumptions := [ assumption "B" 1000000 0.5 1 "up" true ];
       r_iterations := Some 1000%float; r_threshold := None; r_seed := Some 7%float |}
    (constant_stream 0.5)
  = Some {| iterations := 1000;
            probabilitySuccess := 1;
            label := HIGH;
            summary_threshold := 0;
            summary_enabledCount := 1 |}.
Proof.
  rewrite (POST_depends_on_clamped_numbers engine_log engine_cos 1001
             [ assumption "A" 2000000 0.5 1 "positive" true;
               assumption "C" 1 1 1 "negative" false ]
             [ assumption "B" 1000000 0.5 1 "up" true ]
             (Some 1000%float) None (Some 7%float) (constant_stream 0.5) eq_refl).
  split; vm_compute; reflexivity.
Defined.

Lemma samplers_agree_without_zero_witness :
  randn engine_log engine_cos 1 (SystemRandom (constant_stream 0.5))
  = Some (box_muller engine_log engine_cos 0.5 0.5,
          SystemRandom {| draws := fun _ => 0.5%float; position := 2 |}) /\
  sample_variable engine_log engine_cos (config 10 5 15) (constant_stream 0.5)
  = Ok (Js.Math_max 5
          (Js.Math_min 15
             (10 + box_muller engine_log engine_cos 0.5 0.5 * ((15 - 5) / 4))%float),
        {| draws := fun _ => 0.5%float; position := 2 |}).
Proof.
  exact (samplers_agree_without_zero engine_log engine_cos 0 (config 10 5 15)
           (constant_stream 0.5) eq_refl eq_refl).
Defined.

(** One zero, then [0.5]: the loop returns [0.5] after two draws. *)
Lemma draw_nonzero_first_nonzero_witness :
  draw_nonzero 2 (SystemRandom zero_first)
  = Some (0.5%float, SystemRandom {| draws := draws zero_first; position := 2 |}).
Proof.
  apply (draw_nonzero_first_nonzero 2 1 zero_first).
  - intros j Hj. replace j with O by lia. reflexivity.
  - reflexivity.
  - lia.
Defined.

(** A pricing decision: answered, with NaN throughout and [price], the
    first variable, as the most sensitive. *)
Lemma handler_of_another_model_witness :
  exists summary,
    handler engine_log engine_cos
      {| req_method := "POST";
         body_method := "tools/call";
         body_params :=
           Some {| p_name := "analyze_decision";
                   p_arguments :=
                     Some {| decision_name := "pricing"; variables := pricing |} |} |}
      (constant_stream 0.5)
    = {| status := 200; body := Content summary false |} /\
    s_most_sensitive summary = "price"%string /\
    is_nan (s_impact summary) = true /\
    is_nan (s_pessimistic summary) = true /\
    is_nan (s_expected summary) = true /\
    is_nan (s_optimistic summary) = true.
Proof.
  exact (handler_of_another_model engine_log engine_cos "pricing" "price"
           (config 10 5 15) [("demand", config 100 50 150)]%string
           (constant_stream 0.5) eq_refl).
Defined.
